(** * ARCompanion: the materials aggregation and dual-scoring engine

    A shallow embedding of [src/lib/utils/materials-aggregator.ts] and of
    the four queries it sends to the item/recipe store, then of the code
    around it (the array and item helpers, the settings store, the
    materials grid and the hover store), followed by the properties of the
    aggregation that the specification states and by further properties of
    the embedded code.

    Conventions of the embedding.
    - A JavaScript [Map] or [Set] whose iteration order reaches the result
      is an association list (resp. a list) in insertion order; a [Set]
      that is only asked for membership is a [gset string].
    - Quantities and stack sizes are SQLite INTEGER columns and are integers
      ([Z]); weights are REAL and are rationals ([Q]).
    - A JavaScript number that is the result of a division is a [number]:
      an exact rational or one of the IEEE 754 special values +Infinity,
      -Infinity and NaN.  Rounding of finite results and the sign of zero
      are not represented.
    - A string is the [string] of the bytes of its UTF-8 encoding, the
      encoding of the TEXT columns of the store.  Ids and names are compared
      as whole strings; where the code matches a regular expression the
      string is read character by character ([characters_rev]).
    - The store answers every query: limits of the SQL engine, such as the
      number of parameters that one statement may bind, are not represented.
    - Record fields keep the names of the source; each record lives in a
      module of the name of its TypeScript interface. *)

From Stdlib Require Import ZArith QArith Qpower Qround Lqa Lia Ascii String.
From stdpp Require Import gmap strings list sorting.

Local Open Scope string_scope.
Local Open Scope list_scope.
Local Open Scope Z_scope.

(** ** JavaScript numbers *)

Module JsNumber.

Inductive number : Type :=
| Fin (q : Q)
| PInf
| NInf
| NaN.

Definition Qltb (a b : Q) : bool := negb (Qle_bool b a).

Definition ofZ (z : Z) : number := Fin (inject_Z z).

Definition zero : number := Fin 0.
Definition one : number := Fin 1.

(** [x + y] *)
Definition add (x y : number) : number :=
  match x, y with
  | NaN, _ | _, NaN => NaN
  | Fin a, Fin b => Fin (a + b)
  | PInf, NInf | NInf, PInf => NaN
  | PInf, _ | _, PInf => PInf
  | NInf, _ | _, NInf => NInf
  end.

Definition neg (x : number) : number :=
  match x with
  | Fin a => Fin (- a)
  | PInf => NInf
  | NInf => PInf
  | NaN => NaN
  end.

(** [x - y] *)
Definition sub (x y : number) : number := add x (neg y).

(** The infinity that a product or quotient with a factor of the sign of
    [a] takes: [Infinity * 0] is NaN. *)
Definition signed_inf (a : Q) (pos neg : number) : number :=
  if Qltb 0 a then pos else if Qltb a 0 then neg else NaN.

(** [x * y] *)
Definition mul (x y : number) : number :=
  match x, y with
  | NaN, _ | _, NaN => NaN
  | Fin a, Fin b => Fin (a * b)
  | Fin a, PInf | PInf, Fin a => signed_inf a PInf NInf
  | Fin a, NInf | NInf, Fin a => signed_inf a NInf PInf
  | PInf, PInf | NInf, NInf => PInf
  | PInf, NInf | NInf, PInf => NInf
  end.

(** [x / y]: a finite non-zero number divided by zero is an infinity,
    [0 / 0] and [Infinity / Infinity] are NaN. *)
Definition div (x y : number) : number :=
  match x, y with
  | NaN, _ | _, NaN => NaN
  | Fin a, Fin b =>
      if Qeq_bool b 0 then signed_inf a PInf NInf else Fin (a / b)
  | Fin _, (PInf | NInf) => Fin 0
  | PInf, Fin b => if Qltb b 0 then NInf else PInf
  | NInf, Fin b => if Qltb b 0 then PInf else NInf
  | (PInf | NInf), (PInf | NInf) => NaN
  end.

(** [x < y]; every comparison with NaN is false. *)
Definition ltb (x y : number) : bool :=
  match x, y with
  | NaN, _ | _, NaN => false
  | Fin a, Fin b => Qltb a b
  | NInf, (Fin _ | PInf) => true
  | Fin _, PInf => true
  | _, _ => false
  end.

(** [x > y] *)
Definition gtb (x y : number) : bool := ltb y x.

(** [x === y] *)
Definition eqb (x y : number) : bool :=
  match x, y with
  | Fin a, Fin b => Qeq_bool a b
  | PInf, PInf | NInf, NInf => true
  | _, _ => false
  end.

(** [x >= y] *)
Definition geb (x y : number) : bool := ltb y x || eqb x y.

(** [Math.max(x, y)]: NaN when either argument is NaN. *)
Definition max (x y : number) : number :=
  match x, y with
  | NaN, _ | _, NaN => NaN
  | _, _ => if ltb x y then y else x
  end.

(** [Math.min(x, y)] *)
Definition min (x y : number) : number :=
  match x, y with
  | NaN, _ | _, NaN => NaN
  | _, _ => if ltb y x then y else x
  end.

(** [Math.pow(x, n)] for an integer exponent [n]. *)
Definition pow (x : number) (n : Z) : number :=
  if (n =? 0)%Z then one else
  match x with
  | NaN => NaN
  | Fin a =>
      if Qeq_bool a 0 then (if (0 <? n)%Z then zero else PInf)
      else Fin (Qpower a n)
  | PInf => if (0 <? n)%Z then PInf else zero
  | NInf => if (0 <? n)%Z then (if Z.even n then PInf else NInf) else zero
  end.

(** [x || d] on numbers: [0] and NaN are falsy. *)
Definition or_else (x d : number) : number :=
  match x with
  | NaN => d
  | Fin a => if Qeq_bool a 0 then d else x
  | _ => x
  end.

Definition is_nan (x : number) : bool :=
  match x with NaN => true | _ => false end.

(** [Math.round(q)]: the nearest integer, halves towards +Infinity. *)
Definition Math_round (q : Q) : Z := Qfloor (q + (1 # 2)).

End JsNumber.

Import JsNumber.

Declare Scope js_scope.
Delimit Scope js_scope with js.
Bind Scope js_scope with number.
Infix "+" := add : js_scope.
Infix "-" := sub : js_scope.
Infix "*" := mul : js_scope.
Infix "/" := div : js_scope.

(** ** Insertion-ordered maps and sets *)

Section JsMap.
Context {V : Type}.

(** [m.get(k)] *)
Fixpoint map_get (k : string) (m : list (string * V)) : option V :=
  match m with
  | [] => None
  | (k', v) :: m' => if decide (k = k') then Some v else map_get k m'
  end.

(** [m.has(k)] *)
Definition map_has (k : string) (m : list (string * V)) : bool :=
  match map_get k m with Some _ => true | None => false end.

(** [m.set(k, v)]: an existing key keeps its position, a new key goes
    to the end. *)
Fixpoint map_set (k : string) (v : V) (m : list (string * V))
  : list (string * V) :=
  match m with
  | [] => [(k, v)]
  | (k', v') :: m' =>
      if decide (k = k') then (k, v) :: m' else (k', v') :: map_set k v m'
  end.

(** [Array.from(m.keys())], [Array.from(m.values())] *)
Definition map_keys (m : list (string * V)) : list string := m.*1.
Definition map_values (m : list (string * V)) : list V := m.*2.

End JsMap.

(** [s.add(x)] on a [Set] kept in insertion order; [arr.includes(x)]
    followed by [arr.push(x)] on an array. *)
Definition set_add (x : string) (s : list string) : list string :=
  if decide (x ∈ s) then s else s ++ [x].

(** [values.reduce((sum, qty) => sum + qty, 0)] *)
Definition sumZ (l : list Z) : Z := foldl Z.add 0 l.

(** [map.get(k) || 0] on a map of quantities *)
Definition get_or_zero (k : string) (m : list (string * Z)) : Z :=
  match map_get k m with
  | Some q => if (q =? 0)%Z then 0 else q
  | None => 0
  end.

(** [arr.sort(cmp)]: the sort is stable; [after a b] says that
    [cmp(a, b) > 0], that is, [a] has to come after [b]. *)
Section JsSort.
Context {A : Type} (after : A → A → bool).

Fixpoint sort_insert (x : A) (l : list A) : list A :=
  match l with
  | [] => [x]
  | y :: l' => if after x y then y :: sort_insert x l' else x :: l
  end.

Definition js_sort (l : list A) : list A := foldr sort_insert [] l.
End JsSort.

(** ** Data model ([src/lib/types/database.ts], [src/lib/types/materials.ts]) *)

Module Item.
Record t : Type := mk {
  id : string;
  name : string;
  description : string;
  type : string;
  rarity : string;
  value : Z;
  weight_kg : Q;
  stack_size : option Z;
  found_in : option string;
  is_weapon : Z;
  blueprint_locked : Z;
  is_craftable : Z;
  effects : option string;
  image_name : string;
  updated_at : string
}.
End Item.
Abbreviation Item := Item.t.

Module CraftingRecipe.
Record t : Type := mk {
  item_id : string;
  ingredient_id : string;
  quantity : Z
}.
End CraftingRecipe.
Abbreviation CraftingRecipe := CraftingRecipe.t.

Module SalvagingOutput.
Record t : Type := mk {
  item_id : string;
  output_id : string;
  quantity : Z
}.
End SalvagingOutput.
Abbreviation SalvagingOutput := SalvagingOutput.t.

Module RecyclingOutput.
Record t : Type := mk {
  item_id : string;
  output_id : string;
  quantity : Z
}.
End RecyclingOutput.
Abbreviation RecyclingOutput := RecyclingOutput.t.

Module MaterialRequirement.
Record t : Type := mk {
  item : Item;
  totalQuantity : Z;
  requiredBy : list string
}.
End MaterialRequirement.
Abbreviation MaterialRequirement := MaterialRequirement.t.

Module SalvagingSource.
Record t : Type := mk {
  item : Item;
  salvageYields : list (string * Z);
  recycleYields : list (string * Z);
  salvageScore : number;
  recycleScore : number;
  baseName : string
}.
End SalvagingSource.
Abbreviation SalvagingSource := SalvagingSource.t.

Module MaterialFilterOptions.
Record t : Type := mk {
  hideScrappyCollected : bool;
  rarityFilters : gset string;
  hiddenSourceItems : option (gset string);
  pausedBookmarks : option (gset string)
}.
End MaterialFilterOptions.
Abbreviation MaterialFilterOptions := MaterialFilterOptions.t.

Module AggregatedMaterialsData.
Record t : Type := mk {
  materials : list MaterialRequirement;
  salvageSources : list SalvagingSource;
  recycleSources : list SalvagingSource;
  materialToSources : list (string * list string);
  sourceToMaterials : list (string * list string)
}.
End AggregatedMaterialsData.
Abbreviation AggregatedMaterialsData := AggregatedMaterialsData.t.

Inductive ScoringMethod : Type :=
| max_yield
| weight_conscious.

(** ** The item/recipe store

    The four tables that the aggregator reads, each as its list of rows,
    and the three statements it sends through [DatabaseLike]. *)

Module Database.
Record t : Type := mk {
  items : list Item;
  crafting_recipes : list CraftingRecipe;
  salvaging_outputs : list SalvagingOutput;
  recycling_outputs : list RecyclingOutput
}.
End Database.
Abbreviation Database := Database.t.

(** [db.query('SELECT * FROM crafting_recipes WHERE item_id = ?', [itemId])] *)
Definition query_recipes (db : Database) (itemId : string)
  : list CraftingRecipe :=
  filter (λ r, CraftingRecipe.item_id r = itemId) (Database.crafting_recipes db).

(** [db.queryOne('SELECT * FROM items WHERE id = ?', [id])]: the first
    row, if any. *)
Definition query_item (db : Database) (id : string) : option Item :=
  head (filter (λ i, Item.id i = id) (Database.items db)).

(** The rows of [items i] that join an output row of item [item_id]. *)
Definition join_items (db : Database) (item_id : string) : list Item :=
  filter (λ i, Item.id i = item_id) (Database.items db).

(** [SELECT so.item_id, so.output_id, so.quantity, i.*
     FROM salvaging_outputs so JOIN items i ON so.item_id = i.id
     WHERE so.output_id = ? AND so.item_id NOT IN (...)]:
    each row as the joined item and the quantity of the output row. *)
Definition query_salvage_sources (db : Database) (materialId : string)
    (excludedIds : gset string) : list (Item * Z) :=
  so ← filter (λ so, SalvagingOutput.output_id so = materialId
                     ∧ SalvagingOutput.item_id so ∉ excludedIds)
              (Database.salvaging_outputs db);
  (λ i, (i, SalvagingOutput.quantity so))
    <$> join_items db (SalvagingOutput.item_id so).

(** The same statement over [recycling_outputs ro]. *)
Definition query_recycle_sources (db : Database) (materialId : string)
    (excludedIds : gset string) : list (Item * Z) :=
  ro ← filter (λ ro, RecyclingOutput.output_id ro = materialId
                     ∧ RecyclingOutput.item_id ro ∉ excludedIds)
              (Database.recycling_outputs db);
  (λ i, (i, RecyclingOutput.quantity ro))
    <$> join_items db (RecyclingOutput.item_id ro).

(** ** Constants and scoring helpers *)

Definition SCRAPPY_MATERIALS : gset string :=
  list_to_set ["metal_parts"; "fabric"; "plastic_parts"; "chemicals";
               "rubber_parts"; "assorted_seeds"].

Definition rarity_table (common uncommon rare epic legendary : Q)
    (rarity : string) : option number :=
  if decide (rarity = "Common") then Some (Fin common)
  else if decide (rarity = "Uncommon") then Some (Fin uncommon)
  else if decide (rarity = "Rare") then Some (Fin rare)
  else if decide (rarity = "Epic") then Some (Fin epic)
  else if decide (rarity = "Legendary") then Some (Fin legendary)
  else None.

Definition RARITY_SALVAGE_PENALTY : string → option number :=
  rarity_table 1.0 0.9 0.8 0.7 0.6.

Definition RARITY_RECYCLE_BONUS : string → option number :=
  rarity_table 1.0 1.1 1.15 1.2 1.25.

Definition IMMEDIACY_BONUS : number := Fin 1.2.
Definition RECYCLING_THRESHOLD : number := Fin 2.0.
Definition COMPLEXITY_PENALTY : number := Fin 0.85.
Definition SLOT_EFFICIENCY_WEIGHT : number := Fin 0.3.
Definition DEFAULT_STACK_SIZE : Z := 1.

(** The names of the properties of [Object.prototype].  The two tables of
    multipliers are object literals, so [table[key]] finds these members
    too: eleven functions and, under [__proto__], the prototype itself. *)
Definition OBJECT_PROTOTYPE_KEYS : list string :=
  ["constructor"; "__defineGetter__"; "__defineSetter__"; "hasOwnProperty";
   "__lookupGetter__"; "__lookupSetter__"; "isPrototypeOf";
   "propertyIsEnumerable"; "toString"; "valueOf"; "__proto__";
   "toLocaleString"].

(** [table[rarity] || 1.0], as the factor of a product.  A multiplier of
    the table is the value when it is not [0]; a member inherited from
    [Object.prototype] is a function or an object, which is truthy, so that
    it is the value too, and as a factor it converts to NaN; any other
    [rarity] gives [undefined] and the value [1.0]. *)
Definition rarity_factor (table : string → option number) (rarity : string)
  : number :=
  match table rarity with
  | Some f => or_else f (Fin 1.0)
  | None =>
      if bool_decide (rarity ∈ OBJECT_PROTOTYPE_KEYS) then NaN else Fin 1.0
  end.

Definition multiMaterialBonus (numMaterials : Z) : number :=
  pow (Fin 1.15) (numMaterials - 1).

Definition carryWeightPenalty (weight : number) : number :=
  JsNumber.max (Fin 0.3) (one - weight / Fin 10)%js.

Definition valueBonus (value : number) : number :=
  JsNumber.min (Fin 1.3) (one + (value / Fin 5000) * Fin 0.1)%js.

(** [calculateSlotEfficiency]: the ratio of the average output stack size
    to the stack size of the source. *)
Definition calculateSlotEfficiency (item : Item)
    (outputYields : list (string * Z)) (db : Database) : number :=
  let itemStackSize := default DEFAULT_STACK_SIZE (Item.stack_size item) in
  if (length outputYields =? 0)%nat then Fin 1.0 else
  let totalQuantity := sumZ (map_values outputYields) in
  let weightedStackSum :=
    foldl (λ weightedStackSum '(materialId, quantity),
             let materialItem := query_item db materialId in
             let stackSize :=
               default DEFAULT_STACK_SIZE (materialItem ≫= Item.stack_size) in
             weightedStackSum + stackSize * quantity)
          0 outputYields in
  let avgOutputStack := (ofZ weightedStackSum / ofZ totalQuantity)%js in
  (avgOutputStack / ofZ itemStackSize)%js.

Fixpoint take_while {A : Type} (p : A → bool) (l : list A) : list A :=
  match l with
  | [] => []
  | x :: l' => if p x then x :: take_while p l' else []
  end.

Fixpoint drop_while {A : Type} (p : A → bool) (l : list A) : list A :=
  match l with
  | [] => []
  | x :: l' => if p x then drop_while p l' else l
  end.

(** *** The characters of a string *)

(** A byte [10xxxxxx] continues the character of the byte in front of it. *)
Definition is_continuation (b : ascii) : bool :=
  let n := nat_of_ascii b in ((128 <=? n) && (n <=? 191))%nat.

(** The characters of a string whose bytes are given last byte first: the
    last character comes first, and each character is the list of the
    bytes of its encoding, first byte first.  [pending] holds the
    continuation bytes read so far of the character that is being read. *)
Fixpoint rev_characters (pending rev_bytes : list ascii)
  : list (list ascii) :=
  match rev_bytes with
  | [] => match pending with [] => [] | _ :: _ => [pending] end
  | b :: rev_bytes' =>
      if is_continuation b then rev_characters (b :: pending) rev_bytes'
      else (b :: pending) :: rev_characters [] rev_bytes'
  end.

(** The characters of [s], the last one first. *)
Definition characters_rev (s : string) : list (list ascii) :=
  rev_characters [] (reverse (list_ascii_of_string s)).

(** The string of a list of characters. *)
Definition string_of_characters (chars : list (list ascii)) : string :=
  string_of_list_ascii (concat chars).

(** The character encoded by the bytes of the given values. *)
Definition character (bytes : list nat) : list ascii := ascii_of_nat <$> bytes.

(** The characters of the class [\s], which are the white space and the
    line terminators of ECMAScript: U+0009 to U+000D, U+0020, U+00A0,
    U+1680, U+2000 to U+200A, U+2028, U+2029, U+202F, U+205F, U+3000 and
    U+FEFF. *)
Definition WHITE_SPACE : list (list ascii) :=
  character
    <$> ([[9]; [10]; [11]; [12]; [13]; [32]; [194; 160]; [225; 154; 128]]
         ++ ((λ b, [226; 128; b]) <$> seq 128 11)
         ++ [[226; 128; 168]; [226; 128; 169]; [226; 128; 175];
             [226; 129; 159]; [227; 128; 128]; [239; 187; 191]])%nat.

Definition is_space (c : list ascii) : bool := bool_decide (c ∈ WHITE_SPACE).

(** [name.replace(/\s+(I|II|III|IV)$/, '')].  The expression is anchored at
    the end of the name and no numeral holds white space, so it matches
    when the characters after the last white space of the name are one of
    the four tier numerals; the match that [replace] takes, the leftmost
    one, starts at the first character of the run of white space in front
    of the numeral.  That run and the numeral are removed. *)
Definition getBaseName (name : string) : string :=
  let rev_chars := characters_rev name in
  let rev_tier := take_while (λ c, negb (is_space c)) rev_chars in
  let rev_rest := drop_while (λ c, negb (is_space c)) rev_chars in
  let tier := string_of_characters (reverse rev_tier) in
  match rev_rest with
  | [] => name
  | _ :: _ =>
      if decide (tier ∈ ["I"; "II"; "III"; "IV"])
      then string_of_characters (reverse (drop_while is_space rev_rest))
      else name
  end.

(** [shouldIncludeMaterial] *)
Definition shouldIncludeMaterial (material : Item)
    (filterOptions : MaterialFilterOptions) : bool :=
  if negb (bool_decide (Item.rarity material
                          ∈ MaterialFilterOptions.rarityFilters filterOptions))
  then false
  else if MaterialFilterOptions.hideScrappyCollected filterOptions
          && bool_decide (Item.id material ∈ SCRAPPY_MATERIALS)
  then false
  else true.

(** ** [aggregateMaterials], step by step *)

(** *** Step 1: aggregate materials from all bookmarked items *)

Module Demand.
Record t : Type := mk {
  materialQuantityMap : list (string * Z);
  materialRequiredByMap : list (string * list string);
  materialItemsMap : list (string * Item)
}.
Definition empty : t := mk [] [] [].
End Demand.
Abbreviation Demand := Demand.t.

(** [filterOptions.pausedBookmarks?.has(itemId)] *)
Definition is_paused (filterOptions : MaterialFilterOptions) (itemId : string)
  : bool :=
  match MaterialFilterOptions.pausedBookmarks filterOptions with
  | Some paused => bool_decide (itemId ∈ paused)
  | None => false
  end.

(** Store material item data if not already present. *)
Definition cache_material_item (db : Database) (ingredient_id : string)
    (materialItemsMap : list (string * Item)) : list (string * Item) :=
  if map_has ingredient_id materialItemsMap then materialItemsMap
  else match query_item db ingredient_id with
       | Some materialItem => map_set ingredient_id materialItem materialItemsMap
       | None => materialItemsMap
       end.

(** The body of [for (const recipe of recipes)]. *)
Definition demand_recipe (db : Database) (filterOptions : MaterialFilterOptions)
    (itemId : string) (st : Demand) (recipe : CraftingRecipe) : Demand :=
  let ingredient_id := CraftingRecipe.ingredient_id recipe in
  let quantity := CraftingRecipe.quantity recipe in
  let materialItemsMap :=
    cache_material_item db ingredient_id (Demand.materialItemsMap st) in
  let skip :=
    Demand.mk (Demand.materialQuantityMap st) (Demand.materialRequiredByMap st)
              materialItemsMap in
  match map_get ingredient_id materialItemsMap with
  | None => skip
  | Some materialItem =>
      if negb (shouldIncludeMaterial materialItem filterOptions) then skip
      else
        let currentQuantity :=
          get_or_zero ingredient_id (Demand.materialQuantityMap st) in
        let materialQuantityMap :=
          map_set ingredient_id (currentQuantity + quantity)
                  (Demand.materialQuantityMap st) in
        let materialRequiredByMap :=
          if map_has ingredient_id (Demand.materialRequiredByMap st)
          then Demand.materialRequiredByMap st
          else map_set ingredient_id [] (Demand.materialRequiredByMap st) in
        let materialRequiredByMap :=
          map_set ingredient_id
                  (set_add itemId
                     (default [] (map_get ingredient_id materialRequiredByMap)))
                  materialRequiredByMap in
        Demand.mk materialQuantityMap materialRequiredByMap materialItemsMap
  end.

(** The body of [for (const itemId of bookmarkedIds)]. *)
Definition demand_item (db : Database) (filterOptions : MaterialFilterOptions)
    (st : Demand) (itemId : string) : Demand :=
  if is_paused filterOptions itemId then st
  else foldl (demand_recipe db filterOptions itemId) st (query_recipes db itemId).

Definition collect_demand (db : Database) (filterOptions : MaterialFilterOptions)
    (bookmarkedIds : list string) : Demand :=
  foldl (demand_item db filterOptions) Demand.empty bookmarkedIds.

(** *** Step 2: build the material requirements array *)

Definition material_entry (st : Demand) (entry : string * Z)
  : option MaterialRequirement :=
  let '(materialId, totalQuantity) := entry in
  let item := map_get materialId (Demand.materialItemsMap st) in
  let requiredBy :=
    default [] (map_get materialId (Demand.materialRequiredByMap st)) in
  match item with
  | Some item => Some (MaterialRequirement.mk item totalQuantity requiredBy)
  | None => None
  end.

(** [(a, b) => b.totalQuantity - a.totalQuantity] is positive *)
Definition material_after (a b : MaterialRequirement) : bool :=
  0 <? MaterialRequirement.totalQuantity b - MaterialRequirement.totalQuantity a.

Definition build_materials (st : Demand) : list MaterialRequirement :=
  js_sort material_after
          (omap (material_entry st) (Demand.materialQuantityMap st)).

(** *** Step 3: find salvaging and recycling sources for the materials *)

Module SourceGroup.
Record t : Type := mk {
  items : list Item;
  salvageYieldsMap : list (string * Z);
  recycleYieldsMap : list (string * Z);
  baseName : string
}.
End SourceGroup.
Abbreviation SourceGroup := SourceGroup.t.

(** The two query loops differ in the table they read and in the yield map
    they add to. *)
Inductive YieldKind : Type :=
| Salvage
| Recycle.

Definition query_sources (kind : YieldKind) (db : Database)
    (materialId : string) (excludedIds : gset string) : list (Item * Z) :=
  match kind with
  | Salvage => query_salvage_sources db materialId excludedIds
  | Recycle => query_recycle_sources db materialId excludedIds
  end.

(** [new Set([...bookmarkedIdsArray, ...materialIds,
              ...(filterOptions.hiddenSourceItems || [])])] *)
Definition excluded_ids (bookmarkedIds materialIds : list string)
    (filterOptions : MaterialFilterOptions) : gset string :=
  list_to_set bookmarkedIds ∪ list_to_set materialIds
  ∪ default ∅ (MaterialFilterOptions.hiddenSourceItems filterOptions).

(** The body of [for (const source of sources)].  A group that is not yet
    in [groupedSources] is entered with no items and no yields, and the
    group under [baseName] is then updated in place. *)
Definition add_source (kind : YieldKind) (materialId : string)
    (groupedSources : list (string * SourceGroup)) (source : Item * Z)
  : list (string * SourceGroup) :=
  let '(item, quantity) := source in
  let baseName := getBaseName (Item.name item) in
  let group :=
    default (SourceGroup.mk [] [] [] baseName)
            (map_get baseName groupedSources) in
  let items :=
    if bool_decide (Exists (λ i, Item.id i = Item.id item)
                           (SourceGroup.items group))
    then SourceGroup.items group
    else SourceGroup.items group ++ [item] in
  let bump yields :=
    map_set materialId (get_or_zero materialId yields + quantity) yields in
  let group :=
    match kind with
    | Salvage =>
        SourceGroup.mk items (bump (SourceGroup.salvageYieldsMap group))
                       (SourceGroup.recycleYieldsMap group)
                       (SourceGroup.baseName group)
    | Recycle =>
        SourceGroup.mk items (SourceGroup.salvageYieldsMap group)
                       (bump (SourceGroup.recycleYieldsMap group))
                       (SourceGroup.baseName group)
    end in
  map_set baseName group groupedSources.

(** [for (const materialId of materialIds)] over one of the two tables. *)
Definition collect_sources (kind : YieldKind) (db : Database)
    (excludedIds : gset string) (materialIds : list string)
    (groupedSources : list (string * SourceGroup))
  : list (string * SourceGroup) :=
  foldl (λ groupedSources materialId,
           foldl (add_source kind materialId) groupedSources
                 (query_sources kind db materialId excludedIds))
        groupedSources materialIds.

(** *** Step 4: build sources with salvage and recycle scores *)

(** Average yields across all tier variants, keeping the materials that are
    in demand. *)
Definition average_yields (materialQuantityMap : list (string * Z))
    (memberCount : nat) (yieldsMap : list (string * Z)) : list (string * Z) :=
  foldl (λ avgYields '(materialId, totalYield),
           if map_has materialId materialQuantityMap
           then
             let avgYield :=
               Math_round (inject_Z totalYield
                           / inject_Z (Z.of_nat memberCount))%Q in
             map_set materialId avgYield avgYields
           else avgYields)
        [] yieldsMap.

(** The body of [for (const [materialId, yieldAmount] of avgYields.entries())]
    in the computation of a base score. *)
Definition add_weighted_yield (materialQuantityMap : list (string * Z))
    (totalDemand : Z) (baseScore : number) (entry : string * Z) : number :=
  let '(materialId, yieldAmount) := entry in
  let userNeeds := get_or_zero materialId materialQuantityMap in
  let demandWeight := (ofZ userNeeds / ofZ totalDemand)%js in
  (baseScore + ofZ yieldAmount * demandWeight)%js.

(** [salvageBaseScore] and [recycleBaseScore] *)
Definition base_score (materialQuantityMap : list (string * Z))
    (totalDemand : Z) (avgYields : list (string * Z)) : number :=
  let totalYield := sumZ (map_values avgYields) in
  if (0 <? totalDemand) && (0 <? totalYield) then
    foldl (add_weighted_yield materialQuantityMap totalDemand) zero avgYields
  else zero.

(** [totalYieldWeight] *)
Definition total_yield_weight (db : Database)
    (avgSalvageYields : list (string * Z)) : number :=
  foldl (λ totalYieldWeight '(materialId, yieldAmount),
           match query_item db materialId with
           | Some materialItem =>
               (totalYieldWeight
                + ofZ yieldAmount * Fin (Item.weight_kg materialItem))%js
           | None => totalYieldWeight
           end)
        zero avgSalvageYields.

Definition effective_weight (db : Database) (representativeItem : Item)
    (avgSalvageYields : list (string * Z)) : number :=
  let totalYieldWeight := total_yield_weight db avgSalvageYields in
  if gtb totalYieldWeight zero then totalYieldWeight
  else Fin (Item.weight_kg representativeItem).

(** [Math.max(1.0, 1 + (slotEfficiency - 1) * SLOT_EFFICIENCY_WEIGHT)] *)
Definition slot_bonus (slotEfficiency : number) : number :=
  JsNumber.max (Fin 1.0)
               (one + (slotEfficiency - one) * SLOT_EFFICIENCY_WEIGHT)%js.

Definition salvage_score (db : Database) (scoringMethod : ScoringMethod)
    (representativeItem : Item) (salvageBaseScore : number)
    (avgSalvageYields : list (string * Z)) : number :=
  let effectiveWeight := effective_weight db representativeItem avgSalvageYields in
  let weightFactor :=
    match scoringMethod with
    | weight_conscious => pow effectiveWeight 2
    | max_yield => effectiveWeight
    end in
  let salvageScore :=
    ((salvageBaseScore / weightFactor)
     * rarity_factor RARITY_SALVAGE_PENALTY (Item.rarity representativeItem)
     * IMMEDIACY_BONUS)%js in
  let slotEfficiency :=
    calculateSlotEfficiency representativeItem avgSalvageYields db in
  let slotBonus := slot_bonus slotEfficiency in
  (salvageScore * slotBonus)%js.

Definition recycle_score (db : Database) (scoringMethod : ScoringMethod)
    (representativeItem : Item) (recycleBaseScore : number)
    (avgRecycleYields : list (string * Z)) : number :=
  let weight_kg := Fin (Item.weight_kg representativeItem) in
  let size := Z.of_nat (length avgRecycleYields) in
  let recycleScore :=
    match scoringMethod with
    | max_yield =>
        ((recycleBaseScore / weight_kg)
         * rarity_factor RARITY_RECYCLE_BONUS (Item.rarity representativeItem)
         * multiMaterialBonus size
         * COMPLEXITY_PENALTY)%js
    | weight_conscious =>
        ((recycleBaseScore / pow weight_kg 2)
         * rarity_factor RARITY_RECYCLE_BONUS (Item.rarity representativeItem)
         * multiMaterialBonus size
         * carryWeightPenalty weight_kg
         * valueBonus (ofZ (Item.value representativeItem))
         * COMPLEXITY_PENALTY)%js
    end in
  let recycleSlotEfficiency :=
    calculateSlotEfficiency representativeItem avgRecycleYields db in
  let recycleSlotBonus := slot_bonus recycleSlotEfficiency in
  (recycleScore * recycleSlotBonus)%js.

(** The body of [for (const group of groupedSources.values())] after the
    test for empty yield maps.  [None] is the [TypeError] that reading a
    field of [group.items[0]] raises when the group has no item. *)
Definition score_group (db : Database) (scoringMethod : ScoringMethod)
    (materialQuantityMap : list (string * Z)) (totalDemand : Z)
    (group : SourceGroup) : option SalvagingSource :=
  match head (SourceGroup.items group) with
  | None => None
  | Some representativeItem =>
      let memberCount := length (SourceGroup.items group) in
      let avgSalvageYields :=
        average_yields materialQuantityMap memberCount
                       (SourceGroup.salvageYieldsMap group) in
      let avgRecycleYields :=
        average_yields materialQuantityMap memberCount
                       (SourceGroup.recycleYieldsMap group) in
      let salvageBaseScore :=
        base_score materialQuantityMap totalDemand avgSalvageYields in
      let salvageScore :=
        salvage_score db scoringMethod representativeItem salvageBaseScore
                      avgSalvageYields in
      let recycleBaseScore :=
        base_score materialQuantityMap totalDemand avgRecycleYields in
      let recycleScore :=
        recycle_score db scoringMethod representativeItem recycleBaseScore
                      avgRecycleYields in
      Some (SalvagingSource.mk representativeItem avgSalvageYields
                               avgRecycleYields salvageScore recycleScore
                               (SourceGroup.baseName group))
  end.

(** [group.salvageYieldsMap.size === 0 && group.recycleYieldsMap.size === 0] *)
Definition no_yield_data (group : SourceGroup) : bool :=
  (length (SourceGroup.salvageYieldsMap group) =? 0)%nat
  && (length (SourceGroup.recycleYieldsMap group) =? 0)%nat.

Definition build_sources (db : Database) (scoringMethod : ScoringMethod)
    (materialQuantityMap : list (string * Z)) (totalDemand : Z)
    (groupedSources : list (string * SourceGroup))
  : option (list SalvagingSource) :=
  mapM (score_group db scoringMethod materialQuantityMap totalDemand)
       (filter (λ group, no_yield_data group = false)
               (map_values groupedSources)).

(** *** Step 5: split sources into salvage and recycle *)

Inductive Bucket : Type :=
| SalvageBucket
| RecycleBucket.

#[global] Instance Bucket_eq_dec : EqDecision Bucket.
Proof. solve_decision. Defined.

(** The chain of tests in the body of [for (const source of allSources)];
    [None] is a source that is skipped. *)
Definition bucket_of (source : SalvagingSource) : option Bucket :=
  let salvageScore := SalvagingSource.salvageScore source in
  let recycleScore := SalvagingSource.recycleScore source in
  if eqb salvageScore zero && eqb recycleScore zero then None
  else if eqb salvageScore zero && gtb recycleScore zero
  then Some RecycleBucket
  else if eqb recycleScore zero && gtb salvageScore zero
  then Some SalvageBucket
  else
    let recyclingAdvantage := (recycleScore / salvageScore)%js in
    if gtb recyclingAdvantage RECYCLING_THRESHOLD then Some RecycleBucket
    else Some SalvageBucket.

Definition split_source
    (lists : list SalvagingSource * list SalvagingSource)
    (source : SalvagingSource)
  : list SalvagingSource * list SalvagingSource :=
  let '(salvageSources, recycleSources) := lists in
  match bucket_of source with
  | None => (salvageSources, recycleSources)
  | Some RecycleBucket => (salvageSources, recycleSources ++ [source])
  | Some SalvageBucket => (salvageSources ++ [source], recycleSources)
  end.

Definition split_sources (allSources : list SalvagingSource)
  : list SalvagingSource * list SalvagingSource :=
  foldl split_source ([], []) allSources.

(** [(a, b) => b.salvageScore - a.salvageScore] is positive; a comparator
    result of NaN counts as [0]. *)
Definition salvage_after (a b : SalvagingSource) : bool :=
  gtb (SalvagingSource.salvageScore b - SalvagingSource.salvageScore a)%js zero.

Definition recycle_after (a b : SalvagingSource) : bool :=
  gtb (SalvagingSource.recycleScore b - SalvagingSource.recycleScore a)%js zero.

(** *** Step 6: build the relationship maps *)

(** [new Map([...source.salvageYields, ...source.recycleYields])] *)
Definition all_yields (source : SalvagingSource) : list (string * Z) :=
  foldl (λ m '(materialId, quantity), map_set materialId quantity m) []
        (SalvagingSource.salvageYields source
         ++ SalvagingSource.recycleYields source).

(** The body of [for (const [materialId] of allYields)]. *)
Definition index_material (sourceId : string)
    (acc : list (string * list string) * list string) (entry : string * Z)
  : list (string * list string) * list string :=
  let '(materialToSources, materialsProvided) := acc in
  let materialId := entry.1 in
  let materialToSources :=
    if map_has materialId materialToSources then materialToSources
    else map_set materialId [] materialToSources in
  let materialToSources :=
    map_set materialId
            (set_add sourceId
                     (default [] (map_get materialId materialToSources)))
            materialToSources in
  (materialToSources, set_add materialId materialsProvided).

(** The body of [for (const source of [...salvageSources, ...recycleSources])]. *)
Definition index_source
    (maps : list (string * list string) * list (string * list string))
    (source : SalvagingSource)
  : list (string * list string) * list (string * list string) :=
  let '(materialToSources, sourceToMaterials) := maps in
  let sourceId := Item.id (SalvagingSource.item source) in
  let '(materialToSources, materialsProvided) :=
    foldl (index_material sourceId) (materialToSources, [])
          (all_yields source) in
  (materialToSources, map_set sourceId materialsProvided sourceToMaterials).

Definition build_index (sources : list SalvagingSource)
  : list (string * list string) * list (string * list string) :=
  foldl index_source ([], []) sources.

(** *** The aggregation *)

Definition default_filterOptions : MaterialFilterOptions :=
  MaterialFilterOptions.mk
    false
    (list_to_set ["Common"; "Uncommon"; "Rare"; "Epic"; "Legendary"])
    None None.

(** The scored groups, [allSources], in the order of [groupedSources]. *)
Definition all_sources (bookmarkedIds : list string) (db : Database)
    (scoringMethod : ScoringMethod) (filterOptions : MaterialFilterOptions)
  : option (list SalvagingSource) :=
  let demand := collect_demand db filterOptions bookmarkedIds in
  let materialQuantityMap := Demand.materialQuantityMap demand in
  let materialIds := map_keys materialQuantityMap in
  let excludedIds := excluded_ids bookmarkedIds materialIds filterOptions in
  let groupedSources :=
    collect_sources Recycle db excludedIds materialIds
      (collect_sources Salvage db excludedIds materialIds []) in
  let totalDemand := sumZ (map_values materialQuantityMap) in
  build_sources db scoringMethod materialQuantityMap totalDemand groupedSources.

(** [aggregateMaterials(bookmarkedIds, db, scoringMethod, filterOptions)].
    [bookmarkedIds] is the content of the [Set] in insertion order; the
    result is [None] when step 4 throws the [TypeError] of [score_group]. *)
Definition aggregateMaterials (bookmarkedIds : list string) (db : Database)
    (scoringMethod : ScoringMethod) (filterOptions : MaterialFilterOptions)
  : option AggregatedMaterialsData :=
  let demand := collect_demand db filterOptions bookmarkedIds in
  let materials := build_materials demand in
  allSources ← all_sources bookmarkedIds db scoringMethod filterOptions;
  let '(salvageSources, recycleSources) := split_sources allSources in
  let salvageSources := js_sort salvage_after salvageSources in
  let recycleSources := js_sort recycle_after recycleSources in
  let '(materialToSources, sourceToMaterials) :=
    build_index (salvageSources ++ recycleSources) in
  Some (AggregatedMaterialsData.mk materials salvageSources recycleSources
                                   materialToSources sourceToMaterials).


(** * The code around the aggregation

    The helpers of [src/lib/utils], the settings store that holds the
    bookmarks and the filters, the derived values of
    [src/lib/components/MaterialsGrid.svelte] that call [aggregateMaterials]
    and filter its result, and the hover store that reads the result.
    Persistence of the settings (localStorage, import and export of JSON)
    is not part of the embedding. *)

(** ** [src/lib/utils/array-helpers.ts] *)

Section ArrayHelpers.
Context {T : Type}.

(** [arr.findIndex(p)]; [None] is the result [-1]. *)
Fixpoint findIndex (p : T → bool) (arr : list T) : option nat :=
  match arr with
  | [] => None
  | x :: arr' => if p x then Some 0%nat else S <$> findIndex p arr'
  end.

(** [arr.filter((x, i) => p(x, i))] *)
Definition filter_indexed (p : T → nat → bool) (arr : list T) : list T :=
  snd <$> filter (λ ix, p ix.2 ix.1 = true) (imap pair arr).

(** Toggle item in array (add if missing, remove if present). *)
Definition toggleInArray (arr : list T) (item : T)
    (predicate : T → T → bool) : list T :=
  match findIndex (λ i, predicate i item) arr with
  | Some index => filter_indexed (λ _ i, negb (i =? index)%nat) arr
  | None => arr ++ [item]
  end.

(** Check if item exists in array. *)
Definition includesItem (arr : list T) (item : T)
    (predicate : T → T → bool) : bool :=
  match findIndex (λ i, predicate i item) arr with
  | Some _ => true
  | None => false
  end.

End ArrayHelpers.

(** The default predicate [(a, b) => a === b], on strings. *)
Definition strict_equal (a b : string) : bool := bool_decide (a = b).

(** ** [src/lib/utils/item-helpers.ts] *)

Definition TIER_SUFFIXES : list string :=
  ["i"; "ii"; "iii"; "iv"; "v"; "vi"; "vii"; "viii"; "ix"; "x"].

Definition is_underscore (c : list ascii) : bool :=
  bool_decide (c = character [95%nat]).

(** The characters that [.] does not match, the line terminators of
    ECMAScript: U+000A, U+000D, U+2028 and U+2029. *)
Definition LINE_TERMINATORS : list (list ascii) :=
  character <$> [[10]; [13]; [226; 128; 168]; [226; 128; 169]]%nat.

Definition is_line_terminator (c : list ascii) : bool :=
  bool_decide (c ∈ LINE_TERMINATORS).

(** [id.match(/^(.+)_(i|ii|iii|iv|v|vi|vii|viii|ix|x)$/)] followed by
    [match ? match[1] : id].  No numeral holds an underscore, so the only
    split that can match is at the last underscore of [id]: the numeral is
    what follows it, and group 1 what precedes it, which has to be a
    non-empty run of characters that [.] matches. *)
Definition stripTierSuffix (id : string) : string :=
  let rev_chars := characters_rev id in
  let rev_tier := take_while (λ c, negb (is_underscore c)) rev_chars in
  let tier := string_of_characters (reverse rev_tier) in
  match drop_while (λ c, negb (is_underscore c)) rev_chars with
  | [] => id
  | _ :: rev_base =>
      if bool_decide (tier ∈ TIER_SUFFIXES)
         && negb (length rev_base =? 0)%nat
         && forallb (λ c, negb (is_line_terminator c)) rev_base
      then string_of_characters (reverse rev_base)
      else id
  end.

(** [`${base}/images/items/${stripTierSuffix(itemId)}.png`] *)
Definition getItemImagePath (itemId : string) (base : string) : string :=
  base +:+ "/images/items/" +:+ stripTierSuffix itemId +:+ ".png".

(** ** The settings store ([src/lib/stores/settings.svelte.ts]) *)

Module BookmarksSettings.
Record t : Type := mk {
  bookmarkedItems : list string;
  pausedItems : list string
}.
End BookmarksSettings.
Abbreviation BookmarksSettings := BookmarksSettings.t.

Module GraphFilterSettings.
Record t : Type := mk {
  hiddenRarities : list string;
  hiddenTypes : list string
}.
End GraphFilterSettings.
Abbreviation GraphFilterSettings := GraphFilterSettings.t.

Module MaterialFilterSettings.
Record t : Type := mk {
  scoringMethod : ScoringMethod;
  hideScrappyCollected : bool;
  rarityFilters : list string;
  categoryFilters : list string;
  typeFilters : list string;
  maxSourceValueEnabled : bool;
  maxSourceValue : number
}.
End MaterialFilterSettings.
Abbreviation MaterialFilterSettings := MaterialFilterSettings.t.

Module SourceFilterSettings.
Record t : Type := mk {
  hiddenSourceItems : list string
}.
End SourceFilterSettings.
Abbreviation SourceFilterSettings := SourceFilterSettings.t.

Module SettingsState.
Record t : Type := mk {
  version : Z;
  bookmarks : BookmarksSettings;
  graphFilters : GraphFilterSettings;
  materialFilters : MaterialFilterSettings;
  sourceFilters : SourceFilterSettings
}.
End SettingsState.
Abbreviation SettingsState := SettingsState.t.

Definition DEFAULT_SETTINGS : SettingsState :=
  SettingsState.mk
    1
    (BookmarksSettings.mk [] [])
    (GraphFilterSettings.mk [] [])
    (MaterialFilterSettings.mk
       max_yield false
       ["Common"; "Uncommon"; "Rare"; "Epic"; "Legendary"]
       [] [] false (Fin 500))
    (SourceFilterSettings.mk []).

(** [new Set(arr)]: the elements of [arr] in the order of their first
    occurrence. *)
Definition new_Set (arr : list string) : list string :=
  foldl (λ s x, set_add x s) [] arr.

(** [arr.includes(itemId)] *)
Definition includes (arr : list string) (itemId : string) : bool :=
  bool_decide (itemId ∈ arr).

(** [arr.filter((id) => id !== itemId)] *)
Definition without (itemId : string) (arr : list string) : list string :=
  filter (λ id, id ≠ itemId) arr.

(** The methods of [SettingsStore] read and assign [this._settings]; each
    is a function of the settings. *)
Module SettingsStore.

(** [this._settings.bookmarks = bookmarks] and the like *)
Definition set_bookmarks (bookmarks : BookmarksSettings) (s : SettingsState)
  : SettingsState :=
  SettingsState.mk (SettingsState.version s) bookmarks
                   (SettingsState.graphFilters s)
                   (SettingsState.materialFilters s)
                   (SettingsState.sourceFilters s).

Definition set_materialFilters (materialFilters : MaterialFilterSettings)
    (s : SettingsState) : SettingsState :=
  SettingsState.mk (SettingsState.version s) (SettingsState.bookmarks s)
                   (SettingsState.graphFilters s) materialFilters
                   (SettingsState.sourceFilters s).

Definition set_sourceFilters (sourceFilters : SourceFilterSettings)
    (s : SettingsState) : SettingsState :=
  SettingsState.mk (SettingsState.version s) (SettingsState.bookmarks s)
                   (SettingsState.graphFilters s)
                   (SettingsState.materialFilters s) sourceFilters.

(** *** Bookmarks API *)

(** [get bookmarkedItems()] *)
Definition bookmarkedItems (s : SettingsState) : list string :=
  new_Set (BookmarksSettings.bookmarkedItems (SettingsState.bookmarks s)).

Definition isBookmarked (s : SettingsState) (itemId : string) : bool :=
  includes (BookmarksSettings.bookmarkedItems (SettingsState.bookmarks s)) itemId.

Definition toggle (itemId : string) (s : SettingsState) : SettingsState :=
  let b := SettingsState.bookmarks s in
  if isBookmarked s itemId then
    set_bookmarks
      (BookmarksSettings.mk
         (without itemId (BookmarksSettings.bookmarkedItems b))
         (without itemId (BookmarksSettings.pausedItems b)))
      s
  else
    set_bookmarks
      (BookmarksSettings.mk
         (BookmarksSettings.bookmarkedItems b ++ [itemId])
         (BookmarksSettings.pausedItems b))
      s.

Definition clear (s : SettingsState) : SettingsState :=
  set_bookmarks (BookmarksSettings.mk [] []) s.

(** [get pausedItems()]: the paused ids that are bookmarked. *)
Definition pausedItems (s : SettingsState) : list string :=
  let b := SettingsState.bookmarks s in
  let bookmarked := new_Set (BookmarksSettings.bookmarkedItems b) in
  let paused :=
    filter (λ id, id ∈ bookmarked) (BookmarksSettings.pausedItems b) in
  new_Set paused.

Definition isPaused (s : SettingsState) (itemId : string) : bool :=
  includes (BookmarksSettings.pausedItems (SettingsState.bookmarks s)) itemId.

Definition togglePause (itemId : string) (s : SettingsState) : SettingsState :=
  let b := SettingsState.bookmarks s in
  if negb (isBookmarked s itemId) then s
  else if isPaused s itemId then
    set_bookmarks
      (BookmarksSettings.mk
         (BookmarksSettings.bookmarkedItems b)
         (without itemId (BookmarksSettings.pausedItems b)))
      s
  else
    set_bookmarks
      (BookmarksSettings.mk
         (BookmarksSettings.bookmarkedItems b)
         (BookmarksSettings.pausedItems b ++ [itemId]))
      s.

Definition clearPaused (s : SettingsState) : SettingsState :=
  let b := SettingsState.bookmarks s in
  set_bookmarks
    (BookmarksSettings.mk (BookmarksSettings.bookmarkedItems b) [])
    s.

(** *** Graph filters API *)

Definition set_graphFilters (graphFilters : GraphFilterSettings)
    (s : SettingsState) : SettingsState :=
  SettingsState.mk (SettingsState.version s) (SettingsState.bookmarks s)
                   graphFilters (SettingsState.materialFilters s)
                   (SettingsState.sourceFilters s).

Definition isRarityHidden (s : SettingsState) (rarity : string) : bool :=
  includesItem (GraphFilterSettings.hiddenRarities (SettingsState.graphFilters s))
               rarity strict_equal.

Definition toggleRarity (rarity : string) (s : SettingsState) : SettingsState :=
  let gf := SettingsState.graphFilters s in
  set_graphFilters
    (GraphFilterSettings.mk
       (toggleInArray (GraphFilterSettings.hiddenRarities gf) rarity strict_equal)
       (GraphFilterSettings.hiddenTypes gf))
    s.

Definition showAllRarities (s : SettingsState) : SettingsState :=
  let gf := SettingsState.graphFilters s in
  set_graphFilters
    (GraphFilterSettings.mk [] (GraphFilterSettings.hiddenTypes gf)) s.

Definition hideAllRarities (s : SettingsState) : SettingsState :=
  let gf := SettingsState.graphFilters s in
  set_graphFilters
    (GraphFilterSettings.mk
       ["legendary"; "epic"; "rare"; "uncommon"; "common"]
       (GraphFilterSettings.hiddenTypes gf))
    s.

Definition isTypeHidden (s : SettingsState) (type : string) : bool :=
  includesItem (GraphFilterSettings.hiddenTypes (SettingsState.graphFilters s))
               type strict_equal.

Definition toggleType (type : string) (s : SettingsState) : SettingsState :=
  let gf := SettingsState.graphFilters s in
  set_graphFilters
    (GraphFilterSettings.mk
       (GraphFilterSettings.hiddenRarities gf)
       (toggleInArray (GraphFilterSettings.hiddenTypes gf) type strict_equal))
    s.

Definition showAllTypes (s : SettingsState) : SettingsState :=
  let gf := SettingsState.graphFilters s in
  set_graphFilters
    (GraphFilterSettings.mk (GraphFilterSettings.hiddenRarities gf) []) s.

Definition hideAllTypes (types : list string) (s : SettingsState)
  : SettingsState :=
  let gf := SettingsState.graphFilters s in
  set_graphFilters
    (GraphFilterSettings.mk (GraphFilterSettings.hiddenRarities gf) types) s.

(** *** Material filters API *)

Definition scoringMethod (s : SettingsState) : ScoringMethod :=
  MaterialFilterSettings.scoringMethod (SettingsState.materialFilters s).

Definition set_scoringMethod (value : ScoringMethod) (s : SettingsState)
  : SettingsState :=
  let mf := SettingsState.materialFilters s in
  set_materialFilters
    (MaterialFilterSettings.mk
       value
       (MaterialFilterSettings.hideScrappyCollected mf)
       (MaterialFilterSettings.rarityFilters mf)
       (MaterialFilterSettings.categoryFilters mf)
       (MaterialFilterSettings.typeFilters mf)
       (MaterialFilterSettings.maxSourceValueEnabled mf)
       (MaterialFilterSettings.maxSourceValue mf))
    s.

Definition hideScrappyCollected (s : SettingsState) : bool :=
  MaterialFilterSettings.hideScrappyCollected (SettingsState.materialFilters s).

Definition set_hideScrappyCollected (value : bool) (s : SettingsState)
  : SettingsState :=
  let mf := SettingsState.materialFilters s in
  set_materialFilters
    (MaterialFilterSettings.mk
       (MaterialFilterSettings.scoringMethod mf)
       value
       (MaterialFilterSettings.rarityFilters mf)
       (MaterialFilterSettings.categoryFilters mf)
       (MaterialFilterSettings.typeFilters mf)
       (MaterialFilterSettings.maxSourceValueEnabled mf)
       (MaterialFilterSettings.maxSourceValue mf))
    s.

(** [get rarityFilters()] *)
Definition rarityFilters (s : SettingsState) : list string :=
  new_Set (MaterialFilterSettings.rarityFilters (SettingsState.materialFilters s)).

(** [this._settings.materialFilters.rarityFilters = rarityFilters] *)
Definition set_rarityFilters (rarityFilters : list string)
    (s : SettingsState) : SettingsState :=
  let mf := SettingsState.materialFilters s in
  set_materialFilters
    (MaterialFilterSettings.mk
       (MaterialFilterSettings.scoringMethod mf)
       (MaterialFilterSettings.hideScrappyCollected mf)
       rarityFilters
       (MaterialFilterSettings.categoryFilters mf)
       (MaterialFilterSettings.typeFilters mf)
       (MaterialFilterSettings.maxSourceValueEnabled mf)
       (MaterialFilterSettings.maxSourceValue mf))
    s.

Definition toggleMaterialRarity (rarity : string) (s : SettingsState)
  : SettingsState :=
  set_rarityFilters
    (toggleInArray
       (MaterialFilterSettings.rarityFilters (SettingsState.materialFilters s))
       rarity strict_equal)
    s.

Definition setAllRarities (enabled : bool) (s : SettingsState) : SettingsState :=
  if enabled
  then set_rarityFilters ["Common"; "Uncommon"; "Rare"; "Epic"; "Legendary"] s
  else set_rarityFilters [] s.

(** [get categoryFilters()] *)
Definition categoryFilters (s : SettingsState) : list string :=
  new_Set (MaterialFilterSettings.categoryFilters
             (SettingsState.materialFilters s)).

(** [setCategoryFilters(categories)] *)
Definition setCategoryFilters (categories : list string) (s : SettingsState)
  : SettingsState :=
  let mf := SettingsState.materialFilters s in
  set_materialFilters
    (MaterialFilterSettings.mk
       (MaterialFilterSettings.scoringMethod mf)
       (MaterialFilterSettings.hideScrappyCollected mf)
       (MaterialFilterSettings.rarityFilters mf)
       categories
       (MaterialFilterSettings.typeFilters mf)
       (MaterialFilterSettings.maxSourceValueEnabled mf)
       (MaterialFilterSettings.maxSourceValue mf))
    s.

Definition toggleCategory (category : string) (s : SettingsState)
  : SettingsState :=
  setCategoryFilters
    (toggleInArray
       (MaterialFilterSettings.categoryFilters (SettingsState.materialFilters s))
       category strict_equal)
    s.

(** [get sourceTypeFilters()] *)
Definition sourceTypeFilters (s : SettingsState) : list string :=
  new_Set (MaterialFilterSettings.typeFilters (SettingsState.materialFilters s)).

(** [setSourceTypeFilters(types)] *)
Definition setSourceTypeFilters (types : list string) (s : SettingsState)
  : SettingsState :=
  let mf := SettingsState.materialFilters s in
  set_materialFilters
    (MaterialFilterSettings.mk
       (MaterialFilterSettings.scoringMethod mf)
       (MaterialFilterSettings.hideScrappyCollected mf)
       (MaterialFilterSettings.rarityFilters mf)
       (MaterialFilterSettings.categoryFilters mf)
       types
       (MaterialFilterSettings.maxSourceValueEnabled mf)
       (MaterialFilterSettings.maxSourceValue mf))
    s.

Definition toggleSourceType (type : string) (s : SettingsState)
  : SettingsState :=
  setSourceTypeFilters
    (toggleInArray
       (MaterialFilterSettings.typeFilters (SettingsState.materialFilters s))
       type strict_equal)
    s.

Definition maxSourceValueEnabled (s : SettingsState) : bool :=
  MaterialFilterSettings.maxSourceValueEnabled (SettingsState.materialFilters s).

Definition set_maxSourceValueEnabled (value : bool) (s : SettingsState)
  : SettingsState :=
  let mf := SettingsState.materialFilters s in
  set_materialFilters
    (MaterialFilterSettings.mk
       (MaterialFilterSettings.scoringMethod mf)
       (MaterialFilterSettings.hideScrappyCollected mf)
       (MaterialFilterSettings.rarityFilters mf)
       (MaterialFilterSettings.categoryFilters mf)
       (MaterialFilterSettings.typeFilters mf)
       value
       (MaterialFilterSettings.maxSourceValue mf))
    s.

Definition maxSourceValue (s : SettingsState) : number :=
  MaterialFilterSettings.maxSourceValue (SettingsState.materialFilters s).

Definition set_maxSourceValue (value : number) (s : SettingsState)
  : SettingsState :=
  let mf := SettingsState.materialFilters s in
  set_materialFilters
    (MaterialFilterSettings.mk
       (MaterialFilterSettings.scoringMethod mf)
       (MaterialFilterSettings.hideScrappyCollected mf)
       (MaterialFilterSettings.rarityFilters mf)
       (MaterialFilterSettings.categoryFilters mf)
       (MaterialFilterSettings.typeFilters mf)
       (MaterialFilterSettings.maxSourceValueEnabled mf)
       value)
    s.

(** Reset all material filters to defaults. *)
Definition resetAll (s : SettingsState) : SettingsState :=
  set_materialFilters (SettingsState.materialFilters DEFAULT_SETTINGS) s.

(** *** Source filters API *)

(** [get hiddenSourceItems()] *)
Definition hiddenSourceItems (s : SettingsState) : list string :=
  new_Set (SourceFilterSettings.hiddenSourceItems (SettingsState.sourceFilters s)).

Definition isSourceHidden (s : SettingsState) (itemId : string) : bool :=
  includes (SourceFilterSettings.hiddenSourceItems (SettingsState.sourceFilters s))
           itemId.

Definition toggleSourceHidden (itemId : string) (s : SettingsState)
  : SettingsState :=
  let hidden :=
    SourceFilterSettings.hiddenSourceItems (SettingsState.sourceFilters s) in
  if isSourceHidden s itemId
  then set_sourceFilters (SourceFilterSettings.mk (without itemId hidden)) s
  else set_sourceFilters (SourceFilterSettings.mk (hidden ++ [itemId])) s.

Definition clearHiddenSources (s : SettingsState) : SettingsState :=
  set_sourceFilters (SourceFilterSettings.mk []) s.

(** Reset all settings to defaults. *)
Definition resetAllSettings (s : SettingsState) : SettingsState :=
  DEFAULT_SETTINGS.

End SettingsStore.

(** A call of one of the methods of the store that assign the settings
    (all of them but [importSettings] and the loading from localStorage),
    and a sequence of calls applied to the settings. *)
Inductive SettingsCall : Type :=
| call_toggle (itemId : string)
| call_clear
| call_togglePause (itemId : string)
| call_clearPaused
| call_toggleRarity (rarity : string)
| call_showAllRarities
| call_hideAllRarities
| call_toggleType (type : string)
| call_showAllTypes
| call_hideAllTypes (types : list string)
| call_set_scoringMethod (value : ScoringMethod)
| call_set_hideScrappyCollected (value : bool)
| call_toggleMaterialRarity (rarity : string)
| call_setAllRarities (enabled : bool)
| call_toggleCategory (category : string)
| call_setCategoryFilters (categories : list string)
| call_toggleSourceType (type : string)
| call_setSourceTypeFilters (types : list string)
| call_set_maxSourceValueEnabled (value : bool)
| call_set_maxSourceValue (value : number)
| call_resetAll
| call_toggleSourceHidden (itemId : string)
| call_clearHiddenSources
| call_resetAllSettings.

Definition settings_call (s : SettingsState) (call : SettingsCall)
  : SettingsState :=
  match call with
  | call_toggle itemId => SettingsStore.toggle itemId s
  | call_clear => SettingsStore.clear s
  | call_togglePause itemId => SettingsStore.togglePause itemId s
  | call_clearPaused => SettingsStore.clearPaused s
  | call_toggleRarity rarity => SettingsStore.toggleRarity rarity s
  | call_showAllRarities => SettingsStore.showAllRarities s
  | call_hideAllRarities => SettingsStore.hideAllRarities s
  | call_toggleType type => SettingsStore.toggleType type s
  | call_showAllTypes => SettingsStore.showAllTypes s
  | call_hideAllTypes types => SettingsStore.hideAllTypes types s
  | call_set_scoringMethod value => SettingsStore.set_scoringMethod value s
  | call_set_hideScrappyCollected value => SettingsStore.set_hideScrappyCollected value s
  | call_toggleMaterialRarity rarity => SettingsStore.toggleMaterialRarity rarity s
  | call_setAllRarities enabled => SettingsStore.setAllRarities enabled s
  | call_toggleCategory category => SettingsStore.toggleCategory category s
  | call_setCategoryFilters categories => SettingsStore.setCategoryFilters categories s
  | call_toggleSourceType type => SettingsStore.toggleSourceType type s
  | call_setSourceTypeFilters types => SettingsStore.setSourceTypeFilters types s
  | call_set_maxSourceValueEnabled value => SettingsStore.set_maxSourceValueEnabled value s
  | call_set_maxSourceValue value => SettingsStore.set_maxSourceValue value s
  | call_resetAll => SettingsStore.resetAll s
  | call_toggleSourceHidden itemId => SettingsStore.toggleSourceHidden itemId s
  | call_clearHiddenSources => SettingsStore.clearHiddenSources s
  | call_resetAllSettings => SettingsStore.resetAllSettings s
  end.

Definition settings_calls (s : SettingsState) (calls : list SettingsCall)
  : SettingsState :=
  foldl settings_call s calls.

(** ** The materials grid ([src/lib/components/MaterialsGrid.svelte]) *)

Inductive DatabaseStatus : Type :=
| status_loading
| status_ready
| status_error.

Module ItemCategory.
Record t : Type := mk {
  id : string;
  display_name : string
}.
End ItemCategory.
Abbreviation ItemCategory := ItemCategory.t.

Module ItemCategoryLink.
Record t : Type := mk {
  item_id : string;
  category_id : string
}.
End ItemCategoryLink.
Abbreviation ItemCategoryLink := ItemCategoryLink.t.

(** The two category tables of the store. *)
Module CategoryTables.
Record t : Type := mk {
  item_categories : list ItemCategory;
  item_category_links : list ItemCategoryLink
}.
End CategoryTables.
Abbreviation CategoryTables := CategoryTables.t.

(** [SELECT ic.display_name
     FROM item_category_links icl
     JOIN item_categories ic ON icl.category_id = ic.id
     WHERE icl.item_id = ?], mapped to the [display_name] of each row. *)
Definition query_categories (tables : CategoryTables) (itemId : string)
  : list string :=
  icl ← filter (λ icl, ItemCategoryLink.item_id icl = itemId)
               (CategoryTables.item_category_links tables);
  ItemCategory.display_name
    <$> filter (λ ic, ItemCategory.id ic = ItemCategoryLink.category_id icl)
               (CategoryTables.item_categories tables).

(** [x <= y] on numbers *)
Definition number_leb (x y : number) : bool := ltb x y || eqb x y.

Module MaterialsGrid.

(** The filter options that the grid passes to [aggregateMaterials]. *)
Definition filterOptions (settings : SettingsState) : MaterialFilterOptions :=
  MaterialFilterOptions.mk
    (SettingsStore.hideScrappyCollected settings)
    (list_to_set (SettingsStore.rarityFilters settings))
    (Some (list_to_set (SettingsStore.hiddenSourceItems settings)))
    (Some (list_to_set (SettingsStore.pausedItems settings))).

(** [aggregatedData]: [Some None] is the value [null], [None] is a call of
    [aggregateMaterials] that throws. *)
Definition aggregatedData (status : DatabaseStatus) (db : Database)
    (settings : SettingsState) : option (option AggregatedMaterialsData) :=
  match status with
  | status_ready =>
      let bookmarkedIds := SettingsStore.bookmarkedItems settings in
      if (length bookmarkedIds =? 0)%nat then Some None
      else
        let method := SettingsStore.scoringMethod settings in
        Some <$> aggregateMaterials bookmarkedIds db method
                                    (filterOptions settings)
  | _ => Some None
  end.

(** [getItemCategories(itemId)] on the cache [itemCategoriesCache]: the
    categories, or [None] for the error of a cache miss, and the cache after
    the call. *)
Definition getItemCategories (tables : CategoryTables) (itemId : string)
    (itemCategoriesCache : list (string * list string))
  : option (list string) * list (string * list string) :=
  let itemCategoriesCache :=
    if negb (map_has itemId itemCategoriesCache)
    then map_set itemId (query_categories tables itemId) itemCategoriesCache
    else itemCategoriesCache in
  (map_get itemId itemCategoriesCache, itemCategoriesCache).

(** The chain of filters is written twice in the source, once over
    [salvageSources] and once over [recycleSources]; [sources] selects the
    list. *)
Section Filters.
Context (sources : AggregatedMaterialsData → list SalvagingSource)
        (settings : SettingsState).

(** Filter by rarity (source items themselves). *)
Definition rarityFilteredSources
    (aggregatedData : option AggregatedMaterialsData) : list SalvagingSource :=
  match aggregatedData with
  | None => []
  | Some aggregatedData =>
      filter (λ source, Item.rarity (SalvagingSource.item source)
                        ∈ SettingsStore.rarityFilters settings)
             (sources aggregatedData)
  end.

(** Filter by type (source items themselves). *)
Definition typeFilteredSources
    (aggregatedData : option AggregatedMaterialsData) : list SalvagingSource :=
  if (length (SettingsStore.sourceTypeFilters settings) =? 0)%nat
  then rarityFilteredSources aggregatedData
  else
    filter (λ source,
              Item.type (SalvagingSource.item source) ≠ ""
              ∧ Item.type (SalvagingSource.item source)
                ∈ SettingsStore.sourceTypeFilters settings)
           (rarityFilteredSources aggregatedData).

(** The body of the callback of the category filter, on the sources kept so
    far and the cache. *)
Definition category_filter_step (tables : CategoryTables)
    (acc : option (list SalvagingSource * list (string * list string)))
    (source : SalvagingSource)
  : option (list SalvagingSource * list (string * list string)) :=
  '(kept, itemCategoriesCache) ← acc;
  let '(categories, itemCategoriesCache) :=
    getItemCategories tables (Item.id (SalvagingSource.item source))
                      itemCategoriesCache in
  categories ← categories;
  if existsb (λ cat, bool_decide (cat ∈ SettingsStore.categoryFilters settings))
             categories
  then Some (kept ++ [source], itemCategoriesCache)
  else Some (kept, itemCategoriesCache).

(** Filter by categories: the sources kept and the cache after the calls,
    [None] when a call of [getItemCategories] throws. *)
Definition categoryFilteredSources (tables : CategoryTables)
    (itemCategoriesCache : list (string * list string))
    (aggregatedData : option AggregatedMaterialsData)
  : option (list SalvagingSource * list (string * list string)) :=
  if (length (SettingsStore.categoryFilters settings) =? 0)%nat
  then Some (typeFilteredSources aggregatedData, itemCategoriesCache)
  else foldl (category_filter_step tables) (Some ([], itemCategoriesCache))
             (typeFilteredSources aggregatedData).

(** Filter source items based on value threshold (only if enabled). *)
Definition valueFilteredSources (tables : CategoryTables)
    (itemCategoriesCache : list (string * list string))
    (aggregatedData : option AggregatedMaterialsData)
  : option (list SalvagingSource * list (string * list string)) :=
  '(categoryFiltered, itemCategoriesCache) ←
    categoryFilteredSources tables itemCategoriesCache aggregatedData;
  if negb (SettingsStore.maxSourceValueEnabled settings)
  then Some (categoryFiltered, itemCategoriesCache)
  else Some (filter (λ s, number_leb (ofZ (Item.value (SalvagingSource.item s)))
                                     (SettingsStore.maxSourceValue settings)
                          = true)
                    categoryFiltered,
             itemCategoriesCache).

End Filters.

Definition filteredSalvageSources :=
  valueFilteredSources AggregatedMaterialsData.salvageSources.

Definition filteredRecycleSources :=
  valueFilteredSources AggregatedMaterialsData.recycleSources.

(** [aggregatedData?.materials ?? []] *)
Definition filteredMaterials (aggregatedData : option AggregatedMaterialsData)
  : list MaterialRequirement :=
  match aggregatedData with
  | Some aggregatedData => AggregatedMaterialsData.materials aggregatedData
  | None => []
  end.

End MaterialsGrid.

(** ** The hover store ([src/lib/stores/hover.svelte.ts]) *)

Inductive HoveredSourceType : Type :=
| hover_salvage
| hover_recycle.

Module HoverStore.

Record t : Type := mk {
  hoveredBookmarkId : option string;
  hoveredMaterialId : option string;
  hoveredSourceId : option string;
  hoveredSourceType : option HoveredSourceType
}.

Definition initial : t := mk None None None None.

(** An id in a condition: [null] and the empty string are falsy. *)
Definition truthy (id : option string) : option string :=
  match id with
  | Some id => if decide (id = "") then None else Some id
  | None => None
  end.

Definition hasAnyHover (h : t) : bool :=
  bool_decide (hoveredBookmarkId h ≠ None)
  || bool_decide (hoveredMaterialId h ≠ None)
  || bool_decide (hoveredSourceId h ≠ None).

(** [ids.forEach((id) => set.add(id))] *)
Definition add_all (ids : list string) (set : list string) : list string :=
  foldl (λ set id, set_add id set) set ids.

(** [sourceList.find((s) => s.item.id === sourceId)] *)
Definition find_source (sourceId : string) (sourceList : list SalvagingSource)
  : option SalvagingSource :=
  List.find (λ s, bool_decide (Item.id (SalvagingSource.item s) = sourceId))
            sourceList.

(** Derived: the materials to highlight, in the order of insertion into
    the [Set]. *)
Definition highlightedMaterials (h : t) (status : DatabaseStatus)
    (db : Database) (aggregatedData : option AggregatedMaterialsData)
  : list string :=
  let set := [] in
  let set :=
    match truthy (hoveredBookmarkId h), status with
    | Some bookmarkId, status_ready =>
        add_all (CraftingRecipe.ingredient_id <$> query_recipes db bookmarkId)
                set
    | _, _ => set
    end in
  let set :=
    match truthy (hoveredMaterialId h) with
    | Some materialId => set_add materialId set
    | None => set
    end in
  let set :=
    match truthy (hoveredSourceId h), hoveredSourceType h, aggregatedData with
    | Some sourceId, Some type, Some aggregatedData =>
        let sourceList :=
          match type with
          | hover_salvage => AggregatedMaterialsData.salvageSources aggregatedData
          | hover_recycle => AggregatedMaterialsData.recycleSources aggregatedData
          end in
        match find_source sourceId sourceList with
        | Some source =>
            let yields :=
              match type with
              | hover_salvage => SalvagingSource.salvageYields source
              | hover_recycle => SalvagingSource.recycleYields source
              end in
            add_all (map_keys yields) set
        | None => set
        end
    | _, _, _ => set
    end in
  set.

(** Derived: the sources to highlight. *)
Definition highlightedSources (h : t) (status : DatabaseStatus)
    (db : Database) (aggregatedData : option AggregatedMaterialsData)
  : list string :=
  let set := [] in
  let set :=
    match truthy (hoveredBookmarkId h), status, aggregatedData with
    | Some bookmarkId, status_ready, Some aggregatedData =>
        foldl (λ set recipe,
                 match map_get (CraftingRecipe.ingredient_id recipe)
                         (AggregatedMaterialsData.materialToSources
                            aggregatedData) with
                 | Some sourceIds => add_all sourceIds set
                 | None => set
                 end)
              set (query_recipes db bookmarkId)
    | _, _, _ => set
    end in
  let set :=
    match truthy (hoveredMaterialId h), aggregatedData with
    | Some materialId, Some aggregatedData =>
        match map_get materialId
                (AggregatedMaterialsData.materialToSources aggregatedData) with
        | Some sourceIds => add_all sourceIds set
        | None => set
        end
    | _, _ => set
    end in
  let set :=
    match truthy (hoveredSourceId h) with
    | Some sourceId => set_add sourceId set
    | None => set
    end in
  set.

(** Derived: the bookmarks to highlight. *)
Definition highlightedBookmarks (h : t)
    (aggregatedData : option AggregatedMaterialsData) : list string :=
  let set := [] in
  let set :=
    match truthy (hoveredMaterialId h), aggregatedData with
    | Some materialId, Some aggregatedData =>
        match List.find
                (λ m, bool_decide (Item.id (MaterialRequirement.item m)
                                   = materialId))
                (AggregatedMaterialsData.materials aggregatedData) with
        | Some material => add_all (MaterialRequirement.requiredBy material) set
        | None => set
        end
    | _, _ => set
    end in
  let set :=
    match truthy (hoveredBookmarkId h) with
    | Some bookmarkId => set_add bookmarkId set
    | None => set
    end in
  set.

(** The public API: only one hover type can be active at a time. *)
Definition setHoveredBookmark (itemId : option string) (h : t) : t :=
  mk itemId None None None.

Definition setHoveredMaterial (materialId : option string) (h : t) : t :=
  mk None materialId None None.

Definition setHoveredSource (sourceId : option string)
    (type : HoveredSourceType) (h : t) : t :=
  mk None None sourceId
     (match truthy sourceId with Some _ => Some type | None => None end).

Definition clearAll (h : t) : t := mk None None None None.

End HoverStore.
(** * Vocabulary of the properties *)

(** An ingredient counts when the store has its item row and the row
    passes the rarity and scrappy filters. *)
Definition ingredient_passes (db : Database)
    (filterOptions : MaterialFilterOptions) (recipe : CraftingRecipe) : bool :=
  match query_item db (CraftingRecipe.ingredient_id recipe) with
  | Some materialItem => shouldIncludeMaterial materialItem filterOptions
  | None => false
  end.

(** The recipe rows that the demand counts: rows of a bookmarked item that
    is not paused, whose ingredient passes the filters. *)
Definition counted_edge (db : Database) (filterOptions : MaterialFilterOptions)
    (bookmarkedIds : list string) (recipe : CraftingRecipe) : Prop :=
  CraftingRecipe.item_id recipe ∈ bookmarkedIds
  ∧ is_paused filterOptions (CraftingRecipe.item_id recipe) = false
  ∧ ingredient_passes db filterOptions recipe = true.

#[global] Instance counted_edge_dec db filterOptions bookmarkedIds recipe :
  Decision (counted_edge db filterOptions bookmarkedIds recipe).
Proof. unfold counted_edge. apply _. Defined.

(** The invariant of the three maps: the cache holds rows of the store
    under their own ids, and every demanded material is cached. *)
Record demand_inv (db : Database) (st : Demand) : Prop := {
  inv_cache : ∀ k item,
    map_get k (Demand.materialItemsMap st) = Some item →
    query_item db k = Some item;
  inv_cached : ∀ k,
    k ∈ map_keys (Demand.materialQuantityMap st) →
    is_Some (map_get k (Demand.materialItemsMap st));
  inv_keys : NoDup (map_keys (Demand.materialQuantityMap st))
}.

(** What holds of the group stored under [key] in [groupedSources]: it
    carries its key, has a member, and its members are rows of the store
    with that base name whose ids are not excluded. *)
Record group_inv (db : Database) (excludedIds : gset string) (key : string)
    (group : SourceGroup) : Prop := {
  grp_name : SourceGroup.baseName group = key;
  grp_nonempty : SourceGroup.items group ≠ [];
  grp_items : ∀ item,
    item ∈ SourceGroup.items group →
    item ∈ Database.items db
    ∧ getBaseName (Item.name item) = key
    ∧ Item.id item ∉ excludedIds
}.

Definition groups_inv (db : Database) (excludedIds : gset string)
    (groupedSources : list (string * SourceGroup)) : Prop :=
  NoDup (map_keys groupedSources)
  ∧ Forall (λ entry, group_inv db excludedIds entry.1 entry.2) groupedSources.

(** [m.get(k)] read as a list: no entry is the empty list. *)
Definition map_list (k : string) (m : list (string * list string))
  : list string :=
  default [] (map_get k m).

(** The ids of the materials a source yields, salvaged or recycled. *)
Definition yield_ids (source : SalvagingSource) : list string :=
  map_keys (all_yields source).

(** [materialsProvided] at the end of the inner loop of step 6. *)
Definition materials_provided (source : SalvagingSource) : list string :=
  foldl (λ provided entry, set_add entry.1 provided) [] (all_yields source).

(** The id under which a source is indexed. *)
Definition source_id (source : SalvagingSource) : string :=
  Item.id (SalvagingSource.item source).

(** A number that is not negative: NaN and +Infinity are not. *)
Definition not_negative (x : number) : Prop :=
  match x with
  | Fin q => (0 <= q)%Q
  | PInf | NaN => True
  | NInf => False
  end.

(** A store without negative quantities, weights or values. *)
Record store_not_negative (db : Database) : Prop := {
  nn_items : ∀ item, item ∈ Database.items db →
    (0 <= Item.weight_kg item)%Q ∧ 0 <= Item.value item;
  nn_recipes : ∀ r, r ∈ Database.crafting_recipes db →
    0 <= CraftingRecipe.quantity r;
  nn_salvaging : ∀ so, so ∈ Database.salvaging_outputs db →
    0 <= SalvagingOutput.quantity so;
  nn_recycling : ∀ ro, ro ∈ Database.recycling_outputs db →
    0 <= RecyclingOutput.quantity ro
}.

(** A group without negative yield totals. *)
Definition yields_not_negative (group : SourceGroup) : Prop :=
  (∀ m t, (m, t) ∈ SourceGroup.salvageYieldsMap group → 0 <= t)
  ∧ (∀ m t, (m, t) ∈ SourceGroup.recycleYieldsMap group → 0 <= t).

(** ** Example stores and inputs *)

(** An item row with the columns the aggregation reads. *)
Definition example_item (id name rarity : string) (value : Z) (weight_kg : Q)
    (stack_size : option Z) : Item :=
  Item.mk id name "" "Misc" rarity value weight_kg stack_size None 0 0 0 None
          "item.png" "2025-01-01".

(** Three tiers of one source.  Only the first tier is salvaged into
    fabric, one unit of it; the other two are recycled into fabric. *)
Definition tier_store : Database :=
  Database.mk
    [ example_item "bandage" "Bandage" "Common" 100 0.2 (Some 5);
      example_item "fabric" "Fabric" "Common" 10 0.1 (Some 50);
      example_item "anvil_i" "Anvil I" "Uncommon" 1000 2 None;
      example_item "anvil_ii" "Anvil II" "Uncommon" 1000 2 None;
      example_item "anvil_iii" "Anvil III" "Uncommon" 1000 2 None ]
    [ CraftingRecipe.mk "bandage" "fabric" 5 ]
    [ SalvagingOutput.mk "anvil_i" "fabric" 1 ]
    [ RecyclingOutput.mk "anvil_ii" "fabric" 4;
      RecyclingOutput.mk "anvil_iii" "fabric" 4 ].

(** Three tiers of one source, each salvaged into two metal parts, the
    first also into one unit of fabric. *)
Definition zero_yield_store : Database :=
  Database.mk
    [ example_item "bandage" "Bandage" "Common" 100 0.2 (Some 5);
      example_item "fabric" "Fabric" "Common" 10 0.1 (Some 50);
      example_item "metal_parts" "Metal Parts" "Common" 10 0.2 (Some 50);
      example_item "anvil_i" "Anvil I" "Uncommon" 1000 2 None;
      example_item "anvil_ii" "Anvil II" "Uncommon" 1000 2 None;
      example_item "anvil_iii" "Anvil III" "Uncommon" 1000 2 None ]
    [ CraftingRecipe.mk "bandage" "fabric" 5;
      CraftingRecipe.mk "bandage" "metal_parts" 2 ]
    [ SalvagingOutput.mk "anvil_i" "fabric" 1;
      SalvagingOutput.mk "anvil_i" "metal_parts" 2;
      SalvagingOutput.mk "anvil_ii" "metal_parts" 2;
      SalvagingOutput.mk "anvil_iii" "metal_parts" 2 ]
    [].

(** A source of weight 2 kg that is salvaged into one wire of 0.25 kg. *)
Definition light_yield_store : Database :=
  Database.mk
    [ example_item "radio" "Radio" "Rare" 500 1 (Some 1);
      example_item "wire" "Wire" "Common" 20 0.25 (Some 10);
      example_item "toolbox" "Toolbox" "Common" 300 2 (Some 1) ]
    [ CraftingRecipe.mk "radio" "wire" 3 ]
    [ SalvagingOutput.mk "toolbox" "wire" 1 ]
    [].

(** A recipe row of the bandage whose ingredient has no item row. *)
Definition ghost_edge : CraftingRecipe := CraftingRecipe.mk "bandage" "ghost" 3.

(** A group of one item, salvaged into eight wires of 0.25 kg each. *)
Definition toolbox_group : SourceGroup :=
  SourceGroup.mk
    [ example_item "toolbox" "Toolbox" "Common" 300 2 (Some 1) ]
    [ ("wire", 8) ] [] "Toolbox".

(** The default filters with the bandage paused. *)
Definition paused_filterOptions : MaterialFilterOptions :=
  MaterialFilterOptions.mk
    false
    (list_to_set ["Common"; "Uncommon"; "Rare"; "Epic"; "Legendary"])
    None (Some {["bandage"]}).


(** ** Vocabulary of the properties of the code around the aggregation *)

(** A string of white space only. *)
Definition all_spaces (s : string) : Prop :=
  Forall (λ c, is_space c = true) (characters_rev s).

(** A string whose last character is white space. *)
Definition ends_in_space (s : string) : Prop :=
  ∃ c, head (characters_rev s) = Some c ∧ is_space c = true.

(** A string without line terminators. *)
Definition one_line (s : string) : Prop :=
  Forall (λ c, is_line_terminator c = false) (characters_rev s).

(** A string that begins with the first byte of a character. *)
Definition starts_character (s : string) : Prop :=
  ∃ b rest, list_ascii_of_string s = b :: rest ∧ is_continuation b = false.

(** The group of the three anvils of [tier_store]. *)
Definition anvil_group : SourceGroup :=
  SourceGroup.mk
    [ example_item "anvil_i" "Anvil I" "Uncommon" 1000 2 None;
      example_item "anvil_ii" "Anvil II" "Uncommon" 1000 2 None;
      example_item "anvil_iii" "Anvil III" "Uncommon" 1000 2 None ]
    [ ("fabric", 1) ] [ ("fabric", 8) ] "Anvil".

(** A space followed by a no-break space (U+00A0). *)
Definition two_spaces : string :=
  string_of_characters [character [32%nat]; character [194; 160]%nat].

(** What the calls of the settings store keep true of the settings: the
    arrays that are read as sets hold no id twice, and every paused id is
    bookmarked. *)
Record settings_inv (s : SettingsState) : Prop := {
  settings_bookmarked :
    NoDup (BookmarksSettings.bookmarkedItems (SettingsState.bookmarks s));
  settings_paused :
    NoDup (BookmarksSettings.pausedItems (SettingsState.bookmarks s));
  settings_paused_bookmarked : ∀ id,
    id ∈ BookmarksSettings.pausedItems (SettingsState.bookmarks s) →
    id ∈ BookmarksSettings.bookmarkedItems (SettingsState.bookmarks s);
  settings_hiddenRarities :
    NoDup (GraphFilterSettings.hiddenRarities (SettingsState.graphFilters s));
  settings_rarityFilters :
    NoDup (MaterialFilterSettings.rarityFilters
             (SettingsState.materialFilters s));
  settings_hiddenSourceItems :
    NoDup (SourceFilterSettings.hiddenSourceItems
             (SettingsState.sourceFilters s))
}.

(** The recipe rows that the grid has [aggregateMaterials] count: rows of
    a bookmarked item that is not paused, whose ingredient has an item row
    of a selected rarity that is not hidden as collected by Scrappy. *)
Definition grid_counted_edge (db : Database) (settings : SettingsState)
    (recipe : CraftingRecipe) : Prop :=
  let bookmarks := SettingsState.bookmarks settings in
  let materialFilters := SettingsState.materialFilters settings in
  CraftingRecipe.item_id recipe ∈ BookmarksSettings.bookmarkedItems bookmarks
  ∧ (CraftingRecipe.item_id recipe ∉ BookmarksSettings.pausedItems bookmarks)
  ∧ match query_item db (CraftingRecipe.ingredient_id recipe) with
    | Some materialItem =>
        Item.rarity materialItem
        ∈ MaterialFilterSettings.rarityFilters materialFilters
        ∧ (MaterialFilterSettings.hideScrappyCollected materialFilters = true →
           Item.id materialItem ∉ SCRAPPY_MATERIALS)
    | None => False
    end.

#[global] Instance grid_counted_edge_dec db settings recipe :
  Decision (grid_counted_edge db settings recipe).
Proof.
  unfold grid_counted_edge. cbv zeta.
  destruct (query_item db (CraftingRecipe.ingredient_id recipe)); apply _.
Defined.

(** A cache of [getItemCategories] that holds what the query returns. *)
Definition cache_sound (tables : CategoryTables)
    (itemCategoriesCache : list (string * list string)) : Prop :=
  ∀ itemId categories,
    map_get itemId itemCategoriesCache = Some categories →
    categories = query_categories tables itemId.

(** A source that the grid shows under the settings: its rarity is
    selected; its type is selected, when a type is; one of its categories
    is selected, when a category is; and its value is at most the
    threshold, when the threshold is enabled. *)
Definition source_shown (settings : SettingsState) (tables : CategoryTables)
    (source : SalvagingSource) : Prop :=
  let item := SalvagingSource.item source in
  let materialFilters := SettingsState.materialFilters settings in
  Item.rarity item ∈ MaterialFilterSettings.rarityFilters materialFilters
  ∧ (MaterialFilterSettings.typeFilters materialFilters = []
     ∨ (Item.type item ≠ ""
        ∧ Item.type item ∈ MaterialFilterSettings.typeFilters materialFilters))
  ∧ (MaterialFilterSettings.categoryFilters materialFilters = []
     ∨ Exists (λ cat, cat ∈ MaterialFilterSettings.categoryFilters
                              materialFilters)
              (query_categories tables (Item.id item)))
  ∧ (MaterialFilterSettings.maxSourceValueEnabled materialFilters = false
     ∨ number_leb (ofZ (Item.value item))
                  (MaterialFilterSettings.maxSourceValue materialFilters)
       = true).

#[global] Instance source_shown_dec settings tables source :
  Decision (source_shown settings tables source).
Proof. unfold source_shown. apply _. Defined.

#[global] Instance YieldKind_eq_dec : EqDecision YieldKind.
Proof. solve_decision. Defined.

(** The rows of the table of a kind, as item id, output id and quantity. *)
Definition output_rows (kind : YieldKind) (db : Database)
  : list (string * string * Z) :=
  match kind with
  | Salvage =>
      (λ so, (SalvagingOutput.item_id so, SalvagingOutput.output_id so,
              SalvagingOutput.quantity so))
        <$> Database.salvaging_outputs db
  | Recycle =>
      (λ ro, (RecyclingOutput.item_id ro, RecyclingOutput.output_id ro,
              RecyclingOutput.quantity ro))
        <$> Database.recycling_outputs db
  end.

(** The yields of a source, of a kind. *)
Definition source_yields (kind : YieldKind) (source : SalvagingSource)
  : list (string * Z) :=
  match kind with
  | Salvage => SalvagingSource.salvageYields source
  | Recycle => SalvagingSource.recycleYields source
  end.

(** The base name of the item row of an id. *)
Definition base_name_of (db : Database) (itemId : string) : option string :=
  (λ item, getBaseName (Item.name item)) <$> query_item db itemId.

(** The rows of a table that say what the items of one base name yield of
    one material, the excluded items left out. *)
Definition family_rows (kind : YieldKind) (db : Database)
    (excludedIds : gset string) (baseName materialId : string)
  : list (string * string * Z) :=
  filter (λ row, row.1.2 = materialId
                 ∧ (row.1.1 ∉ excludedIds)
                 ∧ base_name_of db row.1.1 = Some baseName)
         (output_rows kind db).

(** An item that a row of one of the two tables names as the origin of one
    of the materials. *)
Definition yields_material (db : Database) (materialIds : list string)
    (item : Item) : Prop :=
  Exists (λ row, row.1.1 = Item.id item ∧ row.1.2 ∈ materialIds)
         (output_rows Salvage db ++ output_rows Recycle db).

(** The members of the group of a base name: the item rows of that base
    name that are not excluded and yield one of the materials. *)
Definition family_members (db : Database) (excludedIds : gset string)
    (materialIds : list string) (baseName : string) : list Item :=
  filter (λ item, getBaseName (Item.name item) = baseName
                  ∧ (Item.id item ∉ excludedIds)
                  ∧ yields_material db materialIds item)
         (Database.items db).

(** *** The rows that the two query loops of step 3 go through *)

(** The row of a query as the loop body sees it: the table it is from,
    the material that was asked for, the joined item and the quantity. *)
Definition add_row (gs : list (string * SourceGroup))
    (row : YieldKind * string * Item * Z) : list (string * SourceGroup) :=
  let '(kind, materialId, item, quantity) := row in
  add_source kind materialId gs (item, quantity).

Definition query_rows (kind : YieldKind) (db : Database)
    (excludedIds : gset string) (materialIds : list string)
  : list (YieldKind * string * Item * Z) :=
  materialId ← materialIds;
  (λ source : Item * Z, (kind, materialId, source.1, source.2))
    <$> query_sources kind db materialId excludedIds.

Definition group_yields (kind : YieldKind) (group : SourceGroup)
  : list (string * Z) :=
  match kind with
  | Salvage => SourceGroup.salvageYieldsMap group
  | Recycle => SourceGroup.recycleYieldsMap group
  end.

(** The group of a base name, the empty group when there is none yet. *)
Definition group_of (gs : list (string * SourceGroup)) (baseName : string)
  : SourceGroup :=
  default (SourceGroup.mk [] [] [] baseName) (map_get baseName gs).

Definition row_base (row : YieldKind * string * Item * Z) : string :=
  getBaseName (Item.name row.1.2).

(** What a row adds to the yield of a material in the group of a base
    name. *)
Definition row_yield (kind : YieldKind) (baseName materialId : string)
    (row : YieldKind * string * Item * Z) : Z :=
  if decide (row.1.1.1 = kind ∧ row_base row = baseName
             ∧ row.1.1.2 = materialId)
  then row.2 else 0.


(** The data of the grid has no source of the id: the derivation did not
    throw, and the id is not that of a source of the two lists, if there
    are lists. *)
Definition no_source (data : option (option AggregatedMaterialsData))
    (itemId : string) : Prop :=
  match data with
  | Some (Some result) =>
      itemId ∉ source_id <$> (AggregatedMaterialsData.salvageSources result
                              ++ AggregatedMaterialsData.recycleSources result)
  | Some None => True
  | None => False
  end.

(** The materials that the grid shows, [None] when the derivation throws. *)
Definition grid_materials (status : DatabaseStatus) (db : Database)
    (settings : SettingsState) : option (list MaterialRequirement) :=
  MaterialsGrid.filteredMaterials
    <$> MaterialsGrid.aggregatedData status db settings.

(** A score that is [0] or NaN. *)
Definition null_score (x : number) : Prop :=
  x = NaN ∨ ∃ q, x = Fin q ∧ (q == 0)%Q.

(** ** Example inputs for the code around the aggregation *)

(** The first tier of the Anvil as a source that is salvaged into fabric. *)
Definition anvil_source : SalvagingSource :=
  SalvagingSource.mk
    (example_item "anvil_i" "Anvil I" "Uncommon" 1000 2 None)
    [("fabric", 1)] [] (Fin 1) zero "Anvil".

(** Settings in which only uncommon sources of a value of at most 500 are
    shown. *)
Definition uncommon_settings : SettingsState :=
  SettingsState.mk
    1
    (BookmarksSettings.mk ["bandage"] [])
    (GraphFilterSettings.mk [] [])
    (MaterialFilterSettings.mk max_yield false ["Uncommon"] [] [] true
                               (Fin 500))
    (SourceFilterSettings.mk []).
(** * Properties *)

(** ** Maps, sets, sums and sorting *)

Section JsMapFacts.
Context {V : Type}.
Implicit Types (k : string) (v : V) (m : list (string * V)).

Lemma map_get_set_eq k v m : map_get k (map_set k v m) = Some v.
Proof.
  induction m as [|[k' v'] m IH]; simpl.
  - by rewrite decide_True.
  - destruct (decide (k = k')) as [->|Hne]; simpl.
    + by rewrite decide_True.
    + by rewrite decide_False.
Qed.

Lemma map_get_set_ne k k' v m :
  k ≠ k' → map_get k' (map_set k v m) = map_get k' m.
Proof.
  intros Hne. induction m as [|[k0 v0] m IH]; simpl.
  - by rewrite decide_False.
  - destruct (decide (k = k0)) as [->|Hne0]; simpl.
    + by rewrite !decide_False.
    + by rewrite IH.
Qed.

Lemma map_get_Some_elem k v m : map_get k m = Some v → (k, v) ∈ m.
Proof.
  induction m as [|[k' v'] m IH]; simpl; [done|].
  destruct (decide (k = k')) as [->|Hne].
  - intros [= ->]. left.
  - intros H. right. by apply IH.
Qed.

Lemma map_get_None_keys k m : map_get k m = None ↔ k ∉ map_keys m.
Proof.
  unfold map_keys. induction m as [|[k' v'] m IH]; simpl.
  - split; [intros _; apply not_elem_of_nil | done].
  - rewrite not_elem_of_cons. destruct (decide (k = k')) as [->|Hne].
    + split; [done | by intros [? _]].
    + rewrite IH. tauto.
Qed.

Lemma map_has_true k m : map_has k m = true ↔ k ∈ map_keys m.
Proof.
  unfold map_has. destruct (map_get k m) eqn:E.
  - split; [intros _ | done].
    destruct (decide (k ∈ map_keys m)) as [|Hn]; [done|].
    apply map_get_None_keys in Hn. congruence.
  - split; [done|]. intros Hin. by apply map_get_None_keys in E.
Qed.

Lemma map_has_false k m : map_has k m = false ↔ k ∉ map_keys m.
Proof.
  rewrite <- map_has_true. destruct (map_has k m); split; congruence.
Qed.

Lemma elem_of_map_get k v m :
  NoDup (map_keys m) → (k, v) ∈ m → map_get k m = Some v.
Proof.
  unfold map_keys. induction m as [|[k' v'] m IH]; simpl.
  - intros _ H. by apply elem_of_nil in H.
  - rewrite NoDup_cons. intros [Hk Hnd]. rewrite elem_of_cons.
    intros [[= -> ->]|Hin].
    + by rewrite decide_True.
    + destruct (decide (k = k')) as [->|Hne]; [|by apply IH].
      exfalso. apply Hk. apply list_elem_of_fmap. by exists (k', v).
Qed.

Lemma map_keys_set k v m :
  map_keys (map_set k v m)
  = if map_has k m then map_keys m else map_keys m ++ [k].
Proof.
  unfold map_keys, map_has. induction m as [|[k' v'] m IH]; [done|].
  cbn [map_set map_get]. destruct (decide (k = k')) as [->|Hne]; [done|].
  rewrite !fmap_cons, IH. by destruct (map_get k m).
Qed.

Lemma map_keys_set_elem k k' v m :
  k' ∈ map_keys (map_set k v m) ↔ k' = k ∨ k' ∈ map_keys m.
Proof.
  rewrite map_keys_set. destruct (map_has k m) eqn:E.
  - apply map_has_true in E. split; [by right | by intros [->|]].
  - rewrite elem_of_app, list_elem_of_singleton. tauto.
Qed.

Lemma map_keys_set_NoDup k v m :
  NoDup (map_keys m) → NoDup (map_keys (map_set k v m)).
Proof.
  intros Hnd. rewrite map_keys_set. destruct (map_has k m) eqn:E; [done|].
  apply map_has_false in E. apply NoDup_app. split; [done|]. split.
  - intros x Hx Hk. apply list_elem_of_singleton in Hk. by subst.
  - apply NoDup_singleton.
Qed.

Lemma elem_of_map_set k k' v v' m :
  (k', v') ∈ map_set k v m → (k' = k ∧ v' = v) ∨ (k', v') ∈ m.
Proof.
  induction m as [|[k0 v0] m IH]; simpl.
  - intros H. apply list_elem_of_singleton in H. left. by inversion H.
  - destruct (decide (k = k0)) as [->|Hne]; rewrite !elem_of_cons.
    + intros [[= -> ->]|H]; [by left | by right; right].
    + intros [H|H]; [by right; left |].
      destruct (IH H) as [?|?]; [by left | by right; right].
Qed.

Lemma map_values_set_elem k v v' m :
  v' ∈ map_values (map_set k v m) → v' = v ∨ v' ∈ map_values m.
Proof.
  unfold map_values. intros H. apply list_elem_of_fmap in H as [[k0 v0] [-> H]].
  apply elem_of_map_set in H as [[_ ->]|H]; [by left|].
  right. apply list_elem_of_fmap. by exists (k0, v0).
Qed.

End JsMapFacts.

Lemma sumZ_acc (a : Z) (l : list Z) : foldl Z.add a l = a + sumZ l.
Proof.
  unfold sumZ. revert a. induction l as [|x l IH]; intros a; simpl; [lia|].
  rewrite (IH (a + x)), (IH (0 + x)). lia.
Qed.

Lemma sumZ_cons (x : Z) (l : list Z) : sumZ (x :: l) = x + sumZ l.
Proof. unfold sumZ at 1. simpl. rewrite sumZ_acc. lia. Qed.

Lemma sumZ_app (l1 l2 : list Z) : sumZ (l1 ++ l2) = sumZ l1 + sumZ l2.
Proof.
  induction l1 as [|x l1 IH]; simpl; [done|]. rewrite !sumZ_cons, IH. lia.
Qed.

Lemma sumZ_perm (l1 l2 : list Z) : l1 ≡ₚ l2 → sumZ l1 = sumZ l2.
Proof.
  induction 1 as [|x l1 l2 _ IH|x y l|l1 l2 l3 _ IH1 _ IH2];
    rewrite ?sumZ_cons; [done|lia|lia|congruence].
Qed.

#[global] Instance sumZ_proper : Proper ((≡ₚ) ==> (=)) sumZ.
Proof. intros l1 l2. apply sumZ_perm. Qed.

(** Adding [q] to the entry of [k] adds [q] to the sum of the map. *)
Lemma sumZ_map_set_add (k : string) (q : Z) (m : list (string * Z)) :
  sumZ (map_values (map_set k (get_or_zero k m + q) m))
  = sumZ (map_values m) + q.
Proof.
  unfold map_values, get_or_zero.
  induction m as [|[k' v'] m IH]; csimpl.
  - rewrite sumZ_cons. unfold sumZ. simpl. lia.
  - destruct (decide (k = k')) as [->|Hne]; csimpl; rewrite !sumZ_cons.
    + destruct (v' =? 0) eqn:E; [apply Z.eqb_eq in E|]; lia.
    + rewrite IH. lia.
Qed.

Section JsSortFacts.
Context {A : Type} (after : A → A → bool).

Lemma sort_insert_perm (x : A) (l : list A) : sort_insert after x l ≡ₚ x :: l.
Proof.
  induction l as [|y l IH]; simpl; [done|].
  destruct (after x y); [|done]. rewrite IH. apply Permutation_swap.
Qed.

Lemma js_sort_perm (l : list A) : js_sort after l ≡ₚ l.
Proof.
  induction l as [|x l IH]; simpl; [done|].
  by rewrite sort_insert_perm, IH.
Qed.

Lemma elem_of_js_sort (x : A) (l : list A) : x ∈ js_sort after l ↔ x ∈ l.
Proof. by rewrite js_sort_perm. Qed.

End JsSortFacts.

(** ** Step 1: the demand maps *)

Lemma demand_inv_empty (db : Database) : demand_inv db Demand.empty.
Proof.
  split; simpl; [done| |constructor].
  intros k Hk. by apply elem_of_nil in Hk.
Qed.

Lemma query_item_id (db : Database) (k : string) (item : Item) :
  query_item db k = Some item → Item.id item = k ∧ item ∈ Database.items db.
Proof.
  unfold query_item. intros H. apply head_Some_elem_of in H.
  by apply list_elem_of_filter in H.
Qed.

Section Cache.
Context (db : Database) (k : string) (cache : list (string * Item)).
Hypothesis Hcache : ∀ k' item, map_get k' cache = Some item → query_item db k' = Some item.

Lemma cache_material_item_get :
  map_get k (cache_material_item db k cache) = query_item db k.
Proof using Hcache.
  unfold cache_material_item, map_has.
  destruct (map_get k cache) as [item|] eqn:E.
  - rewrite E. symmetry. by apply Hcache.
  - destruct (query_item db k) as [item|]; [apply map_get_set_eq | done].
Qed.

Lemma cache_material_item_sound k' item :
  map_get k' (cache_material_item db k cache) = Some item →
  query_item db k' = Some item.
Proof using Hcache.
  destruct (decide (k = k')) as [<-|Hne].
  - by rewrite cache_material_item_get.
  - unfold cache_material_item. destruct (map_has k cache); [apply Hcache|].
    destruct (query_item db k); [|apply Hcache].
    rewrite map_get_set_ne by done. apply Hcache.
Qed.

Lemma cache_material_item_mono k' :
  is_Some (map_get k' cache) →
  is_Some (map_get k' (cache_material_item db k cache)).
Proof.
  unfold cache_material_item. destruct (map_has k cache) eqn:E; [done|].
  destruct (query_item db k); [|done].
  destruct (decide (k = k')) as [<-|Hne].
  - rewrite map_get_set_eq. eauto.
  - by rewrite map_get_set_ne.
Qed.

End Cache.

Section DemandRecipe.
Context (db : Database) (filterOptions : MaterialFilterOptions).

Lemma demand_recipe_inv itemId st recipe :
  demand_inv db st → demand_inv db (demand_recipe db filterOptions itemId st recipe).
Proof.
  intros [Hc Hd Hk]. unfold demand_recipe.
  set (k := CraftingRecipe.ingredient_id recipe).
  set (cache := cache_material_item db k (Demand.materialItemsMap st)).
  assert (Hskip : demand_inv db
            (Demand.mk (Demand.materialQuantityMap st)
                       (Demand.materialRequiredByMap st) cache)).
  { split; simpl; [|by intros; apply cache_material_item_mono, Hd|done].
    intros ??. by apply cache_material_item_sound. }
  destruct (map_get k cache) as [item|] eqn:E; [|done].
  destruct (shouldIncludeMaterial item filterOptions); simpl; [|done].
  split; simpl.
  - intros ??. by apply cache_material_item_sound.
  - intros k' Hk'. apply map_keys_set_elem in Hk' as [->|Hk'].
    + rewrite E. eauto.
    + by apply cache_material_item_mono, Hd.
  - by apply map_keys_set_NoDup.
Qed.

Lemma demand_recipe_sum itemId st recipe :
  demand_inv db st →
  sumZ (map_values (Demand.materialQuantityMap
                      (demand_recipe db filterOptions itemId st recipe)))
  = sumZ (map_values (Demand.materialQuantityMap st))
    + (if ingredient_passes db filterOptions recipe
       then CraftingRecipe.quantity recipe else 0).
Proof.
  intros [Hc _ _]. unfold demand_recipe, ingredient_passes.
  rewrite (cache_material_item_get db _ _ Hc).
  destruct (query_item db (CraftingRecipe.ingredient_id recipe)) as [item|];
    simpl; [|lia].
  destruct (shouldIncludeMaterial item filterOptions); simpl; [|lia].
  apply sumZ_map_set_add.
Qed.

Lemma demand_recipes_inv itemId recipes st :
  demand_inv db st →
  demand_inv db (foldl (demand_recipe db filterOptions itemId) st recipes).
Proof.
  revert st. induction recipes as [|r rs IH]; intros st Hst; simpl; [done|].
  by apply IH, demand_recipe_inv.
Qed.

Lemma demand_item_inv st itemId :
  demand_inv db st → demand_inv db (demand_item db filterOptions st itemId).
Proof.
  intros Hst. unfold demand_item. destruct (is_paused filterOptions itemId);
    [done | by apply demand_recipes_inv].
Qed.

Lemma collect_demand_from_inv bookmarkedIds st :
  demand_inv db st →
  demand_inv db (foldl (demand_item db filterOptions) st bookmarkedIds).
Proof.
  revert st. induction bookmarkedIds as [|b bs IH]; intros st Hst; simpl;
    [done | by apply IH, demand_item_inv].
Qed.

Lemma collect_demand_inv bookmarkedIds :
  demand_inv db (collect_demand db filterOptions bookmarkedIds).
Proof. apply collect_demand_from_inv, demand_inv_empty. Qed.

End DemandRecipe.

(** ** Step 2: the material requirements *)

Section Materials.
Context (db : Database) (st : Demand) (Hst : demand_inv db st).

Lemma material_entries_spec (l : list (string * Z)) :
  (∀ k, k ∈ map_keys l → k ∈ map_keys (Demand.materialQuantityMap st)) →
  MaterialRequirement.totalQuantity <$> omap (material_entry st) l = map_values l
  ∧ (Item.id ∘ MaterialRequirement.item) <$> omap (material_entry st) l
    = map_keys l.
Proof using Hst.
  unfold map_values, map_keys.
  induction l as [|[k v] l IH]; intros Hl; [done|].
  destruct (inv_cached _ _ Hst k) as [item Hitem].
  { apply Hl. csimpl. left. }
  destruct IH as [IH1 IH2].
  { intros k' Hk'. apply Hl. csimpl. by right. }
  csimpl. rewrite Hitem. csimpl. rewrite IH1, IH2.
  apply (inv_cache _ _ Hst), query_item_id in Hitem as [-> _]. done.
Qed.

Lemma build_materials_quantities :
  sumZ (MaterialRequirement.totalQuantity <$> build_materials st)
  = sumZ (map_values (Demand.materialQuantityMap st)).
Proof using Hst.
  unfold build_materials. rewrite js_sort_perm.
  by rewrite (proj1 (material_entries_spec _ (λ _ H, H))).
Qed.

Lemma build_materials_ids (k : string) :
  k ∈ (Item.id ∘ MaterialRequirement.item) <$> build_materials st
  ↔ k ∈ map_keys (Demand.materialQuantityMap st).
Proof using Hst.
  unfold build_materials. rewrite js_sort_perm.
  by rewrite (proj2 (material_entries_spec _ (λ _ H, H))).
Qed.

End Materials.

(** ** Counting the recipe rows once *)

(** A measure of the demand maps that every accepted recipe row raises by
    the weight of the row, and that no other row changes, ends as the sum
    of the weights of the counted rows of the table. *)
Section Counting.
Context (db : Database) (filterOptions : MaterialFilterOptions)
        (measure : Demand → Z) (weight : CraftingRecipe → Z).
Hypothesis measure_step : ∀ itemId st recipe,
  demand_inv db st →
  measure (demand_recipe db filterOptions itemId st recipe)
  = measure st
    + (if ingredient_passes db filterOptions recipe then weight recipe else 0).

Lemma demand_recipes_measure itemId recipes st :
  demand_inv db st →
  measure (foldl (demand_recipe db filterOptions itemId) st recipes)
  = measure st
    + sumZ (weight <$> filter (λ r, ingredient_passes db filterOptions r = true)
                              recipes).
Proof using measure_step.
  revert st. induction recipes as [|r rs IH]; intros st Hst; simpl.
  - unfold sumZ. simpl. lia.
  - rewrite IH by by apply demand_recipe_inv.
    rewrite measure_step by done. rewrite filter_cons.
    destruct (decide (ingredient_passes db filterOptions r = true)) as [->|Hn].
    + csimpl. rewrite sumZ_cons. lia.
    + apply not_true_is_false in Hn. rewrite Hn. lia.
Qed.

Lemma collect_demand_from_measure bookmarkedIds st :
  demand_inv db st →
  measure (foldl (demand_item db filterOptions) st bookmarkedIds)
  = measure st
    + sumZ ((λ itemId,
               if is_paused filterOptions itemId then 0
               else sumZ (weight
                            <$> filter (λ r, ingredient_passes db filterOptions r
                                             = true)
                                       (query_recipes db itemId)))
            <$> bookmarkedIds).
Proof using measure_step.
  revert st. induction bookmarkedIds as [|b bs IH]; intros st Hst; csimpl.
  - unfold sumZ. simpl. lia.
  - rewrite IH by by apply demand_item_inv. rewrite sumZ_cons.
    unfold demand_item. destruct (is_paused filterOptions b); [lia|].
    rewrite demand_recipes_measure by done. lia.
Qed.

Lemma counted_rows_cons (b : string) (bs : list string)
    (rows : list CraftingRecipe) :
  b ∉ bs →
  sumZ (weight <$> filter (counted_edge db filterOptions (b :: bs)) rows)
  = (if is_paused filterOptions b then 0
     else sumZ (weight
                  <$> filter (λ r, ingredient_passes db filterOptions r = true)
                             (filter (λ r, CraftingRecipe.item_id r = b) rows)))
    + sumZ (weight <$> filter (counted_edge db filterOptions bs) rows).
Proof.
  intros Hb.
  assert (Hiff : ∀ r, CraftingRecipe.item_id r ≠ b →
            counted_edge db filterOptions (b :: bs) r
            ↔ counted_edge db filterOptions bs r).
  { intros r Hr. unfold counted_edge. rewrite elem_of_cons. tauto. }
  assert (Hnot : ∀ r, CraftingRecipe.item_id r = b →
            ¬ counted_edge db filterOptions bs r).
  { intros r Hr [Hin _]. by rewrite Hr in Hin. }
  assert (Hhere : ∀ r, CraftingRecipe.item_id r = b →
            counted_edge db filterOptions (b :: bs) r
            ↔ is_paused filterOptions b = false
              ∧ ingredient_passes db filterOptions r = true).
  { intros r Hr. unfold counted_edge. rewrite Hr. split.
    - by intros (_ & ? & ?).
    - intros [? ?]. split_and!; [left|done|done]. }
  induction rows as [|r rows IH].
  - destruct (is_paused filterOptions b); done.
  - destruct (decide (CraftingRecipe.item_id r = b)) as [Hr|Hr].
    + rewrite (filter_cons_False (counted_edge db filterOptions bs))
        by by apply Hnot.
      rewrite (filter_cons_True (λ r, CraftingRecipe.item_id r = b)) by done.
      destruct (decide (counted_edge db filterOptions (b :: bs) r)) as [Hc|Hc].
      * rewrite (filter_cons_True _ _ _ Hc). apply Hhere in Hc as [Hp Ha]; [|done].
        rewrite Hp in *. rewrite filter_cons_True by done.
        csimpl. rewrite !sumZ_cons, IH. lia.
      * rewrite (filter_cons_False _ _ _ Hc), IH.
        destruct (is_paused filterOptions b) eqn:Hp; [done|].
        rewrite filter_cons_False; [done|]. intros Ha. apply Hc, Hhere; done.
    + rewrite (filter_cons_False (λ r, CraftingRecipe.item_id r = b)) by done.
      destruct (decide (counted_edge db filterOptions bs r)) as [Hc|Hc].
      * rewrite !filter_cons_True by (done || by apply Hiff).
        csimpl. rewrite !sumZ_cons, IH. lia.
      * rewrite !filter_cons_False by (done || by rewrite Hiff). apply IH.
Qed.

Lemma counted_rows_sum (bookmarkedIds : list string) :
  NoDup bookmarkedIds →
  sumZ ((λ itemId,
           if is_paused filterOptions itemId then 0
           else sumZ (weight
                        <$> filter (λ r, ingredient_passes db filterOptions r = true)
                                   (query_recipes db itemId)))
        <$> bookmarkedIds)
  = sumZ (weight <$> filter (counted_edge db filterOptions bookmarkedIds)
                            (Database.crafting_recipes db)).
Proof.
  induction 1 as [|b bs Hb _ IH]; csimpl.
  - induction (Database.crafting_recipes db) as [|r rows IHr]; [done|].
    rewrite filter_cons, decide_False; [done|].
    unfold counted_edge. rewrite elem_of_nil. tauto.
  - rewrite sumZ_cons, IH, counted_rows_cons by done. done.
Qed.

Lemma collect_demand_measure (bookmarkedIds : list string) :
  NoDup bookmarkedIds →
  measure (collect_demand db filterOptions bookmarkedIds)
  = measure Demand.empty
    + sumZ (weight <$> filter (counted_edge db filterOptions bookmarkedIds)
                              (Database.crafting_recipes db)).
Proof using measure_step.
  intros Hnd. unfold collect_demand.
  rewrite collect_demand_from_measure by apply demand_inv_empty.
  by rewrite counted_rows_sum.
Qed.

End Counting.

(** ** Step 3: the groups of sources *)

Lemma Forall_map_set {V : Type} (P : string * V → Prop) (k : string) (v : V)
    (m : list (string * V)) :
  Forall P m → P (k, v) → Forall P (map_set k v m).
Proof.
  intros Hm Hkv. induction Hm as [|[k' v'] m Hx Hm IH]; simpl.
  - by constructor.
  - destruct (decide (k = k')); constructor; done.
Qed.

Lemma join_items_spec (db : Database) (item_id : string) (item : Item) :
  item ∈ join_items db item_id
  ↔ Item.id item = item_id ∧ item ∈ Database.items db.
Proof. unfold join_items. by rewrite list_elem_of_filter. Qed.

Lemma query_sources_spec (kind : YieldKind) (db : Database)
    (materialId : string) (excludedIds : gset string) (item : Item) (q : Z) :
  (item, q) ∈ query_sources kind db materialId excludedIds →
  item ∈ Database.items db ∧ Item.id item ∉ excludedIds.
Proof.
  destruct kind; simpl;
    unfold query_salvage_sources, query_recycle_sources;
    rewrite list_elem_of_bind; intros (row & Hrow & Hin);
    apply list_elem_of_fmap in Hrow as (i & [= -> ->] & Hi);
    apply join_items_spec in Hi as [Hid Hi];
    apply list_elem_of_filter in Hin as [[_ Hex] _];
    rewrite Hid; done.
Qed.

Section Groups.
Context (db : Database) (excludedIds : gset string).

Lemma groups_inv_nil : groups_inv db excludedIds [].
Proof. split; constructor. Qed.

Lemma groups_inv_get gs key group :
  groups_inv db excludedIds gs →
  map_get key gs = Some group → group_inv db excludedIds key group.
Proof.
  intros [_ Hall] Hget. apply map_get_Some_elem in Hget.
  rewrite Forall_forall in Hall. apply (Hall _ Hget).
Qed.

Lemma add_source_inv kind materialId gs item q :
  groups_inv db excludedIds gs →
  item ∈ Database.items db → Item.id item ∉ excludedIds →
  groups_inv db excludedIds (add_source kind materialId gs (item, q)).
Proof.
  intros Hgs Hitem Hex. unfold add_source.
  set (key := getBaseName (Item.name item)).
  set (group := default (SourceGroup.mk [] [] [] key) (map_get key gs)).
  assert (Hname : SourceGroup.baseName group = key).
  { subst group. destruct (map_get key gs) as [g|] eqn:E; [|done].
    apply (grp_name _ _ _ _ (groups_inv_get _ _ _ Hgs E)). }
  assert (Hold : ∀ i, i ∈ SourceGroup.items group →
            i ∈ Database.items db ∧ getBaseName (Item.name i) = key
            ∧ Item.id i ∉ excludedIds).
  { subst group. destruct (map_get key gs) as [g|] eqn:E; simpl.
    - apply (grp_items _ _ _ _ (groups_inv_get _ _ _ Hgs E)).
    - intros i Hi. by apply elem_of_nil in Hi. }
  set (items := if bool_decide _ then _ else _).
  assert (Hitems : items ≠ [] ∧ ∀ i, i ∈ items →
            i ∈ Database.items db ∧ getBaseName (Item.name i) = key
            ∧ Item.id i ∉ excludedIds).
  { subst items. case_bool_decide as Hsome.
    - split; [|done]. intros Hnil. rewrite Hnil in Hsome.
      by apply Exists_nil in Hsome.
    - split; [by destruct (SourceGroup.items group)|].
      intros i Hi. apply elem_of_app in Hi as [Hi|Hi]; [by apply Hold|].
      apply list_elem_of_singleton in Hi as ->. done. }
  destruct Hitems as [Hne Hall]. destruct Hgs as [Hnd Hfa]. split.
  - by apply map_keys_set_NoDup.
  - apply Forall_map_set; [done|]. destruct kind; split; done.
Qed.

Lemma add_sources_inv kind materialId sources gs :
  groups_inv db excludedIds gs →
  (∀ item q, (item, q) ∈ sources →
     item ∈ Database.items db ∧ Item.id item ∉ excludedIds) →
  groups_inv db excludedIds (foldl (add_source kind materialId) gs sources).
Proof.
  revert gs. induction sources as [|[item q] sources IH]; intros gs Hgs Hs;
    simpl; [done|].
  destruct (Hs item q) as [Hi Hex]; [left|].
  apply IH; [by apply add_source_inv|].
  intros i q' Hin. apply (Hs i q'). by right.
Qed.

Lemma collect_sources_inv kind materialIds gs :
  groups_inv db excludedIds gs →
  groups_inv db excludedIds
    (collect_sources kind db excludedIds materialIds gs).
Proof.
  unfold collect_sources. revert gs.
  induction materialIds as [|m ms IH]; intros gs Hgs; simpl; [done|].
  apply IH, add_sources_inv; [done|]. intros item q. apply query_sources_spec.
Qed.

End Groups.

(** ** Step 4: the scored sources *)

Lemma score_group_Some db scoringMethod qmap totalDemand group source :
  score_group db scoringMethod qmap totalDemand group = Some source →
  head (SourceGroup.items group) = Some (SalvagingSource.item source)
  ∧ SalvagingSource.baseName source = SourceGroup.baseName group.
Proof.
  unfold score_group. destruct (head (SourceGroup.items group)); [|done].
  by intros [= <-].
Qed.

Lemma build_sources_total db scoringMethod qmap totalDemand excludedIds gs :
  groups_inv db excludedIds gs →
  is_Some (build_sources db scoringMethod qmap totalDemand gs).
Proof.
  intros [_ Hall]. unfold build_sources. apply mapM_is_Some.
  apply Forall_forall. intros group Hg.
  apply list_elem_of_filter in Hg as [_ Hg].
  apply list_elem_of_fmap in Hg as ([key g] & -> & Hg).
  rewrite Forall_forall in Hall. specialize (Hall _ Hg).
  unfold score_group. simpl.
  destruct (SourceGroup.items g) eqn:E; [|done].
  by destruct (grp_nonempty _ _ _ _ Hall).
Qed.

Lemma NoDup_fmap_transfer {A B C : Type} (f : A → B) (g : A → C) (l : list A) :
  NoDup (g <$> l) →
  (∀ x y, x ∈ l → y ∈ l → f x = f y → g x = g y) →
  NoDup (f <$> l).
Proof.
  induction l as [|x l IH]; csimpl; [constructor|].
  rewrite !NoDup_cons. intros [Hx Hnd] Hfg. split.
  - intros Hin. apply list_elem_of_fmap in Hin as (y & Hxy & Hy).
    apply Hx. apply list_elem_of_fmap. exists y. split; [|done].
    apply Hfg; [left|by right|done].
  - apply IH; [done|]. intros ?? ??. apply Hfg; by right.
Qed.

Lemma build_sources_spec db scoringMethod qmap totalDemand excludedIds gs sources :
  groups_inv db excludedIds gs →
  build_sources db scoringMethod qmap totalDemand gs = Some sources →
  NoDup (SalvagingSource.baseName <$> sources)
  ∧ ∀ source, source ∈ sources →
      SalvagingSource.item source ∈ Database.items db
      ∧ getBaseName (Item.name (SalvagingSource.item source))
        = SalvagingSource.baseName source
      ∧ Item.id (SalvagingSource.item source) ∉ excludedIds.
Proof.
  intros [Hnd Hall] Hb. unfold build_sources in Hb. apply mapM_Some in Hb.
  set (groups := filter _ _) in Hb.
  assert (Hgroups : ∀ g, g ∈ groups →
            group_inv db excludedIds (SourceGroup.baseName g) g).
  { intros g Hg. apply list_elem_of_filter in Hg as [_ Hg].
    apply list_elem_of_fmap in Hg as ([key g'] & -> & Hg).
    rewrite Forall_forall in Hall. specialize (Hall _ Hg). simpl in *.
    by rewrite (grp_name _ _ _ _ Hall). }
  assert (Hnames : SalvagingSource.baseName <$> sources
                   = SourceGroup.baseName <$> groups).
  { clear Hgroups. induction Hb as [|g s gs' ss Hgs _ IH]; csimpl; [done|].
    apply score_group_Some in Hgs as [_ ->]. by rewrite IH. }
  split.
  - rewrite Hnames. subst groups.
    assert (Hkeys : SourceGroup.baseName <$> map_values gs = map_keys gs).
    { unfold map_values, map_keys. clear Hb Hnames Hnd Hgroups.
      induction Hall as [|[k g] l Hg _ IH]; csimpl; [done|].
      simpl in Hg. by rewrite IH, (grp_name _ _ _ _ Hg). }
    rewrite <- Hkeys in Hnd. revert Hnd. generalize (map_values gs).
    intros l. induction l as [|g l IH]; csimpl; [done|].
    rewrite NoDup_cons. intros [Hg Hl].
    rewrite filter_cons. destruct (decide _); csimpl; [|by apply IH].
    rewrite NoDup_cons. split; [|by apply IH].
    intros Hin. apply Hg. apply list_elem_of_fmap in Hin as (g' & -> & Hg').
    apply list_elem_of_fmap. exists g'. split; [done|].
    by apply list_elem_of_filter in Hg' as [_ ?].
  - intros source Hs.
    assert (∃ g, g ∈ groups
                 ∧ score_group db scoringMethod qmap totalDemand g = Some source)
      as (g & Hg & Hsc).
    { clear Hgroups Hnames. induction Hb as [|g s gs' ss Hgs _ IH].
      - by apply elem_of_nil in Hs.
      - apply elem_of_cons in Hs as [->|Hs].
        + exists g. split; [left|done].
        + destruct (IH Hs) as (g' & Hg' & Hsc). exists g'. split; [by right|done]. }
    apply score_group_Some in Hsc as [Hhd ->].
    apply head_Some_elem_of in Hhd.
    apply (grp_items _ _ _ _ (Hgroups g Hg)), Hhd.
Qed.

(** ** The aggregation as a whole *)

Section Aggregate.
Context (bookmarkedIds : list string) (db : Database)
        (scoringMethod : ScoringMethod) (filterOptions : MaterialFilterOptions).

Let demand := collect_demand db filterOptions bookmarkedIds.
Let excludedIds :=
  excluded_ids bookmarkedIds (map_keys (Demand.materialQuantityMap demand))
               filterOptions.

Lemma all_sources_total :
  is_Some (all_sources bookmarkedIds db scoringMethod filterOptions).
Proof.
  unfold all_sources. eapply build_sources_total.
  apply collect_sources_inv, collect_sources_inv, groups_inv_nil.
Qed.

Lemma all_sources_spec allSources :
  all_sources bookmarkedIds db scoringMethod filterOptions = Some allSources →
  NoDup (SalvagingSource.baseName <$> allSources)
  ∧ ∀ source, source ∈ allSources →
      SalvagingSource.item source ∈ Database.items db
      ∧ getBaseName (Item.name (SalvagingSource.item source))
        = SalvagingSource.baseName source
      ∧ Item.id (SalvagingSource.item source) ∉ excludedIds.
Proof.
  unfold all_sources. apply build_sources_spec.
  apply collect_sources_inv, collect_sources_inv, groups_inv_nil.
Qed.

(** The result, field by field. *)
Lemma aggregateMaterials_unfold result :
  aggregateMaterials bookmarkedIds db scoringMethod filterOptions = Some result
  ↔ ∃ allSources,
      all_sources bookmarkedIds db scoringMethod filterOptions = Some allSources
      ∧ let salvageSources :=
          js_sort salvage_after (split_sources allSources).1 in
        let recycleSources :=
          js_sort recycle_after (split_sources allSources).2 in
        result
        = AggregatedMaterialsData.mk
            (build_materials demand) salvageSources recycleSources
            (build_index (salvageSources ++ recycleSources)).1
            (build_index (salvageSources ++ recycleSources)).2.
Proof.
  unfold aggregateMaterials.
  destruct (all_sources bookmarkedIds db scoringMethod filterOptions)
    as [allSources|]; simpl.
  - destruct (split_sources allSources) as [sal rec] eqn:Es; simpl.
    destruct (build_index _) as [mts stm] eqn:Eb; simpl. split.
    + intros [= <-]. exists allSources. split; [done|].
      simpl. rewrite Es. simpl. by rewrite Eb.
    + intros (? & [= <-] & ->). simpl. rewrite Es. simpl. by rewrite Eb.
  - split; [done | by intros (? & ? & _)].
Qed.

Lemma aggregateMaterials_total :
  is_Some (aggregateMaterials bookmarkedIds db scoringMethod filterOptions).
Proof.
  destruct all_sources_total as [allSources Hall].
  eexists. apply aggregateMaterials_unfold. eauto.
Qed.

End Aggregate.

(** ** C1: the totals count every accepted recipe row once *)

(** C1.  For every bookmark set (a [Set], so without repetition), store and
    filter configuration, [aggregateMaterials] returns a result, and the sum
    of [totalQuantity] over its [materials] equals the sum of the [quantity]
    fields of the recipe rows of bookmarked, non-paused items whose
    ingredient is in the store and passes the rarity and scrappy filters:
    each such row is counted once and none is left out. *)
Theorem aggregateMaterials_total_quantity (bookmarkedIds : list string)
    (db : Database) (scoringMethod : ScoringMethod)
    (filterOptions : MaterialFilterOptions) :
  NoDup bookmarkedIds →
  ∃ result,
    aggregateMaterials bookmarkedIds db scoringMethod filterOptions = Some result
    ∧ sumZ (MaterialRequirement.totalQuantity
              <$> AggregatedMaterialsData.materials result)
      = sumZ (CraftingRecipe.quantity
                <$> filter (counted_edge db filterOptions bookmarkedIds)
                           (Database.crafting_recipes db)).
Proof.
  intros Hnd.
  destruct (aggregateMaterials_total bookmarkedIds db scoringMethod filterOptions)
    as [result Hres].
  exists result. split; [done|].
  apply aggregateMaterials_unfold in Hres as (allSources & _ & ->). simpl.
  rewrite (build_materials_quantities db) by apply collect_demand_inv.
  by rewrite (collect_demand_measure db filterOptions
                (λ st, sumZ (map_values (Demand.materialQuantityMap st)))
                CraftingRecipe.quantity (demand_recipe_sum db filterOptions)).
Qed.

(** ** Numbers *)

Lemma Qltb_lt (a b : Q) : Qltb a b = true ↔ (a < b)%Q.
Proof.
  unfold Qltb. rewrite negb_true_iff, <- not_true_iff_false, Qle_bool_iff.
  split; [apply Qnot_le_lt | apply Qlt_not_le].
Qed.

Lemma Qltb_ge (a b : Q) : Qltb a b = false ↔ (b <= a)%Q.
Proof. unfold Qltb. by rewrite negb_false_iff, Qle_bool_iff. Qed.

Lemma Qeq_bool_false (a b : Q) : Qeq_bool a b = false ↔ ¬ (a == b)%Q.
Proof. by rewrite <- not_true_iff_false, Qeq_bool_iff. Qed.

Lemma gtb_zero_not_eqb (x : number) : gtb x zero = true → eqb x zero = false.
Proof.
  destruct x as [a| | |]; simpl; try done.
  rewrite Qltb_lt, Qeq_bool_false. intros Hlt Heq. rewrite Heq in Hlt.
  by apply Qlt_irrefl in Hlt.
Qed.

(** ** Step 5: the two buckets *)

Lemma split_sources_from (sal rec allSources : list SalvagingSource) :
  foldl split_source (sal, rec) allSources
  = (sal ++ filter (λ s, bucket_of s = Some SalvageBucket) allSources,
     rec ++ filter (λ s, bucket_of s = Some RecycleBucket) allSources).
Proof.
  revert sal rec. induction allSources as [|s l IH]; intros sal rec.
  - simpl. by rewrite !app_nil_r.
  - cbn [foldl]. rewrite !filter_cons.
    replace (split_source (sal, rec) s)
      with (match bucket_of s with
            | None => (sal, rec)
            | Some RecycleBucket => (sal, rec ++ [s])
            | Some SalvageBucket => (sal ++ [s], rec)
            end) by done.
    destruct (bucket_of s) as [[]|]; rewrite IH.
    + rewrite decide_True, decide_False by done. by rewrite <- app_assoc.
    + rewrite decide_False, decide_True by done. by rewrite <- app_assoc.
    + by rewrite !decide_False.
Qed.

Lemma split_sources_filter (allSources : list SalvagingSource) :
  split_sources allSources
  = (filter (λ s, bucket_of s = Some SalvageBucket) allSources,
     filter (λ s, bucket_of s = Some RecycleBucket) allSources).
Proof. apply split_sources_from. Qed.

(** Membership in the two output lists. *)
Lemma aggregateMaterials_lists bookmarkedIds db scoringMethod filterOptions
    result source :
  aggregateMaterials bookmarkedIds db scoringMethod filterOptions = Some result →
  ∃ allSources,
    all_sources bookmarkedIds db scoringMethod filterOptions = Some allSources
    ∧ (source ∈ AggregatedMaterialsData.salvageSources result
       ↔ bucket_of source = Some SalvageBucket ∧ source ∈ allSources)
    ∧ (source ∈ AggregatedMaterialsData.recycleSources result
       ↔ bucket_of source = Some RecycleBucket ∧ source ∈ allSources).
Proof.
  intros Hres. apply aggregateMaterials_unfold in Hres as (allSources & Hall & ->).
  exists allSources. split; [done|]. simpl.
  rewrite !elem_of_js_sort, split_sources_filter. simpl.
  by rewrite !list_elem_of_filter.
Qed.

(** C2.  [aggregateMaterials] returns a result in which every source that
    step 4 scores (every element of [allSources], among them every source
    of the two output lists) is placed by its scores: with both scores
    positive it is in [recycleSources] and not in [salvageSources] when
    [recycleScore / salvageScore > 2.0], and in [salvageSources] and not in
    [recycleSources] otherwise; with [salvageScore = 0] and a positive
    [recycleScore] it is in [recycleSources]; with [recycleScore = 0] and a
    positive [salvageScore] it is in [salvageSources]; and no source is in
    both lists. *)
Theorem aggregateMaterials_partition (bookmarkedIds : list string)
    (db : Database) (scoringMethod : ScoringMethod)
    (filterOptions : MaterialFilterOptions) :
  ∃ result allSources,
    aggregateMaterials bookmarkedIds db scoringMethod filterOptions = Some result
    ∧ all_sources bookmarkedIds db scoringMethod filterOptions = Some allSources
    ∧ (∀ source,
         source ∈ AggregatedMaterialsData.salvageSources result
                  ++ AggregatedMaterialsData.recycleSources result →
         source ∈ allSources)
    ∧ ∀ source,
        source ∈ allSources →
        let salvageScore := SalvagingSource.salvageScore source in
        let recycleScore := SalvagingSource.recycleScore source in
        let inSalvage := source ∈ AggregatedMaterialsData.salvageSources result in
        let inRecycle := source ∈ AggregatedMaterialsData.recycleSources result in
        (gtb salvageScore zero = true → gtb recycleScore zero = true →
           (gtb (recycleScore / salvageScore)%js RECYCLING_THRESHOLD = true →
              inRecycle ∧ ¬ inSalvage)
           ∧ (gtb (recycleScore / salvageScore)%js RECYCLING_THRESHOLD = false →
                inSalvage ∧ ¬ inRecycle))
        ∧ (eqb salvageScore zero = true → gtb recycleScore zero = true →
             inRecycle ∧ ¬ inSalvage)
        ∧ (eqb recycleScore zero = true → gtb salvageScore zero = true →
             inSalvage ∧ ¬ inRecycle)
        ∧ ¬ (inSalvage ∧ inRecycle).
Proof.
  destruct (aggregateMaterials_total bookmarkedIds db scoringMethod filterOptions)
    as [result Hres].
  destruct (all_sources_total bookmarkedIds db scoringMethod filterOptions)
    as [allSources Hsources].
  assert (Hlists : ∀ source,
             (source ∈ AggregatedMaterialsData.salvageSources result
              ↔ bucket_of source = Some SalvageBucket ∧ source ∈ allSources)
             ∧ (source ∈ AggregatedMaterialsData.recycleSources result
                ↔ bucket_of source = Some RecycleBucket ∧ source ∈ allSources)).
  { intros source.
    destruct (aggregateMaterials_lists _ _ _ _ _ source Hres)
      as (allSources' & Hall' & Hsal & Hrec).
    rewrite Hsources in Hall'. by injection Hall' as <-. }
  exists result, allSources. split_and!; [done|done| |].
  { intros source Hin. destruct (Hlists source) as [Hsal Hrec].
    apply elem_of_app in Hin as [Hin|Hin]; [by apply Hsal | by apply Hrec]. }
  intros source Hall. cbv zeta.
  destruct (Hlists source) as [Hsal Hrec]. rewrite Hsal, Hrec.
  clear Hsal Hrec Hlists Hres.
  unfold bucket_of.
  set (s := SalvagingSource.salvageScore source).
  set (r := SalvagingSource.recycleScore source).
  split_and!.
  - intros Hs Hr.
    rewrite (gtb_zero_not_eqb s Hs), (gtb_zero_not_eqb r Hr). simpl.
    split; intros ->; split; (by split) || by intros [? _].
  - intros Hs Hr. rewrite Hs, Hr, (gtb_zero_not_eqb r Hr). simpl.
    split; [by split | by intros [? _]].
  - intros Hr Hs. rewrite Hs, Hr, (gtb_zero_not_eqb s Hs). simpl.
    split; [by split | by intros [? _]].
  - intros [[H1 _] [H2 _]]. congruence.
Qed.

(** ** C4: sources are never excluded items *)

Lemma not_elem_of_excluded_ids (bookmarkedIds materialIds : list string)
    (filterOptions : MaterialFilterOptions) (x : string) :
  x ∉ excluded_ids bookmarkedIds materialIds filterOptions
  ↔ (x ∉ bookmarkedIds) ∧ (x ∉ materialIds)
    ∧ ∀ hidden,
        MaterialFilterOptions.hiddenSourceItems filterOptions = Some hidden →
        x ∉ hidden.
Proof.
  unfold excluded_ids. rewrite !not_elem_of_union, !elem_of_list_to_set.
  destruct (MaterialFilterOptions.hiddenSourceItems filterOptions) as [h|];
    simpl.
  - split.
    + intros [[? ?] ?]. split_and!; [done|done|]. by intros ? [= <-].
    + intros (? & ? & Hh). split_and!; [done|done|]. by apply Hh.
  - split.
    + intros [[? ?] _]. split_and!; done.
    + intros (? & ? & _). split_and!; [done|done|]. apply not_elem_of_empty.
Qed.

(** C4.  [aggregateMaterials] returns a result in which no source of
    [salvageSources] or [recycleSources] has the id of a bookmark, of a
    demanded material (an entry of [materials]) or of an item of
    [filterOptions.hiddenSourceItems]. *)
Theorem aggregateMaterials_sources_not_excluded (bookmarkedIds : list string)
    (db : Database) (scoringMethod : ScoringMethod)
    (filterOptions : MaterialFilterOptions) :
  ∃ result,
    aggregateMaterials bookmarkedIds db scoringMethod filterOptions = Some result
    ∧ ∀ source,
        source ∈ AggregatedMaterialsData.salvageSources result
                 ++ AggregatedMaterialsData.recycleSources result →
        let sourceId := Item.id (SalvagingSource.item source) in
        (sourceId ∉ bookmarkedIds)
        ∧ (sourceId ∉ (Item.id ∘ MaterialRequirement.item)
                        <$> AggregatedMaterialsData.materials result)
        ∧ ∀ hidden,
            MaterialFilterOptions.hiddenSourceItems filterOptions = Some hidden →
            sourceId ∉ hidden.
Proof.
  destruct (aggregateMaterials_total bookmarkedIds db scoringMethod filterOptions)
    as [result Hres].
  exists result. split; [done|]. intros source Hin. cbv zeta.
  destruct (aggregateMaterials_lists _ _ _ _ _ source Hres)
    as (allSources & Hall & Hsal & Hrec).
  assert (Hsrc : source ∈ allSources).
  { apply elem_of_app in Hin as [Hin|Hin]; [by apply Hsal | by apply Hrec]. }
  apply all_sources_spec in Hall as [_ Hall].
  destruct (Hall source Hsrc) as (_ & _ & Hex).
  apply not_elem_of_excluded_ids in Hex as (Hb & Hm & Hh).
  split_and!; [done| |done].
  apply aggregateMaterials_unfold in Hres as (? & _ & ->). simpl.
  by rewrite (build_materials_ids db) by apply collect_demand_inv.
Qed.

(** ** C8: a recipe row whose ingredient has no item row *)

Section MissingItem.
Context (items : list Item) (salvaging : list SalvagingOutput)
        (recycling : list RecyclingOutput)
        (before after : list CraftingRecipe) (edge : CraftingRecipe).

Let dbWith : Database :=
  Database.mk items (before ++ edge :: after) salvaging recycling.
Let dbWithout : Database :=
  Database.mk items (before ++ after) salvaging recycling.

Hypothesis Hmissing : query_item dbWith (CraftingRecipe.ingredient_id edge) = None.

Lemma demand_recipe_missing filterOptions itemId st :
  (∀ k item, map_get k (Demand.materialItemsMap st) = Some item →
             query_item dbWith k = Some item) →
  demand_recipe dbWith filterOptions itemId st edge = st.
Proof using Hmissing.
  intros Hcache. unfold demand_recipe.
  rewrite (cache_material_item_get dbWith _ _ Hcache), Hmissing.
  unfold cache_material_item, map_has. rewrite Hmissing.
  destruct st as [qmap rmap cache]. simpl.
  by destruct (map_get _ cache).
Qed.

Lemma demand_item_missing filterOptions st itemId :
  demand_inv dbWith st →
  demand_item dbWith filterOptions st itemId
  = demand_item dbWithout filterOptions st itemId.
Proof using Hmissing.
  intros Hst. unfold demand_item.
  destruct (is_paused filterOptions itemId); [done|].
  unfold query_recipes. simpl. rewrite !filter_app, filter_cons, !foldl_app.
  change (demand_recipe dbWithout) with (demand_recipe dbWith).
  destruct (decide (CraftingRecipe.item_id edge = itemId)); [|done].
  cbn [foldl]. rewrite demand_recipe_missing; [done|].
  apply (inv_cache dbWith). by apply demand_recipes_inv.
Qed.

Lemma collect_demand_missing filterOptions bookmarkedIds :
  collect_demand dbWith filterOptions bookmarkedIds
  = collect_demand dbWithout filterOptions bookmarkedIds.
Proof using Hmissing.
  unfold collect_demand.
  assert (H : demand_inv dbWith Demand.empty) by apply demand_inv_empty.
  revert H. generalize Demand.empty.
  induction bookmarkedIds as [|b bs IH]; intros st Hst; simpl; [done|].
  rewrite <- demand_item_missing by done.
  by apply IH, demand_item_inv.
Qed.

(** C8.  When a recipe row names an ingredient for which the store has no
    item row, [aggregateMaterials] does not throw and returns what it
    returns for the store without that row: the row adds nothing to
    [materials], to the totals or to [requiredBy], and the rest of the
    result is unchanged.  This holds for every such row, hence for the rows
    of bookmarked items that are not paused. *)
Theorem aggregateMaterials_skips_missing_item (bookmarkedIds : list string)
    (scoringMethod : ScoringMethod) (filterOptions : MaterialFilterOptions) :
  ∃ result,
    aggregateMaterials bookmarkedIds dbWith scoringMethod filterOptions
    = Some result
    ∧ aggregateMaterials bookmarkedIds dbWithout scoringMethod filterOptions
      = Some result.
Proof using Hmissing.
  destruct (aggregateMaterials_total bookmarkedIds dbWith scoringMethod
                                     filterOptions) as [result Hres].
  exists result. split; [done|]. rewrite <- Hres.
  unfold aggregateMaterials, all_sources.
  by rewrite collect_demand_missing.
Qed.

End MissingItem.

(** ** Step 6: the two relationship maps *)

Lemma elem_of_set_add (x y : string) (s : list string) :
  x ∈ set_add y s ↔ x = y ∨ x ∈ s.
Proof.
  unfold set_add. destruct (decide (y ∈ s)) as [Hy|Hy].
  - split; [by right | by intros [->|]].
  - rewrite elem_of_app, list_elem_of_singleton. tauto.
Qed.

Lemma NoDup_set_add (y : string) (s : list string) :
  NoDup s → NoDup (set_add y s).
Proof.
  intros Hs. unfold set_add. destruct (decide (y ∈ s)) as [Hy|Hy]; [done|].
  apply NoDup_app. split_and!; [done| |apply NoDup_singleton].
  intros x Hx Hxy. apply list_elem_of_singleton in Hxy. by subst.
Qed.

Section IndexMaterial.
Context (sourceId : string).

Lemma index_material_list mts provided entry m :
  map_list m (index_material sourceId (mts, provided) entry).1
  = if decide (m = entry.1) then set_add sourceId (map_list m mts)
    else map_list m mts.
Proof.
  destruct entry as [m0 q]. unfold index_material, map_list. simpl.
  set (mts1 := if map_has m0 mts then mts else map_set m0 [] mts).
  assert (H1 : ∀ k, default [] (map_get k mts1) = default [] (map_get k mts)).
  { intros k. subst mts1. unfold map_has.
    destruct (map_get m0 mts) eqn:E; [done|].
    destruct (decide (m0 = k)) as [<-|Hne].
    - by rewrite map_get_set_eq, E.
    - by rewrite map_get_set_ne. }
  destruct (decide (m = m0)) as [->|Hne].
  - by rewrite map_get_set_eq, H1.
  - by rewrite map_get_set_ne, H1.
Qed.

Lemma index_material_provided mts provided entry :
  (index_material sourceId (mts, provided) entry).2 = set_add entry.1 provided.
Proof. by destruct entry. Qed.

Lemma index_materials_spec entries mts provided :
  let result := foldl (index_material sourceId) (mts, provided) entries in
  (∀ m x, x ∈ map_list m result.1
          ↔ x ∈ map_list m mts ∨ (x = sourceId ∧ m ∈ entries.*1))
  ∧ ((∀ m, NoDup (map_list m mts)) → ∀ m, NoDup (map_list m result.1))
  ∧ result.2 = foldl (λ provided entry, set_add entry.1 provided)
                     provided entries.
Proof.
  revert mts provided.
  induction entries as [|e entries IH]; intros mts provided; cbn [foldl].
  - split_and!; [|done|done]. intros m x. csimpl. rewrite elem_of_nil. tauto.
  - destruct (index_material sourceId (mts, provided) e) as [mts1 prov1] eqn:E.
    destruct (IH mts1 prov1) as (IH1 & IH2 & IH3).
    assert (E1 : ∀ m, map_list m mts1
                      = if decide (m = e.1)
                        then set_add sourceId (map_list m mts)
                        else map_list m mts).
    { intros m. pose proof (index_material_list mts provided e m) as H.
      by rewrite E in H. }
    assert (E2 : prov1 = set_add e.1 provided).
    { pose proof (index_material_provided mts provided e) as H.
      by rewrite E in H. }
    split_and!.
    + intros m x. rewrite IH1, E1. csimpl. rewrite elem_of_cons.
      destruct (decide (m = e.1)) as [->|Hne].
      * rewrite elem_of_set_add. tauto.
      * tauto.
    + intros Hnd. apply IH2. intros m. rewrite E1.
      destruct (decide (m = e.1)); [apply NoDup_set_add|]; apply Hnd.
    + by rewrite IH3, E2.
Qed.

End IndexMaterial.

Lemma elem_of_foldl_set_add (entries : list (string * Z))
    (provided : list string) (m : string) :
  m ∈ foldl (λ provided entry, set_add entry.1 provided) provided entries
  ↔ m ∈ provided ∨ m ∈ entries.*1.
Proof.
  revert provided. induction entries as [|e entries IH]; intros provided; csimpl.
  - rewrite elem_of_nil. tauto.
  - rewrite IH, elem_of_set_add, elem_of_cons. tauto.
Qed.

Lemma NoDup_foldl_set_add (entries : list (string * Z))
    (provided : list string) :
  NoDup provided →
  NoDup (foldl (λ provided entry, set_add entry.1 provided) provided entries).
Proof.
  revert provided. induction entries as [|e entries IH]; intros provided Hnd;
    simpl; [done|]. by apply IH, NoDup_set_add.
Qed.

Lemma elem_of_materials_provided (source : SalvagingSource) (m : string) :
  m ∈ materials_provided source ↔ m ∈ yield_ids source.
Proof.
  unfold materials_provided, yield_ids, map_keys.
  rewrite elem_of_foldl_set_add, elem_of_nil. tauto.
Qed.

Lemma NoDup_materials_provided (source : SalvagingSource) :
  NoDup (materials_provided source).
Proof. apply NoDup_foldl_set_add. constructor. Qed.

Lemma index_source_spec mts stm source :
  let sourceId := source_id source in
  let result := index_source (mts, stm) source in
  (∀ m x, x ∈ map_list m result.1
          ↔ x ∈ map_list m mts ∨ (x = sourceId ∧ m ∈ yield_ids source))
  ∧ ((∀ m, NoDup (map_list m mts)) → ∀ m, NoDup (map_list m result.1))
  ∧ result.2 = map_set sourceId (materials_provided source) stm.
Proof.
  cbv zeta. unfold index_source, source_id.
  destruct (index_materials_spec (Item.id (SalvagingSource.item source))
              (all_yields source) mts []) as (H1 & H2 & H3).
  destruct (foldl _ _ (all_yields source)) as [mts1 prov1]. simpl in *.
  split_and!; [done|done|]. by rewrite H3.
Qed.

Lemma build_index_from sources mts stm :
  let result := foldl index_source (mts, stm) sources in
  (∀ m x, x ∈ map_list m result.1
          ↔ x ∈ map_list m mts
            ∨ ∃ source, source ∈ sources ∧ source_id source = x
                        ∧ m ∈ yield_ids source)
  ∧ ((∀ m, NoDup (map_list m mts)) → ∀ m, NoDup (map_list m result.1))
  ∧ (∀ s, s ∉ source_id <$> sources → map_get s result.2 = map_get s stm)
  ∧ (∀ s l, map_get s result.2 = Some l →
            map_get s stm = Some l
            ∨ ∃ source, source ∈ sources ∧ source_id source = s
                        ∧ l = materials_provided source)
  ∧ (NoDup (source_id <$> sources) →
     ∀ source, source ∈ sources →
       map_get (source_id source) result.2 = Some (materials_provided source)).
Proof.
  revert mts stm. induction sources as [|src sources IH]; intros mts stm;
    cbn [foldl].
  - split_and!; try done.
    + intros m x. split; [by left|]. intros [?|(? & H & _)]; [done|].
      by apply elem_of_nil in H.
    + intros s l ?. by left.
    + intros _ ? H. by apply elem_of_nil in H.
  - destruct (index_source_spec mts stm src) as (S1 & S2 & S3).
    destruct (index_source (mts, stm) src) as [mts1 stm1].
    cbn [fst snd] in S1, S2, S3.
    destruct (IH mts1 stm1) as (I1 & I2 & I3 & I4 & I5). subst stm1.
    split_and!.
    + intros m x. rewrite I1, S1. split.
      * intros [[?|[-> ?]]|(s & ? & ? & ?)]; [by left| |].
        -- right. exists src. split_and!; [left|done|done].
        -- right. exists s. split_and!; [by right|done|done].
      * intros [?|(s & Hs & Hid & ?)]; [by left; left|].
        apply elem_of_cons in Hs as [->|Hs].
        -- left. right. by rewrite <- Hid.
        -- right. by exists s.
    + intros Hnd. by apply I2, S2.
    + intros s Hs. csimpl in Hs. apply not_elem_of_cons in Hs as [Hne Hs].
      rewrite I3 by done. by rewrite map_get_set_ne.
    + intros s l Hl. apply I4 in Hl as [Hl|(s' & ? & ? & ?)].
      * destruct (decide (source_id src = s)) as [<-|Hne].
        -- rewrite map_get_set_eq in Hl. injection Hl as <-.
           right. exists src. split_and!; [left|done|done].
        -- rewrite map_get_set_ne in Hl by done. by left.
      * right. exists s'. split_and!; [by right|done|done].
    + csimpl. rewrite NoDup_cons. intros [Hsrc Hnd] source Hin.
      apply elem_of_cons in Hin as [->|Hin].
      * rewrite I3 by done. apply map_get_set_eq.
      * by apply I5.
Qed.

(** The two maps agree on every list of sources with distinct ids. *)
Lemma build_index_consistent (sources : list SalvagingSource) :
  NoDup (source_id <$> sources) →
  let mts := (build_index sources).1 in
  let stm := (build_index sources).2 in
  (∀ m s, s ∈ map_list m mts ↔ ∃ ms, map_get s stm = Some ms ∧ m ∈ ms)
  ∧ (∀ m, NoDup (map_list m mts))
  ∧ (∀ s ms, map_get s stm = Some ms → NoDup ms).
Proof.
  intros Hnd. cbv zeta. unfold build_index.
  destruct (build_index_from sources [] []) as (I1 & I2 & _ & I4 & I5).
  simpl in *. split_and!.
  - intros m s. rewrite I1. split.
    + intros [H|(src & Hsrc & <- & Hm)]; [by apply elem_of_nil in H|].
      exists (materials_provided src). split; [by apply I5|].
      by apply elem_of_materials_provided.
    + intros (ms & Hms & Hm). right.
      apply I4 in Hms as [?|(src & Hsrc & <- & ->)]; [done|].
      exists src. split_and!; [done|done|].
      by apply elem_of_materials_provided.
  - apply I2. intros m. constructor.
  - intros s ms Hms. apply I4 in Hms as [?|(src & _ & _ & ->)]; [done|].
    apply NoDup_materials_provided.
Qed.

Lemma NoDup_fmap_eq {A B : Type} (f : A → B) (l : list A) (a b : A) :
  NoDup (f <$> l) → a ∈ l → b ∈ l → f a = f b → a = b.
Proof.
  induction l as [|x l IH]; csimpl; [by intros _ H%elem_of_nil|].
  rewrite NoDup_cons, !elem_of_cons. intros [Hx Hnd] [->|Ha] [->|Hb] Hab.
  - done.
  - exfalso. apply Hx. rewrite Hab. by apply list_elem_of_fmap_2.
  - exfalso. apply Hx. rewrite <- Hab. by apply list_elem_of_fmap_2.
  - by apply IH.
Qed.

Lemma NoDup_fmap_filter_app {A B : Type} (f : A → B) (P Q : A → Prop)
    `{!∀ x, Decision (P x)} `{!∀ x, Decision (Q x)} (l : list A) :
  (∀ x, P x → Q x → False) →
  NoDup (f <$> l) → NoDup (f <$> (filter P l ++ filter Q l)).
Proof.
  intros Hdisj. induction l as [|x l IH]; [done|].
  rewrite fmap_cons, NoDup_cons. intros [Hx Hnd].
  assert (Hperm : ∀ k, f <$> (filter P l ++ x :: k)
                       ≡ₚ f x :: (f <$> (filter P l ++ k))).
  { intros k. rewrite !fmap_app, fmap_cons. by rewrite <- Permutation_middle. }
  assert (Hfresh : f x ∉ f <$> (filter P l ++ filter Q l)).
  { intros Hin. apply Hx.
    apply list_elem_of_fmap in Hin as (y & Hxy & Hy). rewrite Hxy.
    apply list_elem_of_fmap_2.
    apply elem_of_app in Hy as [Hy|Hy];
      by apply list_elem_of_filter in Hy as [_ ?]. }
  rewrite !(filter_cons _ x).
  destruct (decide (P x)) as [HP|HP], (decide (Q x)) as [HQ|HQ].
  - by destruct (Hdisj x).
  - csimpl. apply NoDup_cons. split; [done | by apply IH].
  - rewrite Hperm. apply NoDup_cons. split; [done | by apply IH].
  - by apply IH.
Qed.

(** With [items.id] a key of the table, the sources of the two output lists
    have distinct ids. *)
Lemma aggregateMaterials_source_ids bookmarkedIds db scoringMethod filterOptions
    result :
  NoDup (Item.id <$> Database.items db) →
  aggregateMaterials bookmarkedIds db scoringMethod filterOptions = Some result →
  NoDup (source_id <$> (AggregatedMaterialsData.salvageSources result
                        ++ AggregatedMaterialsData.recycleSources result)).
Proof.
  intros Hkey Hres.
  apply aggregateMaterials_unfold in Hres as (allSources & Hall & ->). simpl.
  rewrite !js_sort_perm, split_sources_filter. simpl.
  apply all_sources_spec in Hall as [Hnames Hall].
  apply NoDup_fmap_filter_app; [congruence|].
  apply (NoDup_fmap_transfer _ SalvagingSource.baseName); [done|].
  intros x y Hx Hy Hid.
  destruct (Hall x Hx) as (Hxi & <- & _), (Hall y Hy) as (Hyi & <- & _).
  by rewrite (NoDup_fmap_eq Item.id _ _ _ Hkey Hxi Hyi Hid).
Qed.

(** C6.  Over a store whose [items.id] is a key (it is the primary key of
    the table), [aggregateMaterials] returns a result in which
    [materialToSources[m]] contains a source id [s] exactly when
    [sourceToMaterials[s]] exists and contains [m], and in which no list of
    either map holds an id twice. *)
Theorem aggregateMaterials_index_consistent (bookmarkedIds : list string)
    (db : Database) (scoringMethod : ScoringMethod)
    (filterOptions : MaterialFilterOptions) :
  NoDup (Item.id <$> Database.items db) →
  ∃ result,
    aggregateMaterials bookmarkedIds db scoringMethod filterOptions = Some result
    ∧ (∀ m s,
         s ∈ map_list m (AggregatedMaterialsData.materialToSources result)
         ↔ ∃ ms,
             map_get s (AggregatedMaterialsData.sourceToMaterials result)
             = Some ms
             ∧ m ∈ ms)
    ∧ (∀ m, NoDup (map_list m (AggregatedMaterialsData.materialToSources result)))
    ∧ (∀ s ms,
         map_get s (AggregatedMaterialsData.sourceToMaterials result) = Some ms →
         NoDup ms).
Proof.
  intros Hkey.
  destruct (aggregateMaterials_total bookmarkedIds db scoringMethod filterOptions)
    as [result Hres].
  exists result. split; [done|].
  pose proof (aggregateMaterials_source_ids _ _ _ _ _ Hkey Hres) as Hids.
  apply build_index_consistent in Hids.
  apply aggregateMaterials_unfold in Hres as (allSources & _ & ->). done.
Qed.

(** ** Evaluations on the example stores *)

(** C3 (failing input).  On [tier_store] with ["bandage"] bookmarked the
    salvage yield of the Anvil group averages to [Math.round(1 / 3) = 0],
    [calculateSlotEfficiency] divides [0] by [0], and the source is output
    in [salvageSources] with a [salvageScore] that is NaN, hence not [>= 0]. *)
Theorem tier_store_salvage_score_nan :
  ∃ result source,
    aggregateMaterials ["bandage"] tier_store max_yield default_filterOptions
    = Some result
    ∧ source ∈ AggregatedMaterialsData.salvageSources result
    ∧ SalvagingSource.salvageYields source = [("fabric", 0)]
    ∧ SalvagingSource.salvageScore source = NaN
    ∧ geb (SalvagingSource.salvageScore source) zero = false.
Proof.
  eexists _, _. split; [vm_compute; reflexivity|].
  split; [left|]. by vm_compute.
Qed.

(** C9 (failing input).  For the same source the slot-efficiency bonus of
    the salvage pass is NaN, hence not [>= 1], and the salvage score that
    was [0] before the multiplication is NaN after it. *)
Theorem tier_store_slot_bonus_nan :
  ∃ result source,
    aggregateMaterials ["bandage"] tier_store max_yield default_filterOptions
    = Some result
    ∧ source ∈ AggregatedMaterialsData.salvageSources result
    ∧ calculateSlotEfficiency (SalvagingSource.item source)
                              (SalvagingSource.salvageYields source) tier_store
      = NaN
    ∧ slot_bonus (calculateSlotEfficiency
                    (SalvagingSource.item source)
                    (SalvagingSource.salvageYields source) tier_store)
      = NaN
    ∧ geb NaN one = false
    ∧ (zero * NaN)%js = SalvagingSource.salvageScore source.
Proof.
  eexists _, _. split; [vm_compute; reflexivity|].
  split; [left|]. by vm_compute.
Qed.

(** C10.  There is an input, [zero_yield_store] with ["bandage"]
    bookmarked, for which a source of the output has a [salvageYields]
    entry of averaged quantity [0] (one unit of fabric over a group of three
    items), and the id of that material is recorded for the source in
    [sourceToMaterials] and the id of the source for the material in
    [materialToSources]. *)
Theorem zero_quantity_yield_is_indexed :
  ∃ bookmarkedIds db scoringMethod filterOptions result source materialId,
    aggregateMaterials bookmarkedIds db scoringMethod filterOptions = Some result
    ∧ source ∈ AggregatedMaterialsData.salvageSources result
               ++ AggregatedMaterialsData.recycleSources result
    ∧ ((materialId, 0) ∈ SalvagingSource.salvageYields source
       ∨ (materialId, 0) ∈ SalvagingSource.recycleYields source)
    ∧ (∃ ms,
         map_get (source_id source)
                 (AggregatedMaterialsData.sourceToMaterials result) = Some ms
         ∧ materialId ∈ ms)
    ∧ source_id source
      ∈ map_list materialId (AggregatedMaterialsData.materialToSources result).
Proof.
  exists ["bandage"], zero_yield_store, max_yield, default_filterOptions.
  eexists _, _, "fabric". split; [vm_compute; reflexivity|].
  split; [left|]. split; [left; left|]. split.
  - eexists. split; [vm_compute; reflexivity | left].
  - vm_compute. left.
Qed.

(** C5 (counterexample).  On [light_yield_store] the Toolbox source has
    [weight_kg = 2]; with the store, the bookmarks and the filters fixed,
    so that its salvage base score and its rarity are the same in both
    modes, its [salvageScore] is 17.76 in "max_yield" mode and 71.04 in
    "weight_conscious" mode: the switch increases it. *)
Theorem weight_conscious_can_increase_salvage_score :
  ∃ byYield byWeight sourceYield sourceWeight,
    aggregateMaterials ["radio"] light_yield_store max_yield
                       default_filterOptions = Some byYield
    ∧ aggregateMaterials ["radio"] light_yield_store weight_conscious
                         default_filterOptions = Some byWeight
    ∧ AggregatedMaterialsData.salvageSources byYield = [sourceYield]
    ∧ AggregatedMaterialsData.salvageSources byWeight = [sourceWeight]
    ∧ SalvagingSource.item sourceYield = SalvagingSource.item sourceWeight
    ∧ Item.weight_kg (SalvagingSource.item sourceYield) = 2%Q
    ∧ base_score [("wire", 3)] 3 (SalvagingSource.salvageYields sourceYield)
      = base_score [("wire", 3)] 3 (SalvagingSource.salvageYields sourceWeight)
    ∧ eqb (SalvagingSource.salvageScore sourceYield) (Fin 17.76) = true
    ∧ eqb (SalvagingSource.salvageScore sourceWeight) (Fin 71.04) = true
    ∧ ltb (SalvagingSource.salvageScore sourceWeight)
          (SalvagingSource.salvageScore sourceYield) = false.
Proof.
  eexists _, _, _, _. split; [vm_compute; reflexivity|].
  split; [vm_compute; reflexivity|]. by vm_compute.
Qed.

(** ** C5: the scoring method and the salvage score *)

Lemma inject_Z_eq_bool_zero (z : Z) : Qeq_bool (inject_Z z) 0 = (z =? 0)%Z.
Proof.
  unfold Qeq_bool. destruct z; reflexivity.
Qed.

Lemma div_ofZ (a b : Z) :
  b ≠ 0 → (ofZ a / ofZ b)%js = Fin (inject_Z a / inject_Z b).
Proof.
  intros Hb. unfold ofZ, div. rewrite inject_Z_eq_bool_zero.
  by apply Z.eqb_neq in Hb as ->.
Qed.

Lemma add_weighted_yields_fin qmap totalDemand avgYields (acc : Q) :
  0 < totalDemand →
  ∃ b, foldl (add_weighted_yield qmap totalDemand) (Fin acc) avgYields = Fin b.
Proof.
  intros Hd. revert acc.
  induction avgYields as [|[m y] l IH]; intros acc; cbn [foldl];
    [by eexists|].
  unfold add_weighted_yield at 2. rewrite div_ofZ by lia. apply IH.
Qed.

Lemma base_score_fin qmap totalDemand avgYields :
  ∃ b, base_score qmap totalDemand avgYields = Fin b.
Proof.
  unfold base_score. destruct (0 <? totalDemand) eqn:Hd; [|by eexists].
  destruct (0 <? sumZ (map_values avgYields)); [|by eexists].
  apply add_weighted_yields_fin. by apply Z.ltb_lt.
Qed.

Lemma base_score_positive qmap totalDemand avgYields :
  gtb (base_score qmap totalDemand avgYields) zero = true →
  0 < sumZ (map_values avgYields).
Proof.
  unfold base_score. destruct (0 <? totalDemand); simpl; [|done].
  destruct (0 <? sumZ (map_values avgYields)) eqn:E; [|done].
  intros _. by apply Z.ltb_lt.
Qed.

(** The factor of a rarity that is not the name of a member of
    [Object.prototype] is a positive number; that of such a name is NaN. *)
Lemma rarity_table_positive (c u r e l : Q) (rarity : string) :
  (0 < c)%Q → (0 < u)%Q → (0 < r)%Q → (0 < e)%Q → (0 < l)%Q →
  rarity ∉ OBJECT_PROTOTYPE_KEYS →
  ∃ p, rarity_factor (rarity_table c u r e l) rarity = Fin p ∧ (0 < p)%Q.
Proof.
  intros Hc Hu Hr He Hl Hkey. unfold rarity_factor, rarity_table, or_else.
  assert (Hpos : ∀ q, (0 < q)%Q → Qeq_bool q 0 = false).
  { intros q Hq. apply Qeq_bool_false. intros Heq. rewrite Heq in Hq.
    by apply Qlt_irrefl in Hq. }
  rewrite (bool_decide_eq_false_2 _ Hkey).
  repeat case_decide; simpl; rewrite ?Hpos by done; eexists;
    (split; [reflexivity|]); first [assumption | by compute].
Qed.

Lemma rarity_table_inherited (c u r e l : Q) (rarity : string) :
  rarity ∈ OBJECT_PROTOTYPE_KEYS →
  rarity_factor (rarity_table c u r e l) rarity = NaN.
Proof.
  intros Hkey. unfold rarity_factor, rarity_table.
  rewrite (bool_decide_eq_true_2 _ Hkey).
  unfold OBJECT_PROTOTYPE_KEYS in Hkey.
  rewrite !elem_of_cons, elem_of_nil in Hkey.
  repeat (destruct Hkey as [->|Hkey]; [reflexivity|]). destruct Hkey.
Qed.

Lemma slot_bonus_fin (se : Q) :
  ∃ sb, slot_bonus (Fin se) = Fin sb ∧ (1 <= sb)%Q.
Proof.
  unfold slot_bonus, JsNumber.max, SLOT_EFFICIENCY_WEIGHT, one, sub, add, mul.
  simpl. destruct (Qltb 1.0 _) eqn:E.
  - eexists. split; [done|]. apply Qltb_lt in E. lra.
  - eexists. split; [done|]. lra.
Qed.

Lemma calculateSlotEfficiency_fin item outputYields db :
  sumZ (map_values outputYields) ≠ 0 →
  Item.stack_size item ≠ Some 0 →
  ∃ se, calculateSlotEfficiency item outputYields db = Fin se.
Proof.
  intros Hsum Hstack. unfold calculateSlotEfficiency.
  destruct (length outputYields =? 0)%nat; [by eexists|].
  rewrite div_ofZ by done. unfold ofZ at 1, div.
  rewrite inject_Z_eq_bool_zero.
  assert (default DEFAULT_STACK_SIZE (Item.stack_size item) ≠ 0) as Hne.
  { destruct (Item.stack_size item) as [z|]; simpl; [congruence|done]. }
  apply Z.eqb_neq in Hne as ->. by eexists.
Qed.

Lemma eqb_Fin_r (x : number) (q : Q) :
  eqb x (Fin q) = true → ∃ w, x = Fin w ∧ (w == q)%Q.
Proof.
  destruct x as [w| | |]; simpl; try done.
  intros H. exists w. split; [done|]. by apply Qeq_bool_iff.
Qed.

Lemma quarter_lt_half (b w k : Q) :
  (w == 2)%Q → (0 < b)%Q → (0 < k)%Q →
  (b / Qpower w 2 * k < b / w * k)%Q.
Proof.
  intros Hw Hb Hk. apply Qmult_lt_compat_r; [done|].
  assert (Hpow : (Qpower w 2 == 4)%Q) by (rewrite Hw; reflexivity).
  rewrite Hpow, Hw.
  assert (H4 : (b / 4 == b * (1 # 4))%Q) by reflexivity.
  assert (H2 : (b / 2 == b * (1 # 2))%Q) by reflexivity.
  rewrite H4, H2. lra.
Qed.

(** With the effective weight equal to 2, a positive base score, a
    finite slot bonus and a rarity whose factor is a number, the
    "weight_conscious" salvage score is below the "max_yield" one. *)
Lemma salvage_score_weight_conscious_lower db representativeItem (b : Q)
    avgSalvageYields :
  eqb (effective_weight db representativeItem avgSalvageYields) (Fin 2) = true →
  (0 < b)%Q →
  sumZ (map_values avgSalvageYields) ≠ 0 →
  Item.stack_size representativeItem ≠ Some 0 →
  Item.rarity representativeItem ∉ OBJECT_PROTOTYPE_KEYS →
  ltb (salvage_score db weight_conscious representativeItem (Fin b)
                     avgSalvageYields)
      (salvage_score db max_yield representativeItem (Fin b) avgSalvageYields)
  = true.
Proof.
  intros Hw Hb Hsum Hstack Hkey. unfold salvage_score.
  apply eqb_Fin_r in Hw as (w & -> & Hw).
  destruct (rarity_table_positive 1.0 0.9 0.8 0.7 0.6
              (Item.rarity representativeItem)) as (p & Hp & Hp0);
    [by compute..|done|].
  fold RARITY_SALVAGE_PENALTY in Hp. rewrite Hp.
  destruct (calculateSlotEfficiency_fin representativeItem avgSalvageYields db
              Hsum Hstack) as (se & ->).
  destruct (slot_bonus_fin se) as (sb & -> & Hsb).
  assert (Hw0 : Qeq_bool w 0 = false).
  { apply Qeq_bool_false. rewrite Hw. by compute. }
  assert (Hw2 : Qeq_bool (Qpower w 2) 0 = false).
  { apply Qeq_bool_false. rewrite Hw. by compute. }
  unfold pow, IMMEDIACY_BONUS, div, mul. simpl (2 =? 0). cbv iota.
  rewrite Hw0, Hw2. unfold ltb. apply Qltb_lt.
  rewrite <- !Qmult_assoc. apply quarter_lt_half; [done|done|].
  apply Qmult_lt_0_compat; [done|]. apply Qmult_lt_0_compat; [by compute|lra].
Qed.

(** C5 (amended).  For a source group whose effective salvage weight (the
    total weight of its averaged salvage yields, or the [weight_kg] of its
    representative item when that total is not positive) is 2, whose
    salvage base score is positive, whose representative item does not
    have the stack size 0 and whose rarity is not the name of a member of
    [Object.prototype] (such a rarity makes the score NaN in both modes),
    the [salvageScore] computed in "weight_conscious" mode is strictly
    below the one computed in "max_yield" mode, everything else being the
    same. *)
Theorem score_group_weight_conscious_lower (db : Database)
    (materialQuantityMap : list (string * Z)) (totalDemand : Z)
    (group : SourceGroup) (byYield byWeight : SalvagingSource) :
  score_group db max_yield materialQuantityMap totalDemand group
  = Some byYield →
  score_group db weight_conscious materialQuantityMap totalDemand group
  = Some byWeight →
  eqb (effective_weight db (SalvagingSource.item byYield)
                        (SalvagingSource.salvageYields byYield)) (Fin 2)
  = true →
  gtb (base_score materialQuantityMap totalDemand
                  (SalvagingSource.salvageYields byYield)) zero = true →
  Item.stack_size (SalvagingSource.item byYield) ≠ Some 0 →
  Item.rarity (SalvagingSource.item byYield) ∉ OBJECT_PROTOTYPE_KEYS →
  ltb (SalvagingSource.salvageScore byWeight)
      (SalvagingSource.salvageScore byYield) = true.
Proof.
  unfold score_group.
  destruct (head (SourceGroup.items group)) as [rep|]; [|done].
  intros [= <-] [= <-]. simpl. intros Hw Hbase Hstack Hkey.
  pose proof (base_score_positive _ _ _ Hbase) as Hsum.
  destruct (base_score_fin materialQuantityMap totalDemand
              (average_yields materialQuantityMap
                 (length (SourceGroup.items group))
                 (SourceGroup.salvageYieldsMap group))) as [b Hb].
  rewrite Hb in Hbase |- *.
  apply salvage_score_weight_conscious_lower; [done| |lia|done|done].
  by apply Qltb_lt in Hbase.
Qed.

(** ** Folds *)

Lemma foldl_ext_eq {A B : Type} (f g : A → B → A) (a : A) (l : list B) :
  (∀ a x, f a x = g a x) → foldl f a l = foldl g a l.
Proof.
  intros Hfg. revert a. induction l as [|x l IH]; intros a; simpl; [done|].
  by rewrite Hfg, IH.
Qed.

(** ** Every material has its own total *)

Lemma get_or_zero_set_add (k k' : string) (q : Z) (m : list (string * Z)) :
  get_or_zero k' (map_set k (get_or_zero k m + q) m)
  = if decide (k' = k) then get_or_zero k m + q else get_or_zero k' m.
Proof.
  unfold get_or_zero at 1. destruct (decide (k' = k)) as [->|Hne].
  - rewrite map_get_set_eq.
    destruct (_ =? 0) eqn:E; [apply Z.eqb_eq in E|]; lia.
  - by rewrite map_get_set_ne.
Qed.

Lemma sumZ_fmap_if {A : Type} (P : A → Prop) `{!∀ x, Decision (P x)}
    (f : A → Z) (l : list A) :
  sumZ ((λ x, if decide (P x) then f x else 0) <$> l) = sumZ (f <$> filter P l).
Proof.
  induction l as [|x l IH]; [done|].
  rewrite filter_cons. csimpl. rewrite sumZ_cons, IH.
  destruct (decide (P x)); csimpl; rewrite ?sumZ_cons; lia.
Qed.

Section PerMaterial.
Context (db : Database) (filterOptions : MaterialFilterOptions).

Lemma demand_recipe_key k itemId st recipe :
  demand_inv db st →
  get_or_zero k (Demand.materialQuantityMap
                   (demand_recipe db filterOptions itemId st recipe))
  = get_or_zero k (Demand.materialQuantityMap st)
    + (if ingredient_passes db filterOptions recipe
       then if decide (CraftingRecipe.ingredient_id recipe = k)
            then CraftingRecipe.quantity recipe else 0
       else 0).
Proof.
  intros [Hc _ _]. unfold demand_recipe, ingredient_passes.
  rewrite (cache_material_item_get db _ _ Hc).
  destruct (query_item db (CraftingRecipe.ingredient_id recipe)) as [item|];
    simpl; [|lia].
  destruct (shouldIncludeMaterial item filterOptions); simpl; [|lia].
  rewrite get_or_zero_set_add.
  destruct (decide (k = _)) as [->|Hne].
  - by rewrite decide_True.
  - rewrite decide_False by done. lia.
Qed.

Lemma demand_recipe_keys itemId st recipe k :
  demand_inv db st →
  k ∈ map_keys (Demand.materialQuantityMap
                  (demand_recipe db filterOptions itemId st recipe))
  ↔ k ∈ map_keys (Demand.materialQuantityMap st)
    ∨ (ingredient_passes db filterOptions recipe = true
       ∧ k = CraftingRecipe.ingredient_id recipe).
Proof.
  intros [Hc _ _]. unfold demand_recipe, ingredient_passes.
  rewrite (cache_material_item_get db _ _ Hc).
  assert (Hskip : ∀ X : Prop,
            X ↔ X ∨ (false = true ∧ k = CraftingRecipe.ingredient_id recipe)).
  { intros X. split; [by left | by intros [?|[? _]]]. }
  destruct (query_item db (CraftingRecipe.ingredient_id recipe)) as [item|];
    simpl; [|apply Hskip].
  destruct (shouldIncludeMaterial item filterOptions); simpl; [|apply Hskip].
  rewrite map_keys_set_elem. split.
  - intros [->|?]; [by right | by left].
  - intros [?|[_ ->]]; [by right | by left].
Qed.

Lemma collect_demand_key_total bookmarkedIds k :
  NoDup bookmarkedIds →
  get_or_zero k (Demand.materialQuantityMap
                   (collect_demand db filterOptions bookmarkedIds))
  = sumZ (CraftingRecipe.quantity
            <$> filter (λ r, CraftingRecipe.ingredient_id r = k)
                       (filter (counted_edge db filterOptions bookmarkedIds)
                               (Database.crafting_recipes db))).
Proof.
  intros Hnd.
  rewrite (collect_demand_measure db filterOptions
             (λ st, get_or_zero k (Demand.materialQuantityMap st))
             (λ r, if decide (CraftingRecipe.ingredient_id r = k)
                   then CraftingRecipe.quantity r else 0)) by
    (done || apply demand_recipe_key).
  by rewrite sumZ_fmap_if.
Qed.

End PerMaterial.

(** A property of the demand maps that a recipe row establishes exactly
    when it is accepted and hits, and that nothing undoes, holds at the
    end exactly when it held at the start or a counted row of the table
    hits. *)
Section Tracing.
Context (db : Database) (filterOptions : MaterialFilterOptions)
        (holds : Demand → Prop) (hits : string → CraftingRecipe → Prop).
Hypothesis holds_step : ∀ itemId st recipe,
  demand_inv db st →
  holds (demand_recipe db filterOptions itemId st recipe)
  ↔ holds st
    ∨ (ingredient_passes db filterOptions recipe = true ∧ hits itemId recipe).

Lemma demand_recipes_holds itemId recipes st :
  demand_inv db st →
  holds (foldl (demand_recipe db filterOptions itemId) st recipes)
  ↔ holds st
    ∨ ∃ r, r ∈ recipes ∧ ingredient_passes db filterOptions r = true
           ∧ hits itemId r.
Proof using holds_step.
  revert st. induction recipes as [|r rs IH]; intros st Hst; simpl.
  - split; [by left|]. intros [?|(? & H & _)]; [done|].
    by apply elem_of_nil in H.
  - rewrite IH by by apply demand_recipe_inv.
    rewrite holds_step by done. split.
    + intros [[?|[? ?]]|(r' & ? & ? & ?)]; [by left| |].
      * right. exists r. split_and!; [left|done|done].
      * right. exists r'. split_and!; [by right|done|done].
    + intros [?|(r' & Hr' & ? & ?)]; [by left; left|].
      apply elem_of_cons in Hr' as [->|Hr'].
      * left. by right.
      * right. by exists r'.
Qed.

Lemma collect_demand_from_holds bookmarkedIds st :
  demand_inv db st →
  holds (foldl (demand_item db filterOptions) st bookmarkedIds)
  ↔ holds st
    ∨ ∃ r, r ∈ Database.crafting_recipes db
           ∧ counted_edge db filterOptions bookmarkedIds r
           ∧ hits (CraftingRecipe.item_id r) r.
Proof using holds_step.
  revert st. induction bookmarkedIds as [|b bs IH]; intros st Hst; simpl.
  - split; [by left|]. intros [?|(? & _ & [H _] & _)]; [done|].
    by apply elem_of_nil in H.
  - rewrite IH by by apply demand_item_inv. unfold demand_item.
    unfold counted_edge. setoid_rewrite elem_of_cons.
    destruct (is_paused filterOptions b) eqn:Hp.
    + split.
      * intros [?|(r & ? & (? & ? & ?) & ?)]; [by left|].
        right. exists r. split_and!; [done|by right|done|done|done].
      * intros [?|(r & ? & ([->|?] & ? & ?) & ?)]; [by left|congruence|].
        right. exists r. split_and!; done.
    + rewrite demand_recipes_holds by done. unfold query_recipes.
      setoid_rewrite list_elem_of_filter. split.
      * intros [[?|(r & [<- ?] & ? & ?)]|(r & ? & (? & ? & ?) & ?)];
          [by left| |].
        -- right. exists r. split_and!; [done|by left|done|done|done].
        -- right. exists r. split_and!; [done|by right|done|done|done].
      * intros [?|(r & ? & ([Hb|?] & ? & ?) & ?)]; [by left; left| |].
        -- left. right. exists r. rewrite <- Hb. split_and!; done.
        -- right. exists r. split_and!; done.
Qed.

Lemma collect_demand_holds bookmarkedIds :
  ¬ holds Demand.empty →
  holds (collect_demand db filterOptions bookmarkedIds)
  ↔ ∃ r, r ∈ Database.crafting_recipes db
         ∧ counted_edge db filterOptions bookmarkedIds r
         ∧ hits (CraftingRecipe.item_id r) r.
Proof using holds_step.
  intros Hempty. unfold collect_demand.
  rewrite collect_demand_from_holds by apply demand_inv_empty. tauto.
Qed.

End Tracing.

(** [list.includes(x) || list.push(x)] on the list stored under [k]. *)
Lemma map_list_set_add (k k' x : string) (m : list (string * list string)) :
  let m1 := if map_has k m then m else map_set k [] m in
  map_list k' (map_set k (set_add x (default [] (map_get k m1))) m1)
  = if decide (k' = k) then set_add x (map_list k m) else map_list k' m.
Proof.
  cbv zeta. unfold map_list.
  assert (H1 : ∀ j, default [] (map_get j (if map_has k m then m
                                           else map_set k [] m))
                    = default [] (map_get j m)).
  { intros j. unfold map_has. destruct (map_get k m) eqn:E; [done|].
    destruct (decide (k = j)) as [<-|Hne].
    - by rewrite map_get_set_eq, E.
    - by rewrite map_get_set_ne. }
  destruct (decide (k' = k)) as [->|Hne].
  - by rewrite map_get_set_eq, H1.
  - by rewrite map_get_set_ne, H1.
Qed.

Section DemandTrace.
Context (db : Database) (filterOptions : MaterialFilterOptions).

Lemma collect_demand_keys bookmarkedIds k :
  k ∈ map_keys (Demand.materialQuantityMap
                  (collect_demand db filterOptions bookmarkedIds))
  ↔ ∃ r, r ∈ Database.crafting_recipes db
         ∧ counted_edge db filterOptions bookmarkedIds r
         ∧ k = CraftingRecipe.ingredient_id r.
Proof.
  apply (collect_demand_holds db filterOptions
           (λ st, k ∈ map_keys (Demand.materialQuantityMap st))
           (λ _ r, k = CraftingRecipe.ingredient_id r)).
  - intros. by apply demand_recipe_keys.
  - apply not_elem_of_nil.
Qed.

Lemma demand_recipe_required k x itemId st recipe :
  demand_inv db st →
  x ∈ map_list k (Demand.materialRequiredByMap
                    (demand_recipe db filterOptions itemId st recipe))
  ↔ x ∈ map_list k (Demand.materialRequiredByMap st)
    ∨ (ingredient_passes db filterOptions recipe = true
       ∧ k = CraftingRecipe.ingredient_id recipe ∧ x = itemId).
Proof.
  intros [Hc _ _]. unfold demand_recipe, ingredient_passes.
  rewrite (cache_material_item_get db _ _ Hc).
  assert (Hskip : ∀ X : Prop,
            X ↔ X ∨ (false = true
                     ∧ k = CraftingRecipe.ingredient_id recipe ∧ x = itemId)).
  { intros X. split; [by left | by intros [?|[? _]]]. }
  destruct (query_item db (CraftingRecipe.ingredient_id recipe)) as [item|];
    simpl; [|apply Hskip].
  destruct (shouldIncludeMaterial item filterOptions); simpl; [|apply Hskip].
  rewrite map_list_set_add.
  destruct (decide (k = _)) as [->|Hne].
  - rewrite elem_of_set_add. split.
    + intros [->|?]; [by right | by left].
    + intros [?|(_ & _ & ->)]; [by right | by left].
  - split; [by left|]. by intros [?|(_ & ? & _)].
Qed.

Lemma demand_recipe_required_NoDup itemId st recipe :
  (∀ k, NoDup (map_list k (Demand.materialRequiredByMap st))) →
  ∀ k, NoDup (map_list k (Demand.materialRequiredByMap
                            (demand_recipe db filterOptions itemId st recipe))).
Proof.
  intros Hnd k. unfold demand_recipe.
  destruct (map_get _ (cache_material_item _ _ _)) as [item|]; [|apply Hnd].
  destruct (shouldIncludeMaterial item filterOptions); simpl; [|apply Hnd].
  rewrite map_list_set_add.
  destruct (decide (k = _)); [apply NoDup_set_add|]; apply Hnd.
Qed.

Lemma collect_demand_required bookmarkedIds k x :
  x ∈ map_list k (Demand.materialRequiredByMap
                    (collect_demand db filterOptions bookmarkedIds))
  ↔ ∃ r, r ∈ Database.crafting_recipes db
         ∧ counted_edge db filterOptions bookmarkedIds r
         ∧ k = CraftingRecipe.ingredient_id r
         ∧ x = CraftingRecipe.item_id r.
Proof.
  apply (collect_demand_holds db filterOptions
           (λ st, x ∈ map_list k (Demand.materialRequiredByMap st))
           (λ itemId r, k = CraftingRecipe.ingredient_id r ∧ x = itemId)).
  - intros. by apply demand_recipe_required.
  - apply not_elem_of_nil.
Qed.

Lemma collect_demand_required_NoDup bookmarkedIds k :
  NoDup (map_list k (Demand.materialRequiredByMap
                       (collect_demand db filterOptions bookmarkedIds))).
Proof.
  unfold collect_demand. revert k.
  assert (H : ∀ k, NoDup (map_list k (Demand.materialRequiredByMap
                                        Demand.empty))) by constructor.
  revert H. generalize Demand.empty.
  induction bookmarkedIds as [|b bs IH]; intros st Hst; simpl; [done|].
  apply IH. unfold demand_item. destruct (is_paused filterOptions b); [done|].
  clear IH. revert st Hst.
  induction (query_recipes db b) as [|r rs IHr]; intros st Hst; simpl; [done|].
  by apply IHr, demand_recipe_required_NoDup.
Qed.

End DemandTrace.

Lemma build_materials_entry (db : Database) (st : Demand)
    (entry : MaterialRequirement) :
  demand_inv db st →
  entry ∈ build_materials st →
  let k := Item.id (MaterialRequirement.item entry) in
  query_item db k = Some (MaterialRequirement.item entry)
  ∧ MaterialRequirement.totalQuantity entry
    = get_or_zero k (Demand.materialQuantityMap st)
  ∧ MaterialRequirement.requiredBy entry
    = map_list k (Demand.materialRequiredByMap st).
Proof.
  intros Hst. unfold build_materials. rewrite elem_of_js_sort.
  rewrite list_elem_of_omap. intros ([k v] & Hkv & Hentry).
  unfold material_entry in Hentry.
  destruct (map_get k (Demand.materialItemsMap st)) as [item|] eqn:E; [|done].
  injection Hentry as <-. simpl.
  apply (inv_cache _ _ Hst) in E.
  destruct (query_item_id _ _ _ E) as [-> _].
  split_and!; [done| |done].
  unfold get_or_zero.
  rewrite (elem_of_map_get _ _ _ (inv_keys _ _ Hst) Hkv).
  destruct (v =? 0) eqn:Hv; [by apply Z.eqb_eq in Hv|done].
Qed.

Lemma build_materials_ids_NoDup (db : Database) (st : Demand) :
  demand_inv db st →
  NoDup ((Item.id ∘ MaterialRequirement.item) <$> build_materials st).
Proof.
  intros Hst. unfold build_materials. rewrite js_sort_perm.
  rewrite (proj2 (material_entries_spec db st Hst _ (λ _ H, H))).
  apply (inv_keys _ _ Hst).
Qed.

(** X5.  The entries of [materials], for a bookmark set without
    repetition: one entry for every ingredient of a counted recipe row,
    each with the item row of the ingredient, the sum of the quantities of
    its counted rows, and the bookmarks of those rows, each once. *)
Theorem aggregateMaterials_material_entries (bookmarkedIds : list string)
    (db : Database) (scoringMethod : ScoringMethod)
    (filterOptions : MaterialFilterOptions) :
  NoDup bookmarkedIds →
  ∃ result,
    aggregateMaterials bookmarkedIds db scoringMethod filterOptions = Some result
    ∧ NoDup ((Item.id ∘ MaterialRequirement.item)
               <$> AggregatedMaterialsData.materials result)
    ∧ (∀ r, r ∈ Database.crafting_recipes db →
            counted_edge db filterOptions bookmarkedIds r →
            CraftingRecipe.ingredient_id r
            ∈ (Item.id ∘ MaterialRequirement.item)
                <$> AggregatedMaterialsData.materials result)
    ∧ ∀ entry, entry ∈ AggregatedMaterialsData.materials result →
        let k := Item.id (MaterialRequirement.item entry) in
        query_item db k = Some (MaterialRequirement.item entry)
        ∧ MaterialRequirement.totalQuantity entry
          = sumZ (CraftingRecipe.quantity
                    <$> filter (λ r, CraftingRecipe.ingredient_id r = k)
                          (filter (counted_edge db filterOptions bookmarkedIds)
                                  (Database.crafting_recipes db)))
        ∧ NoDup (MaterialRequirement.requiredBy entry)
        ∧ ∀ x, x ∈ MaterialRequirement.requiredBy entry
               ↔ ∃ r, r ∈ Database.crafting_recipes db
                      ∧ counted_edge db filterOptions bookmarkedIds r
                      ∧ k = CraftingRecipe.ingredient_id r
                      ∧ x = CraftingRecipe.item_id r.
Proof.
  intros Hnd.
  destruct (aggregateMaterials_total bookmarkedIds db scoringMethod filterOptions)
    as [result Hres].
  exists result. split; [done|].
  apply aggregateMaterials_unfold in Hres as (allSources & _ & ->). simpl.
  pose proof (collect_demand_inv db filterOptions bookmarkedIds) as Hinv.
  split_and!.
  - by apply (build_materials_ids_NoDup db).
  - intros r Hr Hc. rewrite (build_materials_ids db) by done.
    apply collect_demand_keys. by exists r.
  - intros entry Hentry.
    destruct (build_materials_entry db _ entry Hinv Hentry) as (Hitem & Hq & Hreq).
    split_and!; [done| | |].
    + by rewrite Hq, collect_demand_key_total.
    + rewrite Hreq. apply collect_demand_required_NoDup.
    + intros x. rewrite Hreq. apply collect_demand_required.
Qed.

(** ** Further properties of the result *)

(** X1.  No group of [groupedSources] is empty: after the two loops of
    step 3 every group has at least one item, so that [group.items[0]] is
    defined and step 4 scores the group without reading a field of
    [undefined]. *)
Theorem aggregateMaterials_groups_not_empty (bookmarkedIds : list string)
    (db : Database) (scoringMethod : ScoringMethod)
    (filterOptions : MaterialFilterOptions) :
  let demand := collect_demand db filterOptions bookmarkedIds in
  let materialQuantityMap := Demand.materialQuantityMap demand in
  let materialIds := map_keys materialQuantityMap in
  let excludedIds := excluded_ids bookmarkedIds materialIds filterOptions in
  let groupedSources :=
    collect_sources Recycle db excludedIds materialIds
      (collect_sources Salvage db excludedIds materialIds []) in
  let totalDemand := sumZ (map_values materialQuantityMap) in
  ∀ baseName group,
    (baseName, group) ∈ groupedSources →
    ∃ representativeItem source,
      head (SourceGroup.items group) = Some representativeItem
      ∧ score_group db scoringMethod materialQuantityMap totalDemand group
        = Some source
      ∧ SalvagingSource.item source = representativeItem
      ∧ SalvagingSource.baseName source = baseName.
Proof.
  intros demand materialQuantityMap materialIds excludedIds groupedSources
         totalDemand baseName group Hin.
  assert (Hgs : groups_inv db excludedIds groupedSources).
  { apply collect_sources_inv, collect_sources_inv, groups_inv_nil. }
  destruct Hgs as [_ Hfa]. rewrite Forall_forall in Hfa.
  pose proof (Hfa _ Hin) as Hg. simpl in Hg.
  destruct (SourceGroup.items group) as [|representativeItem items] eqn:E.
  { by destruct (grp_nonempty _ _ _ _ Hg). }
  unfold score_group. rewrite E. simpl.
  eexists _, _. split_and!; [done|done|done|].
  simpl. apply (grp_name _ _ _ _ Hg).
Qed.

(** X2.  A source whose two scores are both [0] is in neither output
    list. *)
Theorem aggregateMaterials_drops_zero_scores (bookmarkedIds : list string)
    (db : Database) (scoringMethod : ScoringMethod)
    (filterOptions : MaterialFilterOptions) :
  ∃ result,
    aggregateMaterials bookmarkedIds db scoringMethod filterOptions = Some result
    ∧ ∀ source,
        source ∈ AggregatedMaterialsData.salvageSources result
                 ++ AggregatedMaterialsData.recycleSources result →
        ¬ (eqb (SalvagingSource.salvageScore source) zero = true
           ∧ eqb (SalvagingSource.recycleScore source) zero = true).
Proof.
  destruct (aggregateMaterials_total bookmarkedIds db scoringMethod filterOptions)
    as [result Hres].
  exists result. split; [done|]. intros source Hin [Hs Hr].
  destruct (aggregateMaterials_lists _ _ _ _ _ source Hres)
    as (allSources & _ & Hsal & Hrec).
  assert (is_Some (bucket_of source)) as [bucket Hb].
  { apply elem_of_app in Hin as [Hin|Hin];
      [apply Hsal in Hin as [-> _] | apply Hrec in Hin as [-> _]]; eauto. }
  unfold bucket_of in Hb. by rewrite Hs, Hr in Hb.
Qed.

(** X3.  The slot-efficiency bonus of a slot efficiency that is a number
    (not NaN) is at least 1. *)
Theorem slot_bonus_at_least_one (slotEfficiency : number) :
  is_nan slotEfficiency = false →
  geb (slot_bonus slotEfficiency) one = true.
Proof.
  destruct slotEfficiency as [se| | |]; [|done..].
  intros _. destruct (slot_bonus_fin se) as (sb & -> & Hsb).
  unfold geb, ltb, eqb, one.
  destruct (Qltb 1 sb) eqn:E; [done|]. simpl.
  apply Qltb_ge in E. apply Qeq_bool_iff. by apply Qle_antisym.
Qed.

(** X4.  Multiplying a non-negative score by a finite bonus of at least 1
    does not decrease it. *)
Theorem bonus_keeps_score (score bonus : Q) :
  (0 <= score)%Q → (1 <= bonus)%Q →
  geb (Fin score * Fin bonus)%js (Fin score) = true.
Proof.
  intros Hs Hb. unfold geb, ltb, eqb, mul.
  destruct (Qltb score (score * bonus)) eqn:E; [done|]. simpl.
  apply Qltb_ge in E. apply Qeq_bool_iff. apply Qle_antisym; [done|]. nra.
Qed.

(** [arr.sort(cmp)] sorts by every relation [R] that holds between [x] and
    [y] when [cmp] lets [x] stay before [y], and between [y] and [x] when it
    asks for [x] after [y]. *)
Section JsSortSorted.
Context {A : Type} (after : A → A → bool) (R : A → A → Prop).
Hypothesis stay : ∀ x y, after x y = false → R x y.
Hypothesis swap : ∀ x y, after x y = true → R y x.

Lemma sort_insert_HdRel (x y : A) (l : list A) :
  R y x → HdRel R y l → HdRel R y (sort_insert after x l).
Proof.
  intros Hyx Hhd. destruct l as [|z l]; simpl; [by constructor|].
  destruct (after x z); constructor; [by inversion Hhd | done].
Qed.

Lemma sort_insert_Sorted (x : A) (l : list A) :
  Sorted R l → Sorted R (sort_insert after x l).
Proof using stay swap.
  induction 1 as [|y l Hl IH Hhd]; simpl.
  - by repeat constructor.
  - destruct (after x y) eqn:E.
    + constructor; [done|]. apply sort_insert_HdRel; [|done]. by apply swap.
    + constructor; [by constructor|]. constructor. by apply stay.
Qed.

Lemma js_sort_Sorted (l : list A) : Sorted R (js_sort after l).
Proof using stay swap.
  induction l as [|x l IH]; simpl; [constructor|].
  by apply sort_insert_Sorted.
Qed.

End JsSortSorted.

(** X6.  [materials] is sorted by [totalQuantity], largest first. *)
Theorem aggregateMaterials_materials_sorted (bookmarkedIds : list string)
    (db : Database) (scoringMethod : ScoringMethod)
    (filterOptions : MaterialFilterOptions) :
  ∃ result,
    aggregateMaterials bookmarkedIds db scoringMethod filterOptions = Some result
    ∧ Sorted (λ a b, MaterialRequirement.totalQuantity b
                     <= MaterialRequirement.totalQuantity a)
             (AggregatedMaterialsData.materials result).
Proof.
  destruct (aggregateMaterials_total bookmarkedIds db scoringMethod filterOptions)
    as [result Hres].
  exists result. split; [done|].
  apply aggregateMaterials_unfold in Hres as (allSources & _ & ->). simpl.
  unfold build_materials. apply js_sort_Sorted.
  - intros a b. unfold material_after. intros H%Z.ltb_ge. lia.
  - intros a b. unfold material_after. intros H%Z.ltb_lt. lia.
Qed.

(** X7.  With every bookmark paused (or no bookmark at all) the result is
    empty. *)
Theorem aggregateMaterials_all_paused (bookmarkedIds : list string)
    (db : Database) (scoringMethod : ScoringMethod)
    (filterOptions : MaterialFilterOptions) :
  (∀ itemId, itemId ∈ bookmarkedIds → is_paused filterOptions itemId = true) →
  aggregateMaterials bookmarkedIds db scoringMethod filterOptions
  = Some (AggregatedMaterialsData.mk [] [] [] [] []).
Proof.
  intros Hpaused.
  assert (Hdemand : collect_demand db filterOptions bookmarkedIds = Demand.empty).
  { unfold collect_demand. generalize Demand.empty.
    induction bookmarkedIds as [|b bs IH]; intros st; simpl; [done|].
    unfold demand_item at 2. rewrite Hpaused by left.
    apply IH. intros. apply Hpaused. by right. }
  unfold aggregateMaterials, all_sources. by rewrite Hdemand.
Qed.

(** X8.  Every entry of [materials] passes the material filters: its
    rarity is one of [rarityFilters], and with [hideScrappyCollected] set
    its id is not one of the six auto-collected materials. *)
Theorem aggregateMaterials_materials_filtered (bookmarkedIds : list string)
    (db : Database) (scoringMethod : ScoringMethod)
    (filterOptions : MaterialFilterOptions) :
  ∃ result,
    aggregateMaterials bookmarkedIds db scoringMethod filterOptions = Some result
    ∧ ∀ entry, entry ∈ AggregatedMaterialsData.materials result →
        Item.rarity (MaterialRequirement.item entry)
          ∈ MaterialFilterOptions.rarityFilters filterOptions
        ∧ (MaterialFilterOptions.hideScrappyCollected filterOptions = true →
           Item.id (MaterialRequirement.item entry) ∉ SCRAPPY_MATERIALS).
Proof.
  destruct (aggregateMaterials_total bookmarkedIds db scoringMethod filterOptions)
    as [result Hres].
  exists result. split; [done|]. intros entry Hentry.
  apply aggregateMaterials_unfold in Hres as (allSources & _ & ->).
  simpl in Hentry.
  pose proof (collect_demand_inv db filterOptions bookmarkedIds) as Hinv.
  destruct (build_materials_entry db _ entry Hinv Hentry) as (Hitem & _ & _).
  assert (Hkey : Item.id (MaterialRequirement.item entry)
                 ∈ map_keys (Demand.materialQuantityMap
                               (collect_demand db filterOptions bookmarkedIds))).
  { apply (build_materials_ids db _ Hinv).
    by apply (list_elem_of_fmap_2 (Item.id ∘ MaterialRequirement.item)). }
  apply collect_demand_keys in Hkey as (r & _ & (_ & _ & Hpass) & Hk).
  unfold ingredient_passes in Hpass. rewrite <- Hk, Hitem in Hpass.
  unfold shouldIncludeMaterial in Hpass.
  case_bool_decide as Hrarity; [|done]. split; [done|].
  intros Hhide. rewrite Hhide in Hpass. simpl in Hpass.
  by case_bool_decide.
Qed.

(** X9.  [Math.round(total / memberCount)] is [0] when the total is not
    negative and less than half of the member count. *)
Theorem Math_round_below_half (totalYield : Z) (memberCount : nat) :
  0 <= totalYield →
  2 * totalYield < Z.of_nat memberCount →
  Math_round (inject_Z totalYield / inject_Z (Z.of_nat memberCount)) = 0.
Proof.
  intros Hpos Hhalf. unfold Math_round.
  set (n := Z.of_nat memberCount) in *.
  set (x := (inject_Z totalYield / inject_Z n + (1 # 2))%Q).
  assert (Hn : (0 < inject_Z n)%Q).
  { change 0%Q with (inject_Z 0). rewrite <- Zlt_Qlt. lia. }
  assert (Hq0 : (0 <= inject_Z totalYield / inject_Z n)%Q).
  { apply Qle_shift_div_l; [done|]. rewrite Qmult_0_l.
    change 0%Q with (inject_Z 0). rewrite <- Zle_Qle. lia. }
  assert (Hq1 : (inject_Z totalYield / inject_Z n < 1 # 2)%Q).
  { apply Qlt_shift_div_r; [done|].
    assert (H2 : (inject_Z (2 * totalYield) < inject_Z n)%Q)
      by by rewrite <- Zlt_Qlt.
    rewrite inject_Z_mult in H2. change (inject_Z 2) with 2%Q in H2. lra. }
  assert (Hlo : (0 <= Qfloor x)%Z).
  { change 0%Z with (Qfloor 0). apply Qfloor_resp_le. subst x. lra. }
  assert (Hhi : (Qfloor x < 1)%Z).
  { rewrite Zlt_Qlt. eapply Qle_lt_trans; [apply Qfloor_le|]. subst x.
    change (inject_Z 1) with 1%Q. lra. }
  lia.
Qed.

(** ** No score is negative *)

Lemma signed_inf_not_negative (a : Q) :
  (0 <= a)%Q → not_negative (signed_inf a PInf NInf).
Proof.
  intros Ha. unfold signed_inf. destruct (Qltb 0 a); [done|].
  destruct (Qltb a 0) eqn:E; [|done]. apply Qltb_lt in E. lra.
Qed.

Lemma add_not_negative (x y : number) :
  not_negative x → not_negative y → not_negative (x + y)%js.
Proof.
  destruct x as [a| | |], y as [b| | |]; simpl; try done.
  intros. lra.
Qed.

Lemma mul_not_negative (x y : number) :
  not_negative x → not_negative y → not_negative (x * y)%js.
Proof.
  destruct x as [a| | |], y as [b| | |]; simpl; intros Hx Hy; try done;
    first [by apply signed_inf_not_negative | by apply Qmult_le_0_compat].
Qed.

Lemma div_not_negative (x y : number) :
  not_negative x → not_negative y → not_negative (x / y)%js.
Proof.
  destruct x as [a| | |], y as [b| | |]; simpl; try done.
  - intros Ha Hb. destruct (Qeq_bool b 0) eqn:E.
    + by apply signed_inf_not_negative.
    + simpl. apply Qeq_bool_false in E.
      assert (Hb0 : (0 < b)%Q).
      { apply Qle_lteq in Hb as [H|H]; [done|]. exfalso. apply E. by symmetry. }
      apply Qle_shift_div_l; [done|]. by rewrite Qmult_0_l.
  - intros _ Hb. destruct (Qltb b 0) eqn:E; [|done]. apply Qltb_lt in E. lra.
Qed.

Lemma pow_not_negative (x : number) (n : Z) :
  not_negative x → not_negative (pow x n).
Proof.
  unfold pow. destruct (n =? 0); [simpl; lra|].
  destruct x as [a| | |]; simpl; try done.
  - intros Ha. destruct (Qeq_bool a 0); [destruct (0 <? n); simpl; [lra|done]|].
    simpl. by apply Qpower_0_le.
  - intros _. destruct (0 <? n); simpl; [done|lra].
Qed.

Lemma max_not_negative (x y : number) :
  not_negative x → not_negative y → not_negative (JsNumber.max x y).
Proof.
  destruct x as [a| | |], y as [b| | |]; simpl; try done.
  by destruct (Qltb a b).
Qed.

Lemma min_not_negative (x y : number) :
  not_negative x → not_negative y → not_negative (JsNumber.min x y).
Proof.
  destruct x as [a| | |], y as [b| | |]; simpl; try done.
  by destruct (Qltb b a).
Qed.

Lemma ofZ_not_negative (z : Z) : 0 <= z → not_negative (ofZ z).
Proof.
  intros Hz. simpl. change 0%Q with (inject_Z 0). by rewrite <- Zle_Qle.
Qed.

Lemma slot_bonus_not_negative (slotEfficiency : number) :
  not_negative (slot_bonus slotEfficiency).
Proof.
  destruct slotEfficiency as [se| | |]; try done.
  destruct (slot_bonus_fin se) as (sb & -> & Hsb). simpl. lra.
Qed.

Lemma rarity_factor_not_negative (c u r e l : Q) (rarity : string) :
  (0 < c)%Q → (0 < u)%Q → (0 < r)%Q → (0 < e)%Q → (0 < l)%Q →
  not_negative (rarity_factor (rarity_table c u r e l) rarity).
Proof.
  intros Hc Hu Hr He Hl.
  destruct (decide (rarity ∈ OBJECT_PROTOTYPE_KEYS)) as [Hkey|Hkey].
  - by rewrite rarity_table_inherited.
  - destruct (rarity_table_positive c u r e l rarity) as (p & -> & Hp);
      try done.
    simpl. lra.
Qed.

Lemma Math_round_not_negative (q : Q) : (0 <= q)%Q → 0 <= Math_round q.
Proof.
  intros Hq. unfold Math_round. change 0 with (Qfloor 0).
  apply Qfloor_resp_le. lra.
Qed.

Lemma max_not_negative_l (x y : number) :
  not_negative x → not_negative (JsNumber.max x y).
Proof.
  destruct x as [a| | |], y as [b| | |]; simpl; try done.
  intros Ha. destruct (Qltb a b) eqn:E; [|done]. apply Qltb_lt in E.
  simpl. lra.
Qed.

Lemma Qdiv_le_0_compat (a b : Q) : (0 <= a)%Q → (0 <= b)%Q → (0 <= a / b)%Q.
Proof.
  intros Ha Hb. apply Qmult_le_0_compat; [done|]. by apply Qinv_le_0_compat.
Qed.

Section ScoresNotNegative.
Context (db : Database).
Hypothesis Hitems : ∀ item, item ∈ Database.items db →
  (0 <= Item.weight_kg item)%Q ∧ 0 <= Item.value item.

Lemma average_yields_not_negative qmap memberCount yields :
  (∀ m t, (m, t) ∈ yields → 0 <= t) →
  ∀ m y, (m, y) ∈ average_yields qmap memberCount yields → 0 <= y.
Proof.
  unfold average_yields. intros Hyields.
  assert (H0 : ∀ m y, (m, y) ∈ ([] : list (string * Z)) → 0 <= y).
  { intros m y H. by apply elem_of_nil in H. }
  revert H0. generalize ([] : list (string * Z)).
  induction yields as [|[m t] yields IH]; intros acc Hacc; cbn [foldl]; [done|].
  apply IH.
  - intros m' t' Hin. apply (Hyields m' t'). by right.
  - destruct (map_has m qmap); [|done]. intros m' y Hin.
    apply elem_of_map_set in Hin as [[_ ->]|Hin]; [|by apply (Hacc m')].
    apply Math_round_not_negative, Qdiv_le_0_compat.
    + change 0%Q with (inject_Z 0). rewrite <- Zle_Qle.
      apply (Hyields m t). left.
    + change 0%Q with (inject_Z 0). rewrite <- Zle_Qle. lia.
Qed.

Lemma base_score_not_negative qmap totalDemand avgYields :
  (∀ k, 0 <= get_or_zero k qmap) →
  0 <= totalDemand →
  (∀ m y, (m, y) ∈ avgYields → 0 <= y) →
  not_negative (base_score qmap totalDemand avgYields).
Proof.
  intros Hq Hd Hy. unfold base_score.
  destruct (_ && _); [|by compute].
  assert (H0 : not_negative zero) by (by compute).
  revert H0. generalize zero.
  induction avgYields as [|[m y] l IH]; intros acc Hacc; cbn [foldl]; [done|].
  apply IH.
  - intros m' y' Hin. apply (Hy m' y'). by right.
  - unfold add_weighted_yield.
    apply add_not_negative; [done|]. apply mul_not_negative.
    + apply ofZ_not_negative, (Hy m y). left.
    + apply div_not_negative; by apply ofZ_not_negative.
Qed.

Lemma total_yield_weight_not_negative avgSalvageYields :
  (∀ m y, (m, y) ∈ avgSalvageYields → 0 <= y) →
  not_negative (total_yield_weight db avgSalvageYields).
Proof using Hitems.
  intros Hy. unfold total_yield_weight.
  assert (H0 : not_negative zero) by (by compute).
  revert H0. generalize zero.
  induction avgSalvageYields as [|[m y] l IH]; intros acc Hacc; cbn [foldl];
    [done|].
  apply IH.
  - intros m' y' Hin. apply (Hy m' y'). by right.
  - destruct (query_item db m) as [item|] eqn:E; [|done].
    apply add_not_negative; [done|]. apply mul_not_negative.
    + apply ofZ_not_negative, (Hy m y). left.
    + apply query_item_id in E as [_ E]. by apply Hitems.
Qed.

Lemma salvage_score_not_negative scoringMethod representativeItem
    salvageBaseScore avgSalvageYields :
  representativeItem ∈ Database.items db →
  not_negative salvageBaseScore →
  (∀ m y, (m, y) ∈ avgSalvageYields → 0 <= y) →
  not_negative (salvage_score db scoringMethod representativeItem
                              salvageBaseScore avgSalvageYields).
Proof using Hitems.
  intros Hrep Hbase Hy. unfold salvage_score.
  assert (Hw : not_negative (effective_weight db representativeItem
                                              avgSalvageYields)).
  { unfold effective_weight. destruct (gtb _ _).
    - by apply total_yield_weight_not_negative.
    - by apply Hitems. }
  apply mul_not_negative; [|apply slot_bonus_not_negative].
  apply mul_not_negative; [|by compute].
  apply mul_not_negative;
    [|by apply rarity_factor_not_negative; compute].
  apply div_not_negative; [done|].
  destruct scoringMethod; [done | by apply pow_not_negative].
Qed.

Lemma recycle_score_not_negative scoringMethod representativeItem
    recycleBaseScore avgRecycleYields :
  representativeItem ∈ Database.items db →
  not_negative recycleBaseScore →
  not_negative (recycle_score db scoringMethod representativeItem
                              recycleBaseScore avgRecycleYields).
Proof using Hitems.
  intros Hrep Hbase. unfold recycle_score.
  destruct (Hitems _ Hrep) as [Hw Hv].
  assert (Hrar : not_negative
            (rarity_factor RARITY_RECYCLE_BONUS (Item.rarity representativeItem)))
    by (by apply rarity_factor_not_negative; compute).
  assert (Hmulti : ∀ n, not_negative (multiMaterialBonus n)).
  { intros n. apply pow_not_negative. by compute. }
  apply mul_not_negative; [|apply slot_bonus_not_negative].
  destruct scoringMethod.
  - repeat (apply mul_not_negative; [|done || by compute]).
    by apply div_not_negative.
  - apply mul_not_negative; [|by compute].
    apply mul_not_negative.
    + apply mul_not_negative.
      * repeat (apply mul_not_negative; [|done]).
        apply div_not_negative; [done|]. by apply pow_not_negative.
      * apply max_not_negative_l. by compute.
    + apply min_not_negative; [by compute|].
      apply add_not_negative; [by compute|].
      apply mul_not_negative; [|by compute].
      apply div_not_negative; [by apply ofZ_not_negative | by compute].
Qed.

End ScoresNotNegative.

Lemma sumZ_not_negative (l : list Z) : (∀ x, x ∈ l → 0 <= x) → 0 <= sumZ l.
Proof.
  induction l as [|x l IH]; intros Hl; [done|]. rewrite sumZ_cons.
  assert (0 <= x) by (apply Hl; left).
  assert (0 <= sumZ l) by (apply IH; intros; apply Hl; by right). lia.
Qed.

Lemma get_or_zero_not_negative (k : string) (m : list (string * Z)) :
  (∀ k' v, (k', v) ∈ m → 0 <= v) → 0 <= get_or_zero k m.
Proof.
  intros Hm. unfold get_or_zero. destruct (map_get k m) as [v|] eqn:E; [|done].
  destruct (v =? 0); [done|]. apply (Hm k). by apply map_get_Some_elem.
Qed.

Lemma map_set_add_not_negative (k : string) (q : Z) (m : list (string * Z)) :
  0 <= q →
  (∀ k' v, (k', v) ∈ m → 0 <= v) →
  ∀ k' v, (k', v) ∈ map_set k (get_or_zero k m + q) m → 0 <= v.
Proof.
  intros Hq Hm k' v Hin.
  apply elem_of_map_set in Hin as [[_ ->]|Hin]; [|by apply (Hm k')].
  pose proof (get_or_zero_not_negative k m Hm). lia.
Qed.

Lemma query_sources_quantity (kind : YieldKind) (db : Database)
    (materialId : string) (excludedIds : gset string) (item : Item) (q : Z) :
  store_not_negative db →
  (item, q) ∈ query_sources kind db materialId excludedIds → 0 <= q.
Proof.
  intros Hdb. destruct kind; simpl;
    unfold query_salvage_sources, query_recycle_sources;
    rewrite list_elem_of_bind; intros (row & Hrow & Hin);
    apply list_elem_of_fmap in Hrow as (i & [= -> ->] & _);
    apply list_elem_of_filter in Hin as [_ Hin].
  - by apply (nn_salvaging db).
  - by apply (nn_recycling db).
Qed.

Section StoreNotNegative.
Context (db : Database) (Hdb : store_not_negative db).

Lemma collect_demand_not_negative filterOptions bookmarkedIds :
  ∀ k v,
    (k, v) ∈ Demand.materialQuantityMap
               (collect_demand db filterOptions bookmarkedIds) →
    0 <= v.
Proof using Hdb.
  unfold collect_demand.
  assert (H0 : ∀ k v, (k, v) ∈ Demand.materialQuantityMap Demand.empty →
                      0 <= v).
  { intros k v H. by apply elem_of_nil in H. }
  revert H0. generalize Demand.empty.
  induction bookmarkedIds as [|b bs IH]; intros st Hst; simpl; [done|].
  apply IH. unfold demand_item. destruct (is_paused filterOptions b); [done|].
  assert (Hrows : ∀ r, r ∈ query_recipes db b → 0 <= CraftingRecipe.quantity r).
  { intros r Hr. apply list_elem_of_filter in Hr as [_ Hr].
    by apply (nn_recipes db). }
  clear IH. revert st Hst Hrows.
  induction (query_recipes db b) as [|r rs IHr]; intros st Hst Hrows; simpl;
    [done|].
  apply IHr; [|intros; apply Hrows; by right].
  unfold demand_recipe.
  destruct (map_get _ (cache_material_item _ _ _)) as [item|]; [|done].
  destruct (shouldIncludeMaterial item filterOptions); simpl; [|done].
  apply map_set_add_not_negative; [|done]. apply Hrows. left.
Qed.

Lemma add_source_not_negative kind materialId gs item q :
  0 <= q →
  Forall yields_not_negative (map_values gs) →
  Forall yields_not_negative
         (map_values (add_source kind materialId gs (item, q))).
Proof.
  intros Hq Hgs. unfold add_source.
  set (key := getBaseName (Item.name item)).
  set (group := default (SourceGroup.mk [] [] [] key) (map_get key gs)).
  assert (Hgroup : yields_not_negative group).
  { subst group. destruct (map_get key gs) as [g|] eqn:E; simpl.
    - rewrite Forall_forall in Hgs. apply Hgs.
      apply map_get_Some_elem in E.
      by apply (list_elem_of_fmap_2 snd) in E.
    - split; intros m t H; by apply elem_of_nil in H. }
  destruct Hgroup as [Hs Hr].
  apply Forall_forall. intros g Hg.
  apply map_values_set_elem in Hg as [->|Hg];
    [|rewrite Forall_forall in Hgs; by apply Hgs].
  destruct kind; split; simpl; try done;
    by apply map_set_add_not_negative.
Qed.

Lemma collect_sources_not_negative kind excludedIds materialIds gs :
  Forall yields_not_negative (map_values gs) →
  Forall yields_not_negative
         (map_values (collect_sources kind db excludedIds materialIds gs)).
Proof using Hdb.
  unfold collect_sources. revert gs.
  induction materialIds as [|m ms IH]; intros gs Hgs; simpl; [done|].
  apply IH.
  assert (Hq : ∀ item q, (item, q) ∈ query_sources kind db m excludedIds →
                         0 <= q).
  { intros item q. by apply query_sources_quantity. }
  revert gs Hgs Hq.
  induction (query_sources kind db m excludedIds) as [|[item q] l IHl];
    intros gs Hgs Hq; simpl; [done|].
  apply IHl; [|intros; eapply Hq; by right].
  apply add_source_not_negative; [|done]. apply (Hq item). left.
Qed.

End StoreNotNegative.

Lemma mapM_Some_elem {A B : Type} (f : A → option B) (l : list A)
    (k : list B) (y : B) :
  mapM f l = Some k → y ∈ k → ∃ x, x ∈ l ∧ f x = Some y.
Proof.
  intros Hm%mapM_Some Hy. induction Hm as [|x y' l k Hxy _ IH].
  - by apply elem_of_nil in Hy.
  - apply elem_of_cons in Hy as [->|Hy].
    + exists x. split; [left|done].
    + destruct (IH Hy) as (x' & Hx' & Hfx). exists x'. split; [by right|done].
Qed.

Lemma build_sources_elem db scoringMethod qmap totalDemand gs sources source :
  build_sources db scoringMethod qmap totalDemand gs = Some sources →
  source ∈ sources →
  ∃ group, group ∈ map_values gs
           ∧ score_group db scoringMethod qmap totalDemand group = Some source.
Proof.
  unfold build_sources. intros Hb Hs.
  destruct (mapM_Some_elem _ _ _ _ Hb Hs) as (g & Hg & Hsc).
  exists g. split; [|done]. by apply list_elem_of_filter in Hg as [_ ?].
Qed.

(** X10.  Over a store without negative quantities, weights or values, no
    score of a source of the two output lists is negative: it is a number
    that is at least 0, +Infinity or NaN. *)
Theorem aggregateMaterials_scores_not_negative (bookmarkedIds : list string)
    (db : Database) (scoringMethod : ScoringMethod)
    (filterOptions : MaterialFilterOptions) :
  store_not_negative db →
  ∃ result,
    aggregateMaterials bookmarkedIds db scoringMethod filterOptions = Some result
    ∧ ∀ source,
        source ∈ AggregatedMaterialsData.salvageSources result
                 ++ AggregatedMaterialsData.recycleSources result →
        not_negative (SalvagingSource.salvageScore source)
        ∧ not_negative (SalvagingSource.recycleScore source).
Proof.
  intros Hdb.
  destruct (aggregateMaterials_total bookmarkedIds db scoringMethod filterOptions)
    as [result Hres].
  exists result. split; [done|]. intros source Hin.
  destruct (aggregateMaterials_lists _ _ _ _ _ source Hres)
    as (allSources & Hall & Hsal & Hrec).
  assert (Hsrc : source ∈ allSources).
  { apply elem_of_app in Hin as [Hin|Hin]; [by apply Hsal | by apply Hrec]. }
  clear Hin Hsal Hrec Hres.
  pose proof (all_sources_spec _ _ _ _ _ Hall) as [_ Hspec].
  destruct (Hspec source Hsrc) as (Hitem & _ & _).
  unfold all_sources in Hall.
  destruct (build_sources_elem _ _ _ _ _ _ _ Hall Hsrc) as (group & Hg & Hsc).
  pose proof (collect_demand_not_negative db Hdb filterOptions bookmarkedIds)
    as Hq.
  assert (Hyields : yields_not_negative group).
  { eapply Forall_forall; [|exact Hg].
    apply collect_sources_not_negative, collect_sources_not_negative; done. }
  destruct Hyields as [Hys Hyr].
  unfold score_group in Hsc.
  destruct (head (SourceGroup.items group)) as [rep|]; [|done].
  injection Hsc as <-. simpl in *.
  assert (Hbase : ∀ yields,
            (∀ m t, (m, t) ∈ yields → 0 <= t) →
            not_negative
              (base_score
                 (Demand.materialQuantityMap
                    (collect_demand db filterOptions bookmarkedIds))
                 (sumZ (map_values
                          (Demand.materialQuantityMap
                             (collect_demand db filterOptions bookmarkedIds))))
                 (average_yields
                    (Demand.materialQuantityMap
                       (collect_demand db filterOptions bookmarkedIds))
                    (length (SourceGroup.items group)) yields))).
  { intros yields Hy. apply base_score_not_negative.
    - intros k. by apply get_or_zero_not_negative.
    - apply sumZ_not_negative. intros v Hv.
      apply list_elem_of_fmap in Hv as ([k v'] & -> & Hv). by apply (Hq k).
    - by apply average_yields_not_negative. }
  split.
  - apply salvage_score_not_negative; [apply (nn_items db Hdb)|done|auto|].
    by apply average_yields_not_negative.
  - apply recycle_score_not_negative; [apply (nn_items db Hdb)|done|auto].
Qed.

(** X11.  Each output list is sorted by its own score, largest first:
    of two neighbours of [salvageSources] whose [salvageScore] is a finite
    number the first has the larger or an equal score, and likewise for
    [recycleSources] and [recycleScore]. *)
Theorem aggregateMaterials_sources_sorted (bookmarkedIds : list string)
    (db : Database) (scoringMethod : ScoringMethod)
    (filterOptions : MaterialFilterOptions) :
  ∃ result,
    aggregateMaterials bookmarkedIds db scoringMethod filterOptions = Some result
    ∧ Sorted (λ a b, ∀ qa qb,
                SalvagingSource.salvageScore a = Fin qa →
                SalvagingSource.salvageScore b = Fin qb → (qb <= qa)%Q)
             (AggregatedMaterialsData.salvageSources result)
    ∧ Sorted (λ a b, ∀ qa qb,
                SalvagingSource.recycleScore a = Fin qa →
                SalvagingSource.recycleScore b = Fin qb → (qb <= qa)%Q)
             (AggregatedMaterialsData.recycleSources result).
Proof.
  destruct (aggregateMaterials_total bookmarkedIds db scoringMethod filterOptions)
    as [result Hres].
  exists result. split; [done|].
  apply aggregateMaterials_unfold in Hres as (allSources & _ & ->). simpl.
  split; apply js_sort_Sorted.
  - intros a b. unfold salvage_after. intros H qa qb Ha Hb.
    rewrite Ha, Hb in H. simpl in H. apply Qltb_ge in H. lra.
  - intros a b. unfold salvage_after. intros H qb qa Hb Ha.
    rewrite Ha, Hb in H. simpl in H. apply Qltb_lt in H. lra.
  - intros a b. unfold recycle_after. intros H qa qb Ha Hb.
    rewrite Ha, Hb in H. simpl in H. apply Qltb_ge in H. lra.
  - intros a b. unfold recycle_after. intros H qb qa Hb Ha.
    rewrite Ha, Hb in H. simpl in H. apply Qltb_lt in H. lra.
Qed.


(** * Properties of the code around the aggregation *)

(** ** More about the result of [aggregateMaterials] *)

Lemma average_yields_keys (qmap : list (string * Z)) (memberCount : nat)
    (yieldsMap : list (string * Z)) (k : string) :
  k ∈ map_keys (average_yields qmap memberCount yieldsMap)
  ↔ k ∈ map_keys yieldsMap ∧ k ∈ map_keys qmap.
Proof.
  unfold average_yields.
  assert (H : ∀ acc,
    k ∈ map_keys (foldl (λ avgYields '(materialId, totalYield),
                           if map_has materialId qmap
                           then map_set materialId
                                  (Math_round (inject_Z totalYield
                                               / inject_Z (Z.of_nat memberCount))%Q)
                                  avgYields
                           else avgYields) acc yieldsMap)
    ↔ k ∈ map_keys acc ∨ (k ∈ map_keys yieldsMap ∧ k ∈ map_keys qmap)).
  { induction yieldsMap as [|[m t] l IH]; intros acc; cbn [foldl].
    - unfold map_keys at 2. csimpl. rewrite elem_of_nil. tauto.
    - rewrite IH. unfold map_keys at 3. csimpl. fold (map_keys l).
      rewrite elem_of_cons. destruct (map_has m qmap) eqn:E.
      + apply map_has_true in E. rewrite map_keys_set_elem.
        split.
        * intros [[H1|H1]|[H1 H2]]; subst; tauto.
        * intros [H1|[[H1|H1] H2]]; subst; tauto.
      + apply map_has_false in E.
        split; [tauto|]. intros [H1|[[H1|H1] H2]]; subst; tauto. }
  rewrite H. unfold map_keys at 1. csimpl. rewrite elem_of_nil. tauto.
Qed.

Lemma score_group_yields db scoringMethod qmap totalDemand group source :
  score_group db scoringMethod qmap totalDemand group = Some source →
  SalvagingSource.salvageYields source
  = average_yields qmap (length (SourceGroup.items group))
                   (SourceGroup.salvageYieldsMap group)
  ∧ SalvagingSource.recycleYields source
    = average_yields qmap (length (SourceGroup.items group))
                     (SourceGroup.recycleYieldsMap group).
Proof.
  unfold score_group. destruct (head (SourceGroup.items group)); [|done].
  by intros [= <-].
Qed.

Lemma foldl_map_set_keys {V : Type} (entries acc : list (string * V))
    (k : string) :
  k ∈ map_keys (foldl (λ m '(key, v), map_set key v m) acc entries)
  ↔ k ∈ map_keys acc ∨ k ∈ map_keys entries.
Proof.
  revert acc. induction entries as [|[key v] l IH]; intros acc; cbn [foldl].
  - unfold map_keys at 3. csimpl. rewrite elem_of_nil. tauto.
  - rewrite IH, map_keys_set_elem. unfold map_keys at 4. csimpl.
    fold (map_keys l). rewrite elem_of_cons. tauto.
Qed.

Lemma yield_ids_spec (source : SalvagingSource) (k : string) :
  k ∈ yield_ids source
  ↔ k ∈ map_keys (SalvagingSource.salvageYields source)
    ∨ k ∈ map_keys (SalvagingSource.recycleYields source).
Proof.
  unfold yield_ids, all_yields. rewrite foldl_map_set_keys.
  unfold map_keys. rewrite fmap_app, elem_of_app. csimpl.
  rewrite elem_of_nil. tauto.
Qed.

(** The sources of the two output lists are among the scored groups. *)
Lemma aggregateMaterials_sources bookmarkedIds db scoringMethod filterOptions
    result :
  aggregateMaterials bookmarkedIds db scoringMethod filterOptions = Some result →
  ∃ allSources,
    all_sources bookmarkedIds db scoringMethod filterOptions = Some allSources
    ∧ AggregatedMaterialsData.salvageSources result
      ≡ₚ filter (λ s, bucket_of s = Some SalvageBucket) allSources
    ∧ AggregatedMaterialsData.recycleSources result
      ≡ₚ filter (λ s, bucket_of s = Some RecycleBucket) allSources
    ∧ ∀ source,
        source ∈ AggregatedMaterialsData.salvageSources result
                 ++ AggregatedMaterialsData.recycleSources result →
        source ∈ allSources.
Proof.
  intros Hres. apply aggregateMaterials_unfold in Hres as (allSources & Hall & ->).
  exists allSources. split; [done|]. simpl.
  rewrite !js_sort_perm, split_sources_filter. simpl. split_and!; [done|done|].
  intros source Hs.
  apply elem_of_app in Hs as [Hs|Hs]; apply elem_of_js_sort in Hs;
    by apply list_elem_of_filter in Hs as [_ ?].
Qed.

(** X12.  No two sources of the output share a base name: all tiers of
    an item are one source.  The source carries an item row of the store,
    and its [baseName] is the base name of that row. *)
Theorem aggregateMaterials_one_source_per_base_name
    (bookmarkedIds : list string) (db : Database)
    (scoringMethod : ScoringMethod) (filterOptions : MaterialFilterOptions) :
  ∃ result,
    aggregateMaterials bookmarkedIds db scoringMethod filterOptions = Some result
    ∧ NoDup (SalvagingSource.baseName
               <$> (AggregatedMaterialsData.salvageSources result
                    ++ AggregatedMaterialsData.recycleSources result))
    ∧ ∀ source,
        source ∈ AggregatedMaterialsData.salvageSources result
                 ++ AggregatedMaterialsData.recycleSources result →
        SalvagingSource.item source ∈ Database.items db
        ∧ SalvagingSource.baseName source
          = getBaseName (Item.name (SalvagingSource.item source)).
Proof.
  destruct (aggregateMaterials_total bookmarkedIds db scoringMethod filterOptions)
    as [result Hres].
  exists result. split; [done|].
  apply aggregateMaterials_sources
    in Hres as (allSources & Hall & Hsal & Hrec & Hin).
  apply all_sources_spec in Hall as [Hnames Hall]. split.
  - rewrite Hsal, Hrec. apply NoDup_fmap_filter_app; [congruence | done].
  - intros source Hs. destruct (Hall source (Hin _ Hs)) as (? & ? & _). done.
Qed.

(** The yields of a scored group are yields of demanded materials. *)
Lemma all_sources_yields bookmarkedIds db scoringMethod filterOptions
    allSources source k :
  all_sources bookmarkedIds db scoringMethod filterOptions = Some allSources →
  source ∈ allSources →
  k ∈ yield_ids source →
  k ∈ map_keys (Demand.materialQuantityMap
                  (collect_demand db filterOptions bookmarkedIds)).
Proof.
  unfold all_sources. intros Hall Hs Hk.
  destruct (build_sources_elem _ _ _ _ _ _ _ Hall Hs) as (group & _ & Hsc).
  apply score_group_yields in Hsc as [Hsal Hrec].
  apply yield_ids_spec in Hk. rewrite Hsal, Hrec in Hk.
  rewrite !average_yields_keys in Hk. tauto.
Qed.

(** X13.  A source lists yields of demanded materials only, and the
    relationship map [materialToSources] has entries for demanded materials
    only, each a list of ids of sources of the output. *)
Theorem aggregateMaterials_yields_demanded (bookmarkedIds : list string)
    (db : Database) (scoringMethod : ScoringMethod)
    (filterOptions : MaterialFilterOptions) :
  ∃ result,
    aggregateMaterials bookmarkedIds db scoringMethod filterOptions = Some result
    ∧ let materialIds :=
        (Item.id ∘ MaterialRequirement.item)
          <$> AggregatedMaterialsData.materials result in
      let sources :=
        AggregatedMaterialsData.salvageSources result
        ++ AggregatedMaterialsData.recycleSources result in
      (∀ source materialId,
         source ∈ sources →
         materialId ∈ map_keys (SalvagingSource.salvageYields source)
                      ++ map_keys (SalvagingSource.recycleYields source) →
         materialId ∈ materialIds)
      ∧ (∀ materialId sourceId,
           sourceId ∈ map_list materialId
                        (AggregatedMaterialsData.materialToSources result) →
           materialId ∈ materialIds ∧ sourceId ∈ source_id <$> sources).
Proof.
  destruct (aggregateMaterials_total bookmarkedIds db scoringMethod filterOptions)
    as [result Hres].
  exists result. split; [done|]. cbv zeta.
  pose proof Hres as Hres'.
  apply aggregateMaterials_sources
    in Hres' as (allSources & Hall & _ & _ & Hin).
  pose proof (collect_demand_inv db filterOptions bookmarkedIds) as Hinv.
  assert (Hsrc : ∀ source materialId,
            source ∈ AggregatedMaterialsData.salvageSources result
                     ++ AggregatedMaterialsData.recycleSources result →
            materialId ∈ yield_ids source →
            materialId ∈ (Item.id ∘ MaterialRequirement.item)
                           <$> AggregatedMaterialsData.materials result).
  { intros source m Hs Hm. apply Hin in Hs.
    apply aggregateMaterials_unfold in Hres as (? & _ & ->). simpl.
    apply (build_materials_ids db); [done|].
    by apply (all_sources_yields _ _ _ _ _ _ _ Hall Hs). }
  split.
  - intros source m Hs Hm. apply (Hsrc source); [done|].
    apply yield_ids_spec. by apply elem_of_app in Hm.
  - intros m s Hms.
    assert (Hidx : ∃ source,
              source ∈ AggregatedMaterialsData.salvageSources result
                       ++ AggregatedMaterialsData.recycleSources result
              ∧ source_id source = s ∧ m ∈ yield_ids source).
    { pose proof Hres as Hres'.
      apply aggregateMaterials_unfold in Hres' as (? & _ & ->). simpl in *.
      unfold build_index in Hms.
      edestruct (build_index_from) as (I1 & _). apply I1 in Hms.
      destruct Hms as [Hms|Hms]; [by apply elem_of_nil in Hms | done]. }
    destruct Hidx as (source & Hs & <- & Hm). split.
    + by apply (Hsrc source).
    + by apply list_elem_of_fmap_2.
Qed.

(** The demand does not read [pausedBookmarks] once the paused bookmarks
    are left out. *)
Lemma collect_demand_paused (db : Database)
    (filterOptions : MaterialFilterOptions) (bookmarkedIds : list string) :
  let unpaused :=
    MaterialFilterOptions.mk
      (MaterialFilterOptions.hideScrappyCollected filterOptions)
      (MaterialFilterOptions.rarityFilters filterOptions)
      (MaterialFilterOptions.hiddenSourceItems filterOptions)
      None in
  collect_demand db filterOptions bookmarkedIds
  = collect_demand db unpaused
      (filter (λ id, is_paused filterOptions id = false) bookmarkedIds).
Proof.
  cbv zeta. unfold collect_demand. generalize Demand.empty.
  induction bookmarkedIds as [|b bs IH]; intros st; [done|].
  rewrite filter_cons. cbn [foldl]. rewrite IH.
  unfold demand_item at 2. destruct (is_paused filterOptions b) eqn:E.
  - by rewrite decide_False.
  - rewrite decide_True by done. cbn [foldl]. f_equal.
Qed.

(** X14.  Pausing bookmarks changes [materials] as removing them does:
    the materials for a bookmark set with paused members are the materials
    for the set of the members that are not paused. *)
Theorem aggregateMaterials_paused_as_removed (bookmarkedIds : list string)
    (db : Database) (scoringMethod : ScoringMethod)
    (filterOptions : MaterialFilterOptions) :
  let active :=
    filter (λ id, is_paused filterOptions id = false) bookmarkedIds in
  let unpaused :=
    MaterialFilterOptions.mk
      (MaterialFilterOptions.hideScrappyCollected filterOptions)
      (MaterialFilterOptions.rarityFilters filterOptions)
      (MaterialFilterOptions.hiddenSourceItems filterOptions)
      None in
  ∃ paused removed,
    aggregateMaterials bookmarkedIds db scoringMethod filterOptions = Some paused
    ∧ aggregateMaterials active db scoringMethod unpaused = Some removed
    ∧ AggregatedMaterialsData.materials paused
      = AggregatedMaterialsData.materials removed.
Proof.
  cbv zeta.
  destruct (aggregateMaterials_total bookmarkedIds db scoringMethod filterOptions)
    as [paused Hp].
  edestruct (aggregateMaterials_total) as [removed Hr].
  exists paused, removed. split_and!; [done|exact Hr|].
  apply aggregateMaterials_unfold in Hp as (? & _ & ->).
  apply aggregateMaterials_unfold in Hr as (? & _ & ->). simpl.
  by rewrite collect_demand_paused.
Qed.

(** ** Base names and tier suffixes *)

Lemma list_ascii_of_string_app (a b : string) :
  list_ascii_of_string (a +:+ b)
  = list_ascii_of_string a ++ list_ascii_of_string b.
Proof. induction a as [|c a IH]; simpl; [done|]. by rewrite IH. Qed.

Section WhileFacts.
Context {A : Type} (p : A → bool).

Lemma take_while_app_stop (l1 l2 : list A) :
  Forall (λ x, p x = true) l1 →
  (∀ x, head l2 = Some x → p x = false) →
  take_while p (l1 ++ l2) = l1.
Proof.
  intros H1 H2. induction H1 as [|x l1 Hx _ IH]; simpl.
  - destruct l2 as [|y l2]; [done|]. simpl. by rewrite (H2 y).
  - by rewrite Hx, IH.
Qed.

Lemma drop_while_app_stop (l1 l2 : list A) :
  Forall (λ x, p x = true) l1 →
  (∀ x, head l2 = Some x → p x = false) →
  drop_while p (l1 ++ l2) = l2.
Proof.
  intros H1 H2. induction H1 as [|x l1 Hx _ IH]; simpl.
  - destruct l2 as [|y l2]; [done|]. simpl. by rewrite (H2 y).
  - by rewrite Hx, IH.
Qed.

End WhileFacts.

(** *** Strings and their characters *)

(** The characters of a string, put together again, are the string. *)
Lemma rev_characters_concat (pending rev_bytes : list ascii) :
  concat (reverse (rev_characters pending rev_bytes))
  = reverse rev_bytes ++ pending.
Proof.
  revert pending.
  induction rev_bytes as [|b l IH]; intros pending; simpl.
  - by destruct pending; simpl; rewrite ?app_nil_r.
  - rewrite reverse_cons, <- app_assoc. simpl.
    destruct (is_continuation b); [apply IH|].
    by rewrite reverse_cons, concat_app, IH; simpl; rewrite !app_nil_r.
Qed.

Lemma string_of_characters_rev (s : string) :
  string_of_characters (reverse (characters_rev s)) = s.
Proof.
  unfold string_of_characters, characters_rev.
  rewrite rev_characters_concat, app_nil_r, reverse_involutive.
  apply string_of_list_ascii_of_string.
Qed.

Lemma characters_rev_nil (s : string) : characters_rev s = [] → s = "".
Proof.
  intros E. by rewrite <- (string_of_characters_rev s), E.
Qed.

Lemma rev_characters_snoc_app (pending l1 l2 : list ascii) (b : ascii) :
  is_continuation b = false →
  rev_characters pending ((l1 ++ [b]) ++ l2)
  = rev_characters pending (l1 ++ [b]) ++ rev_characters [] l2.
Proof.
  intros Hb. revert pending.
  induction l1 as [|x l1 IH]; intros pending; simpl.
  - by rewrite Hb.
  - destruct (is_continuation x); [apply IH|]. by rewrite IH.
Qed.

(** The characters of [a + b] are those of [a] and those of [b], when [b]
    begins with a character. *)
Lemma characters_rev_app (a b : string) :
  starts_character b →
  characters_rev (a +:+ b) = characters_rev b ++ characters_rev a.
Proof.
  intros (x & rest & E & Hx). unfold characters_rev.
  rewrite list_ascii_of_string_app, reverse_app, E, reverse_cons.
  by apply rev_characters_snoc_app.
Qed.

Lemma starts_character_app (a b : string) :
  starts_character a → starts_character (a +:+ b).
Proof.
  intros (x & rest & E & Hx). exists x, (rest ++ list_ascii_of_string b).
  by rewrite list_ascii_of_string_app, E.
Qed.

(** When the first byte of a string continues a character, that byte is
    the first one of the first character that [rev_characters] cuts. *)
Lemma rev_characters_snoc_continuation (pending l : list ascii) (b : ascii) :
  is_continuation b = true →
  ∃ chars c, rev_characters pending (l ++ [b]) = chars ++ [b :: c].
Proof.
  intros Hb. revert pending.
  induction l as [|x l IH]; intros pending; simpl.
  - rewrite Hb. by exists [], pending.
  - destruct (is_continuation x); [apply IH|].
    destruct (IH []) as (chars & c & ->). by exists ((x :: pending) :: chars), c.
Qed.

Lemma is_space_first_byte (b : ascii) (c : list ascii) :
  is_space (b :: c) = true → is_continuation b = false.
Proof.
  unfold is_space. intros H. apply bool_decide_eq_true in H.
  assert (Hall : Forall (λ w, match w with
                               | [] => False
                               | x :: _ => is_continuation x = false
                               end) WHITE_SPACE)
    by (repeat constructor).
  rewrite Forall_forall in Hall. apply (Hall _ H).
Qed.

Lemma all_spaces_starts_character (s : string) :
  s ≠ "" → all_spaces s → starts_character s.
Proof.
  intros Hne Hsp. unfold all_spaces, characters_rev in Hsp.
  destruct s as [|b rest]; [done|]. exists b, (list_ascii_of_string rest).
  split; [done|]. destruct (is_continuation b) eqn:Hb; [|done].
  change (list_ascii_of_string (String b rest))
    with (b :: list_ascii_of_string rest) in Hsp.
  rewrite reverse_cons in Hsp.
  destruct (rev_characters_snoc_continuation
              [] (reverse (list_ascii_of_string rest)) b Hb)
    as (chars & c & E).
  rewrite E, Forall_app, Forall_singleton in Hsp. destruct Hsp as [_ Hc].
  apply is_space_first_byte in Hc. congruence.
Qed.

(** X15.  [getBaseName] removes a tier numeral with the white space in
    front of it: for a base that does not end in white space, a non-empty
    run of white space (any characters of the class [\s]) and one of the
    numerals I, II, III and IV, [getBaseName(base + spaces + tier)] is
    [base]. *)
Theorem getBaseName_strips_tier (base spaces tier : string) :
  tier ∈ ["I"; "II"; "III"; "IV"] →
  spaces ≠ "" →
  all_spaces spaces →
  ¬ ends_in_space base →
  getBaseName (base +:+ spaces +:+ tier) = base.
Proof.
  intros Htier Hne Hsp Hbase.
  assert (Hst : starts_character tier
                ∧ Forall (λ c, negb (is_space c) = true) (characters_rev tier)).
  { rewrite !elem_of_cons, elem_of_nil in Htier.
    destruct Htier as [->|[->|[->|[->|H]]]]; [..|destruct H];
      (split; [by eexists _, _ | by repeat constructor]). }
  destruct Hst as [Hstart Hrt].
  pose proof (all_spaces_starts_character spaces Hne Hsp) as Hstart_sp.
  unfold getBaseName.
  rewrite characters_rev_app by by apply starts_character_app.
  rewrite characters_rev_app by done. rewrite <- app_assoc.
  set (rest := characters_rev spaces ++ characters_rev base).
  assert (∃ c r, rest = c :: r ∧ is_space c = true) as (c & r & Er & Hc).
  { subst rest. unfold all_spaces in Hsp.
    destruct (characters_rev spaces) as [|c r] eqn:E.
    - by apply characters_rev_nil in E.
    - exists c, (r ++ characters_rev base). split; [done|].
      by apply Forall_cons in Hsp as [? _]. }
  assert (Hstop : ∀ x, head rest = Some x → negb (is_space x) = false).
  { intros x. rewrite Er. simpl. intros [= <-]. by rewrite Hc. }
  rewrite take_while_app_stop, drop_while_app_stop by done.
  rewrite string_of_characters_rev.
  rewrite decide_True by done. rewrite Er, <- Er. subst rest.
  rewrite drop_while_app_stop.
  - apply string_of_characters_rev.
  - done.
  - intros x Hx. destruct (is_space x) eqn:E; [|done].
    destruct Hbase. by exists x.
Qed.

(** X16.  [stripTierSuffix] undoes the appending of a tier suffix: for a
    non-empty id without line terminators (U+000A, U+000D, U+2028 and
    U+2029) and one of the ten numerals i to x,
    [stripTierSuffix(id + "_" + tier)] is [id]. *)
Theorem stripTierSuffix_appended (id tier : string) :
  tier ∈ TIER_SUFFIXES →
  id ≠ "" →
  one_line id →
  stripTierSuffix (id +:+ "_" +:+ tier) = id.
Proof.
  intros Htier Hne Hline.
  assert (Hst : starts_character tier
                ∧ Forall (λ c, negb (is_underscore c) = true)
                         (characters_rev tier)).
  { unfold TIER_SUFFIXES in Htier.
    rewrite !elem_of_cons, elem_of_nil in Htier.
    destruct Htier as [->|[->|[->|[->|[->|[->|[->|[->|[->|[->|H]]]]]]]]]];
      [..|destruct H];
      (split; [by eexists _, _ | by repeat constructor]). }
  destruct Hst as [Hstart Hrt].
  assert (Hus : starts_character "_") by by eexists _, _.
  unfold stripTierSuffix.
  rewrite characters_rev_app by by apply starts_character_app.
  rewrite characters_rev_app by done. rewrite <- app_assoc.
  change (characters_rev "_") with [character [95%nat]].
  rewrite take_while_app_stop, drop_while_app_stop;
    [|done|by intros x [= <-]|done|by intros x [= <-]].
  simpl. rewrite string_of_characters_rev.
  rewrite bool_decide_eq_true_2 by done.
  destruct (characters_rev id) as [|c cs] eqn:E.
  { by apply characters_rev_nil in E. }
  cbn [andb negb length Nat.eqb].
  replace (forallb _ _) with true.
  - rewrite <- E. apply string_of_characters_rev.
  - symmetry. apply forallb_forall. intros x Hx.
    apply list_elem_of_In in Hx.
    unfold one_line in Hline. rewrite E, Forall_forall in Hline.
    by rewrite (Hline x Hx).
Qed.

(** ** [array-helpers.ts] *)

Section ArrayHelpersFacts.
Context {T : Type}.
Implicit Types (arr : list T) (p : T → bool) (predicate : T → T → bool).

Lemma findIndex_None p arr :
  findIndex p arr = None ↔ Forall (λ x, p x = false) arr.
Proof.
  induction arr as [|x arr IH]; simpl.
  - split; [constructor | done].
  - rewrite Forall_cons. destruct (p x) eqn:E.
    + split; [done | by intros [? _]].
    + rewrite fmap_None, IH. tauto.
Qed.

(** The index that [findIndex] returns is that of the first element that
    satisfies [p]. *)
Lemma findIndex_Some p arr index :
  findIndex p arr = Some index
  ↔ ∃ before x after,
      arr = before ++ x :: after ∧ length before = index
      ∧ p x = true ∧ Forall (λ y, p y = false) before.
Proof.
  revert index. induction arr as [|x arr IH]; intros index; simpl.
  - split; [done|]. intros (before & y & after & E & _). by destruct before.
  - destruct (p x) eqn:E.
    + split.
      * intros [= <-]. exists [], x, arr. split_and!; done.
      * intros (before & y & after & Earr & <- & Hy & Hb).
        destruct before as [|b before]; [done|].
        injection Earr as <- _. apply Forall_cons in Hb as [Hb _]. congruence.
    + rewrite fmap_Some. split.
      * intros (i & Hi & ->). apply IH in Hi as (before & y & after & -> & <- & ? & ?).
        exists (x :: before), y, after. split_and!; [done|done|done|].
        by constructor.
      * intros (before & y & after & Earr & <- & Hy & Hb).
        destruct before as [|b before]; simpl in Earr.
        { injection Earr as <- _. congruence. }
        injection Earr as <- ->. apply Forall_cons in Hb as [_ Hb].
        exists (length before). split; [|done]. apply IH.
        exists before, y, after. split_and!; done.
Qed.

Lemma imap_pair_filter (k j : nat) arr :
  snd <$> filter (λ ix : nat * T, negb (ix.1 =? j)%nat = true)
                 (imap (λ i x, ((k + i)%nat, x)) arr)
  = if (j <? k)%nat then arr else delete (j - k)%nat arr.
Proof.
  revert k. induction arr as [|x arr IH]; intros k.
  - by destruct (j <? k)%nat.
  - rewrite imap_cons, filter_cons. cbn [fst snd].
    rewrite (imap_ext _ (λ i x, ((S k + i)%nat, x))) by (intros; simpl; f_equal; lia).
    specialize (IH (S k)).
    destruct (decide (negb (k + 0 =? j)%nat = true)) as [Hkj|Hkj].
    + apply negb_true_iff, Nat.eqb_neq in Hkj. rewrite fmap_cons, IH.
      cbn [snd].
      destruct (j <? k)%nat eqn:Ejk.
      * apply Nat.ltb_lt in Ejk.
        by replace (j <? S k)%nat with true by (symmetry; apply Nat.ltb_lt; lia).
      * apply Nat.ltb_ge in Ejk.
        replace (j <? S k)%nat with false by (symmetry; apply Nat.ltb_ge; lia).
        replace (j - k)%nat with (S (j - S k)) by lia. done.
    + apply not_true_is_false, negb_false_iff, Nat.eqb_eq in Hkj.
      rewrite IH.
      replace (j <? S k)%nat with true by (symmetry; apply Nat.ltb_lt; lia).
      replace (j <? k)%nat with false by (symmetry; apply Nat.ltb_ge; lia).
      by replace (j - k)%nat with 0%nat by lia.
Qed.

(** [arr.filter((_, i) => i !== index)] removes the element at [index]. *)
Lemma filter_indexed_delete (index : nat) arr :
  filter_indexed (λ _ i, negb (i =? index)%nat) arr = delete index arr.
Proof.
  unfold filter_indexed.
  rewrite (imap_ext _ (λ i x, ((0 + i)%nat, x))) by done.
  rewrite (imap_pair_filter 0 index). simpl. by rewrite Nat.sub_0_r.
Qed.

Lemma delete_middle (before after : list T) (x : T) :
  delete (length before) (before ++ x :: after) = before ++ after.
Proof. induction before as [|b before IH]; simpl; [done|]. by rewrite IH. Qed.

(** The two cases of [toggleInArray]. *)
Lemma toggleInArray_absent predicate arr item :
  Forall (λ x, predicate x item = false) arr →
  toggleInArray arr item predicate = arr ++ [item].
Proof.
  intros H. unfold toggleInArray.
  by rewrite (proj2 (findIndex_None (λ i, predicate i item) arr) H).
Qed.

Lemma toggleInArray_present predicate (before after : list T) x item :
  predicate x item = true →
  Forall (λ y, predicate y item = false) before →
  toggleInArray (before ++ x :: after) item predicate = before ++ after.
Proof.
  intros Hx Hb. unfold toggleInArray.
  rewrite (proj2 (findIndex_Some (λ i, predicate i item) _ (length before))).
  - by rewrite filter_indexed_delete, delete_middle.
  - exists before, x, after. split_and!; done.
Qed.

Lemma toggleInArray_cases predicate arr item :
  (Forall (λ x, predicate x item = false) arr)
  ∨ ∃ before x after,
      arr = before ++ x :: after ∧ predicate x item = true
      ∧ Forall (λ y, predicate y item = false) before.
Proof.
  destruct (findIndex (λ i, predicate i item) arr) as [index|] eqn:E.
  - right. apply findIndex_Some in E as (before & x & after & ? & _ & ? & ?).
    by exists before, x, after.
  - left. by apply findIndex_None in E.
Qed.

Lemma includesItem_true predicate arr item :
  includesItem arr item predicate = true
  ↔ ∃ x, x ∈ arr ∧ predicate x item = true.
Proof.
  unfold includesItem.
  destruct (findIndex (λ i, predicate i item) arr) as [index|] eqn:E.
  - apply findIndex_Some in E as (before & x & after & -> & _ & Hx & _).
    split; [intros _|done]. exists x. split; [|done].
    apply elem_of_app. right. left.
  - apply findIndex_None in E. split; [done|]. intros (x & Hin & Hx).
    rewrite Forall_forall in E. by rewrite (E x Hin) in Hx.
Qed.

Section Equality.
Context (predicate : T → T → bool).
Hypothesis predicate_eq : ∀ a b, predicate a b = true ↔ a = b.

Lemma includesItem_elem arr item :
  includesItem arr item predicate = true ↔ item ∈ arr.
Proof using predicate_eq.
  rewrite includesItem_true. split.
  - intros (x & Hin & Hx). apply predicate_eq in Hx. by subst.
  - intros Hin. exists item. split; [done|]. by apply predicate_eq.
Qed.

Lemma predicate_false_Forall arr item :
  Forall (λ x, predicate x item = false) arr ↔ item ∉ arr.
Proof using predicate_eq.
  rewrite Forall_forall. split.
  - intros H Hin. specialize (H item Hin).
    by rewrite (proj2 (predicate_eq item item)) in H.
  - intros Hnin x Hx. destruct (predicate x item) eqn:E; [|done].
    apply predicate_eq in E. by subst.
Qed.

(** The elements after a toggle, when no element is held twice. *)
Lemma toggleInArray_elem arr item other :
  NoDup arr →
  other ∈ toggleInArray arr item predicate
  ↔ (other = item ∧ item ∉ arr) ∨ (other ≠ item ∧ other ∈ arr).
Proof using predicate_eq.
  intros Hnd.
  destruct (toggleInArray_cases predicate arr item)
    as [Habs|(before & x & after & -> & Hx & Hb)].
  - rewrite toggleInArray_absent by done.
    apply predicate_false_Forall in Habs.
    rewrite elem_of_app, list_elem_of_singleton. split.
    + intros [Hin| ->]; [|by left]. right. split; [|done]. by intros ->.
    + intros [[-> _]|[_ ?]]; [by right | by left].
  - rewrite toggleInArray_present by done.
    apply predicate_eq in Hx as ->.
    apply NoDup_app in Hnd as (_ & Hdisj & Hnd). apply NoDup_cons in Hnd as [Hia _].
    rewrite !elem_of_app, !elem_of_cons. split.
    + intros [Hin|Hin]; right.
      * split; [|by left]. intros ->. apply (Hdisj item Hin). left.
      * split; [|by right; right]. by intros ->.
    + intros [[_ Habs]|[Hne [?|[?|?]]]].
      * destruct Habs. right. by left.
      * by left.
      * by destruct Hne.
      * by right.
Qed.

Lemma toggleInArray_NoDup arr item :
  NoDup arr → NoDup (toggleInArray arr item predicate).
Proof using predicate_eq.
  intros Hnd.
  destruct (toggleInArray_cases predicate arr item)
    as [Habs|(before & x & after & -> & Hx & Hb)].
  - rewrite toggleInArray_absent by done.
    apply predicate_false_Forall in Habs.
    apply NoDup_app. split_and!; [done| |apply NoDup_singleton].
    intros y Hy Hyi. apply list_elem_of_singleton in Hyi. by subst.
  - rewrite toggleInArray_present by done.
    apply NoDup_app in Hnd as (Hb1 & Hdisj & Hnd).
    apply NoDup_cons in Hnd as [_ Ha].
    apply NoDup_app. split_and!; [done| |done].
    intros y Hy Hya. apply (Hdisj y Hy). by right.
Qed.

End Equality.
End ArrayHelpersFacts.

(** X17.  With a predicate that tests equality and an array that holds no
    element twice, [toggleInArray] flips the membership of the item and of
    no other element, and the array it returns holds no element twice. *)
Theorem toggleInArray_flips {T : Type} (predicate : T → T → bool)
    (arr : list T) (item : T) :
  (∀ a b, predicate a b = true ↔ a = b) →
  NoDup arr →
  NoDup (toggleInArray arr item predicate)
  ∧ includesItem (toggleInArray arr item predicate) item predicate
    = negb (includesItem arr item predicate)
  ∧ ∀ other,
      other ≠ item →
      includesItem (toggleInArray arr item predicate) other predicate
      = includesItem arr other predicate.
Proof.
  intros Heq Hnd. split; [by apply toggleInArray_NoDup|].
  assert (Hb : ∀ b1 b2 : bool, (b1 = true ↔ b2 = true) → b1 = b2).
  { intros [] []; intuition congruence. }
  split.
  - apply Hb. rewrite negb_true_iff, <- not_true_iff_false.
    rewrite !(includesItem_elem predicate Heq).
    rewrite (toggleInArray_elem predicate Heq) by done. tauto.
  - intros other Hne. apply Hb.
    rewrite !(includesItem_elem predicate Heq).
    rewrite (toggleInArray_elem predicate Heq) by done. tauto.
Qed.

(** X18.  Toggling the same item twice, with a predicate that tests
    equality: an array that did not hold the item is returned as it was;
    an array that held it once, and no element twice, is returned with the
    item moved to the end. *)
Theorem toggleInArray_twice {T : Type} (predicate : T → T → bool)
    (arr : list T) (item : T) :
  (∀ a b, predicate a b = true ↔ a = b) →
  let twice :=
    toggleInArray (toggleInArray arr item predicate) item predicate in
  (item ∉ arr → twice = arr)
  ∧ (NoDup arr → item ∈ arr →
     ∃ before after,
       arr = before ++ item :: after ∧ twice = before ++ after ++ [item]).
Proof.
  intros Heq. cbv zeta. split.
  - intros Hnin. apply (predicate_false_Forall predicate Heq) in Hnin.
    rewrite (toggleInArray_absent _ _ _ Hnin).
    rewrite <- (app_nil_r (arr ++ [item])), <- app_assoc. simpl.
    rewrite toggleInArray_present; [by rewrite app_nil_r| |done].
    by apply Heq.
  - intros Hnd Hin.
    destruct (toggleInArray_cases predicate arr item)
      as [Habs|(before & x & after & -> & Hx & Hb)].
    + by apply (predicate_false_Forall predicate Heq) in Habs.
    + apply Heq in Hx as ->. exists before, after. split; [done|].
      rewrite toggleInArray_present by (done || by apply Heq).
      rewrite toggleInArray_absent; [by rewrite app_assoc|].
      apply (predicate_false_Forall predicate Heq).
      apply NoDup_app in Hnd as (_ & Hdisj & Hnd).
      apply NoDup_cons in Hnd as [Hia _].
      rewrite elem_of_app. intros [H|H]; [|done]. apply (Hdisj item H). left.
Qed.

(** ** The settings store *)

Lemma strict_equal_eq (a b : string) : strict_equal a b = true ↔ a = b.
Proof. apply bool_decide_eq_true. Qed.

Lemma foldl_set_add_elem (arr acc : list string) (x : string) :
  x ∈ foldl (λ s y, set_add y s) acc arr ↔ x ∈ acc ∨ x ∈ arr.
Proof.
  revert acc. induction arr as [|y arr IH]; intros acc; simpl.
  - rewrite elem_of_nil. tauto.
  - rewrite IH, elem_of_set_add, elem_of_cons. tauto.
Qed.

Lemma foldl_set_add_NoDup (arr acc : list string) :
  NoDup acc → NoDup (foldl (λ s y, set_add y s) acc arr).
Proof.
  revert acc. induction arr as [|y arr IH]; intros acc Hnd; simpl; [done|].
  by apply IH, NoDup_set_add.
Qed.

Lemma foldl_set_add_fresh (arr acc : list string) :
  NoDup (acc ++ arr) → foldl (λ s y, set_add y s) acc arr = acc ++ arr.
Proof.
  revert acc. induction arr as [|y arr IH]; intros acc Hnd; simpl.
  - by rewrite app_nil_r.
  - assert (Hy : y ∉ acc).
    { apply NoDup_app in Hnd as (_ & Hdisj & _). intros Hin.
      apply (Hdisj y Hin). left. }
    unfold set_add. rewrite decide_False by done.
    rewrite IH; rewrite <- app_assoc; done.
Qed.

Lemma elem_of_new_Set (arr : list string) (x : string) :
  x ∈ new_Set arr ↔ x ∈ arr.
Proof. unfold new_Set. rewrite foldl_set_add_elem, elem_of_nil. tauto. Qed.

Lemma NoDup_new_Set (arr : list string) : NoDup (new_Set arr).
Proof. apply foldl_set_add_NoDup. constructor. Qed.

(** A [Set] of an array that holds no element twice has the elements of
    the array, in its order. *)
Lemma new_Set_NoDup (arr : list string) : NoDup arr → new_Set arr = arr.
Proof. intros Hnd. by apply (foldl_set_add_fresh arr []). Qed.

Lemma new_Set_nil (arr : list string) : new_Set arr = [] ↔ arr = [].
Proof.
  split; [|by intros ->]. intros E. destruct arr as [|x arr]; [done|].
  assert (H : x ∈ new_Set (x :: arr)) by (apply elem_of_new_Set; left).
  rewrite E in H. by apply elem_of_nil in H.
Qed.

Lemma filter_all {A : Type} (P : A → Prop) `{!∀ x, Decision (P x)}
    (l : list A) :
  Forall P l → filter P l = l.
Proof.
  induction 1 as [|x l Hx _ IH]; [done|].
  by rewrite filter_cons_True, IH.
Qed.

Lemma elem_of_without (itemId x : string) (arr : list string) :
  x ∈ without itemId arr ↔ x ≠ itemId ∧ x ∈ arr.
Proof. unfold without. by rewrite list_elem_of_filter. Qed.

Lemma NoDup_without (itemId : string) (arr : list string) :
  NoDup arr → NoDup (without itemId arr).
Proof. apply NoDup_filter. Qed.

Lemma NoDup_snoc_fresh (arr : list string) (x : string) :
  NoDup arr → x ∉ arr → NoDup (arr ++ [x]).
Proof.
  intros Hnd Hx. apply NoDup_app. split_and!; [done| |apply NoDup_singleton].
  intros y Hy Hyx. apply list_elem_of_singleton in Hyx. by subst.
Qed.

Lemma includes_true (arr : list string) (x : string) :
  includes arr x = true ↔ x ∈ arr.
Proof. apply bool_decide_eq_true. Qed.

Lemma includes_false (arr : list string) (x : string) :
  includes arr x = false ↔ x ∉ arr.
Proof. apply bool_decide_eq_false. Qed.

Lemma settings_inv_default : settings_inv DEFAULT_SETTINGS.
Proof.
  split; simpl;
    first [ apply NoDup_nil_2 | by intros ? ?%elem_of_nil
          | by apply (bool_decide_unpack _) ].
Qed.

Ltac settings_inv_field :=
  first
    [ done
    | apply NoDup_nil_2
    | by intros ? ?%elem_of_nil
    | by apply NoDup_without
    | by apply (toggleInArray_NoDup _ strict_equal_eq)
    | by apply (bool_decide_unpack _) ].

Lemma settings_call_inv (s : SettingsState) (call : SettingsCall) :
  settings_inv s → settings_inv (settings_call s call).
Proof.
  intros [Hb Hp Hpb Hhr Hrf Hhs].
  destruct call; simpl;
    try (split; simpl; settings_inv_field).
  - (* toggle *)
    unfold SettingsStore.toggle.
    destruct (SettingsStore.isBookmarked s itemId) eqn:E; split; simpl;
      try settings_inv_field.
    + intros id. rewrite !elem_of_without. intros [? ?]. split; [done|].
      by apply Hpb.
    + apply includes_false in E. by apply NoDup_snoc_fresh.
    + intros id Hid. apply elem_of_app. left. by apply Hpb.
  - (* togglePause *)
    unfold SettingsStore.togglePause.
    destruct (SettingsStore.isBookmarked s itemId) eqn:Eb; simpl; [|done].
    destruct (SettingsStore.isPaused s itemId) eqn:Ep; split; simpl;
      try settings_inv_field.
    + intros id. rewrite elem_of_without. intros [_ ?]. by apply Hpb.
    + apply includes_false in Ep. by apply NoDup_snoc_fresh.
    + intros id. rewrite elem_of_app, list_elem_of_singleton.
      intros [?| ->]; [by apply Hpb|]. by apply includes_true in Eb.
  - (* setAllRarities *)
    destruct enabled; split; simpl; settings_inv_field.
  - (* toggleSourceHidden *)
    unfold SettingsStore.toggleSourceHidden.
    destruct (SettingsStore.isSourceHidden s itemId) eqn:E; split; simpl;
      try settings_inv_field.
    apply includes_false in E. by apply NoDup_snoc_fresh.
Qed.

Lemma settings_calls_inv (calls : list SettingsCall) (s : SettingsState) :
  settings_inv s → settings_inv (settings_calls s calls).
Proof.
  unfold settings_calls. revert s.
  induction calls as [|call calls IH]; intros s Hs; simpl; [done|].
  by apply IH, settings_call_inv.
Qed.

(** X19.  Whatever methods of the store are called on the default
    settings, the arrays [bookmarkedItems], [pausedItems], [hiddenRarities],
    [rarityFilters] and [hiddenSourceItems] hold no id twice and every
    paused id is bookmarked; the [Set]s that the getters [bookmarkedItems]
    and [pausedItems] return then have the elements of the arrays, in their
    order. *)
Theorem settings_calls_keep_sets (calls : list SettingsCall) :
  let s := settings_calls DEFAULT_SETTINGS calls in
  let bookmarks := SettingsState.bookmarks s in
  NoDup (BookmarksSettings.bookmarkedItems bookmarks)
  ∧ NoDup (BookmarksSettings.pausedItems bookmarks)
  ∧ (∀ id, id ∈ BookmarksSettings.pausedItems bookmarks →
           id ∈ BookmarksSettings.bookmarkedItems bookmarks)
  ∧ NoDup (GraphFilterSettings.hiddenRarities (SettingsState.graphFilters s))
  ∧ NoDup (MaterialFilterSettings.rarityFilters
             (SettingsState.materialFilters s))
  ∧ NoDup (SourceFilterSettings.hiddenSourceItems
             (SettingsState.sourceFilters s))
  ∧ SettingsStore.bookmarkedItems s
    = BookmarksSettings.bookmarkedItems bookmarks
  ∧ SettingsStore.pausedItems s = BookmarksSettings.pausedItems bookmarks.
Proof.
  cbv zeta.
  destruct (settings_calls_inv calls _ settings_inv_default)
    as [Hb Hp Hpb Hhr Hrf Hhs].
  split_and!; try done.
  - by apply new_Set_NoDup.
  - unfold SettingsStore.pausedItems.
    rewrite filter_all; [by apply new_Set_NoDup|].
    apply Forall_forall. intros id Hid. apply elem_of_new_Set. by apply Hpb.
Qed.

(** X20.  In settings reached by calls of the store from the default
    settings, [toggle(itemId)] flips whether the item is bookmarked and
    leaves it not paused, and changes neither state for another id. *)
Theorem toggle_flips_bookmark (calls : list SettingsCall) (itemId : string) :
  let s := settings_calls DEFAULT_SETTINGS calls in
  let toggled := SettingsStore.toggle itemId s in
  SettingsStore.isBookmarked toggled itemId
  = negb (SettingsStore.isBookmarked s itemId)
  ∧ SettingsStore.isPaused toggled itemId = false
  ∧ ∀ other,
      other ≠ itemId →
      SettingsStore.isBookmarked toggled other
      = SettingsStore.isBookmarked s other
      ∧ SettingsStore.isPaused toggled other = SettingsStore.isPaused s other.
Proof.
  cbv zeta.
  destruct (settings_calls_inv calls _ settings_inv_default)
    as [_ _ Hpb _ _ _].
  set (s := settings_calls DEFAULT_SETTINGS calls) in *.
  assert (Hbool : ∀ b1 b2 : bool, (b1 = true ↔ b2 = true) → b1 = b2).
  { intros [] []; intuition congruence. }
  unfold SettingsStore.toggle.
  destruct (SettingsStore.isBookmarked s itemId) eqn:E;
    unfold SettingsStore.isBookmarked, SettingsStore.isPaused in *; simpl.
  - split_and!.
    + apply includes_false. rewrite elem_of_without. by intros [? _].
    + apply includes_false. rewrite elem_of_without. by intros [? _].
    + intros other Hne. split; apply Hbool;
        rewrite !includes_true, elem_of_without; tauto.
  - apply includes_false in E. split_and!.
    + apply includes_true, elem_of_app. right. left.
    + apply includes_false. intros Hin. by apply E, Hpb.
    + intros other Hne. split; [|done]. apply Hbool.
      rewrite !includes_true, elem_of_app, list_elem_of_singleton. tauto.
Qed.

(** ** The materials grid *)

Lemma grid_counted_edge_spec (db : Database) (settings : SettingsState)
    (recipe : CraftingRecipe) :
  counted_edge db (MaterialsGrid.filterOptions settings)
               (SettingsStore.bookmarkedItems settings) recipe
  ↔ grid_counted_edge db settings recipe.
Proof.
  unfold counted_edge, grid_counted_edge, ingredient_passes. cbv zeta.
  unfold is_paused, MaterialsGrid.filterOptions. simpl.
  unfold SettingsStore.bookmarkedItems, SettingsStore.pausedItems.
  rewrite elem_of_new_Set, bool_decide_eq_false, elem_of_list_to_set,
    elem_of_new_Set, list_elem_of_filter, elem_of_new_Set.
  destruct (query_item db (CraftingRecipe.ingredient_id recipe))
    as [materialItem|]; [|intuition congruence].
  unfold shouldIncludeMaterial. simpl.
  unfold SettingsStore.rarityFilters, SettingsStore.hideScrappyCollected.
  destruct (bool_decide (Item.rarity materialItem ∈ _)) eqn:Er; simpl.
  - apply bool_decide_eq_true in Er.
    rewrite elem_of_list_to_set, elem_of_new_Set in Er.
    destruct (MaterialFilterSettings.hideScrappyCollected _); simpl.
    + destruct (bool_decide (Item.id materialItem ∈ SCRAPPY_MATERIALS)) eqn:Es.
      * apply bool_decide_eq_true in Es. intuition congruence.
      * apply bool_decide_eq_false in Es. intuition congruence.
    + intuition congruence.
  - apply bool_decide_eq_false in Er.
    rewrite elem_of_list_to_set, elem_of_new_Set in Er. intuition congruence.
Qed.

Lemma aggregatedData_ready (db : Database) (settings : SettingsState) :
  BookmarksSettings.bookmarkedItems (SettingsState.bookmarks settings) ≠ [] →
  MaterialsGrid.aggregatedData status_ready db settings
  = Some <$> aggregateMaterials (SettingsStore.bookmarkedItems settings) db
                                (SettingsStore.scoringMethod settings)
                                (MaterialsGrid.filterOptions settings).
Proof.
  intros Hne. unfold MaterialsGrid.aggregatedData.
  destruct (length (SettingsStore.bookmarkedItems settings) =? 0)%nat eqn:E;
    [|done].
  apply Nat.eqb_eq, length_zero_iff_nil in E.
  by apply (proj1 (new_Set_nil _)) in E.
Qed.

Lemma aggregatedData_empty (db : Database) (settings : SettingsState) :
  BookmarksSettings.bookmarkedItems (SettingsState.bookmarks settings) = [] →
  MaterialsGrid.aggregatedData status_ready db settings = Some None.
Proof.
  intros E. unfold MaterialsGrid.aggregatedData, SettingsStore.bookmarkedItems.
  by rewrite E.
Qed.

(** X21.  The data of the grid: [null] while the database is not ready
    or nothing is bookmarked; otherwise the call of [aggregateMaterials]
    returns, and the quantities of [materials] add up to the quantities of
    the recipe rows of the bookmarked items that are not paused, for the
    ingredients that pass the rarity and Scrappy filters of the settings,
    each row counted once, also when the array of bookmarks holds an id
    twice. *)
Theorem aggregatedData_total_quantity (status : DatabaseStatus)
    (db : Database) (settings : SettingsState) :
  match status,
        BookmarksSettings.bookmarkedItems (SettingsState.bookmarks settings)
  with
  | status_ready, _ :: _ =>
      ∃ result,
        MaterialsGrid.aggregatedData status db settings = Some (Some result)
        ∧ sumZ (MaterialRequirement.totalQuantity
                  <$> AggregatedMaterialsData.materials result)
          = sumZ (CraftingRecipe.quantity
                    <$> filter (grid_counted_edge db settings)
                               (Database.crafting_recipes db))
  | _, _ => MaterialsGrid.aggregatedData status db settings = Some None
  end.
Proof.
  destruct status; try by destruct (BookmarksSettings.bookmarkedItems
                                      (SettingsState.bookmarks settings)).
  destruct (BookmarksSettings.bookmarkedItems (SettingsState.bookmarks settings))
    as [|b bs] eqn:E; [by apply aggregatedData_empty|].
  rewrite aggregatedData_ready by congruence.
  destruct (aggregateMaterials_total (SettingsStore.bookmarkedItems settings) db
              (SettingsStore.scoringMethod settings)
              (MaterialsGrid.filterOptions settings)) as [result Hres].
  exists result. rewrite Hres. split; [done|].
  apply aggregateMaterials_unfold in Hres as (allSources & _ & ->). simpl.
  rewrite (build_materials_quantities db) by apply collect_demand_inv.
  rewrite (collect_demand_measure db (MaterialsGrid.filterOptions settings)
             (λ st, sumZ (map_values (Demand.materialQuantityMap st)))
             CraftingRecipe.quantity
             (demand_recipe_sum db (MaterialsGrid.filterOptions settings)))
    by apply NoDup_new_Set.
  change (sumZ (map_values (Demand.materialQuantityMap Demand.empty))) with 0.
  rewrite Z.add_0_l. f_equal. f_equal. apply list_filter_iff. intros r.
  apply grid_counted_edge_spec.
Qed.

Section GridFilters.
Context (sources : AggregatedMaterialsData → list SalvagingSource)
        (settings : SettingsState) (tables : CategoryTables).

Let materialFilters := SettingsState.materialFilters settings.

(** The test of the category filter on a source. *)
Let in_category (source : SalvagingSource) : Prop :=
  Exists (λ cat, cat ∈ MaterialFilterSettings.categoryFilters materialFilters)
         (query_categories tables (Item.id (SalvagingSource.item source))).

Lemma getItemCategories_sound itemId cache :
  cache_sound tables cache →
  ∃ cache',
    MaterialsGrid.getItemCategories tables itemId cache
    = (Some (query_categories tables itemId), cache')
    ∧ cache_sound tables cache'.
Proof.
  intros Hc. unfold MaterialsGrid.getItemCategories, map_has.
  destruct (map_get itemId cache) as [categories|] eqn:E; simpl.
  - exists cache. rewrite E. by rewrite (Hc _ _ E).
  - eexists. rewrite map_get_set_eq. split; [done|].
    intros k v. destruct (decide (k = itemId)) as [->|Hne].
    + rewrite map_get_set_eq. by intros [= <-].
    + rewrite map_get_set_ne by done. apply Hc.
Qed.

Lemma existsb_categories (categories : list string) :
  existsb (λ cat, bool_decide (cat ∈ SettingsStore.categoryFilters settings))
          categories = true
  ↔ Exists (λ cat, cat ∈ MaterialFilterSettings.categoryFilters materialFilters)
           categories.
Proof.
  rewrite existsb_exists, Exists_exists. unfold SettingsStore.categoryFilters.
  split; intros (cat & Hin & Hcat); exists cat.
  - apply list_elem_of_In in Hin. apply bool_decide_eq_true in Hcat.
    by rewrite elem_of_new_Set in Hcat.
  - split; [by apply list_elem_of_In|]. apply bool_decide_eq_true.
    by rewrite elem_of_new_Set.
Qed.

Lemma category_filter_step_sound (kept : list SalvagingSource) cache source :
  cache_sound tables cache →
  ∃ cache',
    MaterialsGrid.category_filter_step settings tables (Some (kept, cache))
                                       source
    = Some (kept ++ filter in_category [source], cache')
    ∧ cache_sound tables cache'.
Proof.
  intros Hc.
  destruct (getItemCategories_sound
              (Item.id (SalvagingSource.item source)) cache Hc)
    as (cache1 & Eg & Hc1).
  exists cache1. split; [|done].
  unfold MaterialsGrid.category_filter_step.
  cbn -[MaterialsGrid.getItemCategories filter]. rewrite Eg.
  cbn -[filter]. rewrite filter_cons, filter_nil.
  destruct (existsb _ _) eqn:E.
  - apply existsb_categories in E. by rewrite decide_True.
  - rewrite decide_False; [by rewrite app_nil_r|].
    intros H. apply existsb_categories in H. congruence.
Qed.

Lemma category_filter_steps (l kept : list SalvagingSource) cache :
  cache_sound tables cache →
  ∃ cache',
    foldl (MaterialsGrid.category_filter_step settings tables)
          (Some (kept, cache)) l
    = Some (kept ++ filter in_category l, cache')
    ∧ cache_sound tables cache'.
Proof.
  revert kept cache. induction l as [|source l IH]; intros kept cache Hc.
  - exists cache. simpl. by rewrite app_nil_r.
  - cbn [foldl].
    destruct (category_filter_step_sound kept cache source Hc)
      as (cache1 & -> & Hc1).
    destruct (IH (kept ++ filter in_category [source]) cache1 Hc1)
      as (cache' & -> & Hc').
    exists cache'. split; [|done].
    by rewrite <- app_assoc, <- filter_app.
Qed.

Lemma length_new_Set_zero (arr : list string) :
  (length (new_Set arr) =? 0)%nat = true ↔ arr = [].
Proof. by rewrite Nat.eqb_eq, length_zero_iff_nil, new_Set_nil. Qed.

Lemma filteredSources_spec cache aggregatedData :
  cache_sound tables cache →
  ∃ cache',
    MaterialsGrid.valueFilteredSources sources settings tables cache
                                       aggregatedData
    = Some (filter (source_shown settings tables)
                   (from_option sources [] aggregatedData),
            cache')
    ∧ cache_sound tables cache'.
Proof.
  intros Hc.
  set (l := from_option sources [] aggregatedData).
  set (by_rarity (s : SalvagingSource) :=
         Item.rarity (SalvagingSource.item s)
         ∈ MaterialFilterSettings.rarityFilters materialFilters).
  set (by_type (s : SalvagingSource) :=
         MaterialFilterSettings.typeFilters materialFilters = []
         ∨ (Item.type (SalvagingSource.item s) ≠ ""
            ∧ Item.type (SalvagingSource.item s)
              ∈ MaterialFilterSettings.typeFilters materialFilters)).
  set (by_category (s : SalvagingSource) :=
         MaterialFilterSettings.categoryFilters materialFilters = []
         ∨ in_category s).
  set (by_value (s : SalvagingSource) :=
         MaterialFilterSettings.maxSourceValueEnabled materialFilters = false
         ∨ number_leb (ofZ (Item.value (SalvagingSource.item s)))
                      (MaterialFilterSettings.maxSourceValue materialFilters)
           = true).
  assert (H1 : MaterialsGrid.rarityFilteredSources sources settings aggregatedData
               = filter by_rarity l).
  { unfold MaterialsGrid.rarityFilteredSources. subst l.
    destruct aggregatedData as [data|]; [|done]. simpl.
    apply list_filter_iff. intros s. unfold SettingsStore.rarityFilters.
    by rewrite elem_of_new_Set. }
  assert (H2 : MaterialsGrid.typeFilteredSources sources settings aggregatedData
               = filter by_type (filter by_rarity l)).
  { unfold MaterialsGrid.typeFilteredSources. rewrite H1.
    unfold SettingsStore.sourceTypeFilters.
    destruct (length _ =? 0)%nat eqn:E.
    - apply length_new_Set_zero in E. symmetry. apply filter_all.
      apply Forall_forall. intros s _. by left.
    - apply list_filter_iff. intros s. subst by_type. simpl.
      rewrite elem_of_new_Set. split; [by right|].
      intros [Hnil|?]; [|done]. apply length_new_Set_zero in Hnil.
      fold materialFilters in E. congruence. }
  assert (H3 : ∃ cache',
            MaterialsGrid.categoryFilteredSources sources settings tables cache
                                                  aggregatedData
            = Some (filter by_category (filter by_type (filter by_rarity l)),
                    cache')
            ∧ cache_sound tables cache').
  { unfold MaterialsGrid.categoryFilteredSources. rewrite H2.
    unfold SettingsStore.categoryFilters.
    destruct (length _ =? 0)%nat eqn:E.
    - apply length_new_Set_zero in E. exists cache. split; [|done].
      f_equal. f_equal. symmetry. apply filter_all.
      apply Forall_forall. intros s _. by left.
    - destruct (category_filter_steps
                  (filter by_type (filter by_rarity l)) [] cache Hc)
        as (cache' & -> & Hc').
      exists cache'. split; [|done]. simpl. f_equal. f_equal.
      apply list_filter_iff. intros s. subst by_category. simpl.
      split; [by right|]. intros [Hnil|?]; [|done].
      apply length_new_Set_zero in Hnil. fold materialFilters in E.
      congruence. }
  destruct H3 as (cache' & H3 & Hc'). exists cache'. split; [|done].
  unfold MaterialsGrid.valueFilteredSources. rewrite H3. simpl.
  assert (H4 : filter (source_shown settings tables) l
               = filter by_value
                   (filter by_category (filter by_type (filter by_rarity l)))).
  { rewrite !list_filter_filter. apply list_filter_iff. intros s.
    unfold source_shown. cbv zeta. subst by_rarity by_type by_category by_value.
    simpl. fold materialFilters. unfold in_category. tauto. }
  rewrite H4. unfold SettingsStore.maxSourceValueEnabled, SettingsStore.maxSourceValue.
  fold materialFilters.
  destruct (MaterialFilterSettings.maxSourceValueEnabled materialFilters) eqn:E;
    simpl.
  - f_equal. f_equal. apply list_filter_iff. intros s. subst by_value. simpl.
    split; [by right|]. by intros [?|?].
  - f_equal. f_equal. symmetry. apply filter_all.
    apply Forall_forall. intros s _. by left.
Qed.

End GridFilters.

(** X22.  The sources that the grid shows.  Starting from a cache of
    categories that holds what the store returns (the empty cache, for
    one), the chain of the rarity, type, category and value filters returns
    without a cache miss, and returns the sources of the aggregated list
    that are shown under the settings, in the order of that list: a source
    of a rarity that is not selected is never shown, whereas an empty
    selection of types or of categories hides nothing.  The cache it leaves
    again holds what the store returns. *)
Theorem filteredSources_shown
    (sources : AggregatedMaterialsData → list SalvagingSource)
    (settings : SettingsState) (tables : CategoryTables)
    (itemCategoriesCache : list (string * list string))
    (aggregatedData : option AggregatedMaterialsData) :
  cache_sound tables itemCategoriesCache →
  ∃ cacheAfter,
    MaterialsGrid.valueFilteredSources sources settings tables
                                       itemCategoriesCache aggregatedData
    = Some (filter (source_shown settings tables)
                   (from_option sources [] aggregatedData),
            cacheAfter)
    ∧ cache_sound tables cacheAfter.
Proof. apply filteredSources_spec. Qed.

(** ** The hover store *)

Lemma elem_of_add_all (ids set : list string) (x : string) :
  x ∈ HoverStore.add_all ids set ↔ x ∈ set ∨ x ∈ ids.
Proof. apply foldl_set_add_elem. Qed.

Lemma truthy_Some (id : string) :
  id ≠ "" → HoverStore.truthy (Some id) = Some id.
Proof. intros Hne. unfold HoverStore.truthy. by rewrite decide_False. Qed.

Lemma truthy_Some_inv (id : option string) (x : string) :
  HoverStore.truthy id = Some x → id = Some x ∧ x ≠ "".
Proof.
  unfold HoverStore.truthy. destruct id as [id|]; [|done].
  destruct (decide (id = "")); [done|]. by intros [= <-].
Qed.

Lemma find_source_Some sourceId sourceList source :
  HoverStore.find_source sourceId sourceList = Some source →
  source ∈ sourceList ∧ source_id source = sourceId.
Proof.
  unfold HoverStore.find_source. intros [Hin Hid]%find_some.
  split; [by apply list_elem_of_In|]. by apply bool_decide_eq_true in Hid.
Qed.

(** The materials that the hover of a source highlights are yields of a
    source of that id in the list that the hover names. *)
Lemma highlightedMaterials_source h status db data sourceId type materialId :
  materialId
  ∈ HoverStore.highlightedMaterials
      (HoverStore.setHoveredSource (Some sourceId) type h) status db (Some data) →
  ∃ source,
    source ∈ AggregatedMaterialsData.salvageSources data
             ++ AggregatedMaterialsData.recycleSources data
    ∧ source_id source = sourceId
    ∧ materialId ∈ yield_ids source.
Proof.
  unfold HoverStore.highlightedMaterials, HoverStore.setHoveredSource. simpl.
  destruct (decide (sourceId = "")) as [->|Hne]; simpl.
  { by intros ?%elem_of_nil. }
  destruct type; simpl.
  - destruct (HoverStore.find_source sourceId _) as [source|] eqn:E;
      [|by intros ?%elem_of_nil].
    apply find_source_Some in E as [Hin Hid].
    rewrite elem_of_add_all, elem_of_nil. intros [[]|Hm].
    exists source. split_and!; [|done|].
    + apply elem_of_app. by left.
    + apply yield_ids_spec. by left.
  - destruct (HoverStore.find_source sourceId _) as [source|] eqn:E;
      [|by intros ?%elem_of_nil].
    apply find_source_Some in E as [Hin Hid].
    rewrite elem_of_add_all, elem_of_nil. intros [[]|Hm].
    exists source. split_and!; [|done|].
    + apply elem_of_app. by right.
    + apply yield_ids_spec. by right.
Qed.

(** The sources that the hover of a material highlights are the ids that
    [materialToSources] lists for it. *)
Lemma highlightedSources_material h status db data materialId sourceId :
  materialId ≠ "" →
  sourceId
  ∈ HoverStore.highlightedSources
      (HoverStore.setHoveredMaterial (Some materialId) h) status db (Some data)
  ↔ sourceId
    ∈ map_list materialId (AggregatedMaterialsData.materialToSources data).
Proof.
  intros Hne.
  unfold HoverStore.highlightedSources, HoverStore.setHoveredMaterial. simpl.
  rewrite decide_False by done. unfold map_list.
  destruct (map_get materialId _) as [sourceIds|]; simpl; [|done].
  rewrite elem_of_add_all, elem_of_nil. tauto.
Qed.

(** X23.  The two directions of the hover agree on the result of
    [aggregateMaterials]: a material that is highlighted while a source is
    hovered has, when it is hovered itself, that source among the
    highlighted ones. *)
Theorem hover_source_material_agree (bookmarkedIds : list string)
    (db : Database) (scoringMethod : ScoringMethod)
    (filterOptions : MaterialFilterOptions) (status : DatabaseStatus)
    (h : HoverStore.t) (sourceId materialId : string)
    (type : HoveredSourceType) :
  materialId ≠ "" →
  ∃ result,
    aggregateMaterials bookmarkedIds db scoringMethod filterOptions = Some result
    ∧ (materialId
       ∈ HoverStore.highlightedMaterials
           (HoverStore.setHoveredSource (Some sourceId) type h)
           status db (Some result) →
       sourceId
       ∈ HoverStore.highlightedSources
           (HoverStore.setHoveredMaterial (Some materialId) h)
           status db (Some result)).
Proof.
  intros Hne.
  destruct (aggregateMaterials_total bookmarkedIds db scoringMethod filterOptions)
    as [result Hres].
  exists result. split; [done|]. intros Hm.
  apply highlightedMaterials_source in Hm as (source & Hin & Hid & Hm).
  apply highlightedSources_material; [done|].
  apply aggregateMaterials_unfold in Hres as (allSources & _ & ->).
  simpl in *. unfold build_index.
  edestruct build_index_from as (I1 & _). apply I1. right. by exists source.
Qed.

Lemma find_material_Some materialId materials material :
  List.find (λ m, bool_decide (Item.id (MaterialRequirement.item m) = materialId))
            materials = Some material →
  material ∈ materials ∧ Item.id (MaterialRequirement.item material) = materialId.
Proof.
  intros [Hin Hid]%find_some.
  split; [by apply list_elem_of_In|]. by apply bool_decide_eq_true in Hid.
Qed.

Lemma find_material_None materialId materials :
  List.find (λ m, bool_decide (Item.id (MaterialRequirement.item m) = materialId))
            materials = None →
  materialId ∉ (Item.id ∘ MaterialRequirement.item) <$> materials.
Proof.
  intros Hnone Hin. apply list_elem_of_fmap in Hin as (m & Hid & Hin).
  apply list_elem_of_In in Hin.
  pose proof (find_none _ _ Hnone m Hin) as H. simpl in H.
  apply bool_decide_eq_false in H. by destruct H.
Qed.

(** X24.  While a material is hovered, the highlighted bookmarks are the
    bookmarks that need it: the items of the counted recipe rows that have
    the material as ingredient. *)
Theorem hover_material_bookmarks (bookmarkedIds : list string)
    (db : Database) (scoringMethod : ScoringMethod)
    (filterOptions : MaterialFilterOptions) (h : HoverStore.t)
    (materialId : string) :
  materialId ≠ "" →
  ∃ result,
    aggregateMaterials bookmarkedIds db scoringMethod filterOptions = Some result
    ∧ ∀ bookmarkId,
        bookmarkId
        ∈ HoverStore.highlightedBookmarks
            (HoverStore.setHoveredMaterial (Some materialId) h) (Some result)
        ↔ ∃ r, r ∈ Database.crafting_recipes db
               ∧ counted_edge db filterOptions bookmarkedIds r
               ∧ CraftingRecipe.ingredient_id r = materialId
               ∧ CraftingRecipe.item_id r = bookmarkId.
Proof.
  intros Hne.
  destruct (aggregateMaterials_total bookmarkedIds db scoringMethod filterOptions)
    as [result Hres].
  exists result. split; [done|]. intros bookmarkId.
  apply aggregateMaterials_unfold in Hres as (allSources & _ & ->).
  pose proof (collect_demand_inv db filterOptions bookmarkedIds) as Hinv.
  unfold HoverStore.highlightedBookmarks, HoverStore.setHoveredMaterial. simpl.
  rewrite decide_False by done.
  destruct (List.find _ _) as [material|] eqn:E; simpl.
  - apply find_material_Some in E as [Hin Hid].
    destruct (build_materials_entry db _ material Hinv Hin) as (_ & _ & Hreq).
    rewrite elem_of_add_all, elem_of_nil, Hreq, Hid.
    rewrite collect_demand_required. split.
    + intros [[]|(r & ? & ? & ? & ?)]. by exists r.
    + intros (r & ? & ? & ? & ?). right. by exists r.
  - apply find_material_None in E.
    rewrite (build_materials_ids db) in E by done.
    rewrite collect_demand_keys in E. rewrite elem_of_nil. split; [done|].
    intros (r & ? & ? & ? & ?). apply E. by exists r.
Qed.

(** ** When the slot efficiency is a number *)

Section SlotEfficiency.
Context (db : Database).
Hypothesis Hstacks : ∀ i stackSize,
  i ∈ Database.items db → Item.stack_size i = Some stackSize → 0 < stackSize.

(** The body of the loop of [calculateSlotEfficiency]. *)
Let add_stack (weightedStackSum : Z) (entry : string * Z) : Z :=
  let '(materialId, quantity) := entry in
  let materialItem := query_item db materialId in
  let stackSize :=
    default DEFAULT_STACK_SIZE (materialItem ≫= Item.stack_size) in
  weightedStackSum + stackSize * quantity.

Lemma material_stack_size_positive (materialId : string) :
  0 < default DEFAULT_STACK_SIZE (query_item db materialId ≫= Item.stack_size).
Proof using Hstacks.
  destruct (query_item db materialId) as [materialItem|] eqn:E; simpl; [|done].
  apply query_item_id in E as [_ Hin].
  destruct (Item.stack_size materialItem) as [s|] eqn:Es; simpl; [|done].
  by apply (Hstacks materialItem).
Qed.

Lemma weighted_stack_sum_zero (outputYields : list (string * Z)) (acc : Z) :
  (∀ m q, (m, q) ∈ outputYields → q = 0) →
  foldl add_stack acc outputYields = acc.
Proof.
  revert acc. induction outputYields as [|[m q] l IH]; intros acc Hl; [done|].
  cbn [foldl]. rewrite IH.
  - unfold add_stack. rewrite (Hl m q) by left. lia.
  - intros m' q' Hin. apply (Hl m' q'). by right.
Qed.

Lemma weighted_stack_sum_ge (outputYields : list (string * Z)) (acc : Z) :
  (∀ m q, (m, q) ∈ outputYields → 0 <= q) →
  acc + sumZ (map_values outputYields) <= foldl add_stack acc outputYields.
Proof using Hstacks.
  revert acc. induction outputYields as [|[m q] l IH]; intros acc Hl.
  - unfold map_values. simpl. unfold sumZ. simpl. lia.
  - cbn [foldl]. unfold map_values. csimpl. rewrite sumZ_cons.
    fold (map_values l).
    assert (Hq : 0 <= q) by (apply (Hl m); left).
    assert (IH' := IH (add_stack acc (m, q))
                      (λ m' q' Hin, Hl m' q' (list_elem_of_further _ _ _ Hin))).
    pose proof (material_stack_size_positive m) as Hs.
    set (next := add_stack acc (m, q)) in *.
    assert (Hnext : next
                    = acc + default DEFAULT_STACK_SIZE
                              (query_item db m ≫= Item.stack_size) * q) by done.
    assert (q <= default DEFAULT_STACK_SIZE
                   (query_item db m ≫= Item.stack_size) * q) by nia.
    rewrite <- Hnext. clearbody next. lia.
Qed.

Lemma sumZ_zero_all (outputYields : list (string * Z)) :
  (∀ m q, (m, q) ∈ outputYields → 0 <= q) →
  sumZ (map_values outputYields) = 0 →
  ∀ m q, (m, q) ∈ outputYields → q = 0.
Proof.
  induction outputYields as [|[m0 q0] l IH]; intros Hl Hsum m q Hin.
  - by apply elem_of_nil in Hin.
  - unfold map_values in Hsum. csimpl in Hsum. rewrite sumZ_cons in Hsum.
    fold (map_values l) in Hsum.
    assert (0 <= q0) by (apply (Hl m0); left).
    assert (0 <= sumZ (map_values l)).
    { apply sumZ_not_negative. intros x Hx.
      apply list_elem_of_fmap in Hx as ([m' q'] & -> & Hx).
      apply (Hl m' q'). by right. }
    apply elem_of_cons in Hin as [[= -> ->]|Hin]; [lia|].
    apply (IH (λ m' q' H', Hl m' q' (list_elem_of_further _ _ _ H'))
              ltac:(lia) m q Hin).
Qed.

Lemma calculateSlotEfficiency_cases (item : Item)
    (outputYields : list (string * Z)) :
  (∀ m q, (m, q) ∈ outputYields → 0 <= q) →
  (∀ stackSize, Item.stack_size item = Some stackSize → 0 < stackSize) →
  let slotEfficiency := calculateSlotEfficiency item outputYields db in
  (slotEfficiency = NaN
   ∧ outputYields ≠ [] ∧ ∀ m q, (m, q) ∈ outputYields → q = 0)
  ∨ (∃ r, slotEfficiency = Fin r ∧ (0 < r)%Q
          ∧ (outputYields = [] ∨ ∃ m q, (m, q) ∈ outputYields ∧ q ≠ 0)).
Proof using Hstacks.
  intros Hq Hitem. cbv zeta. unfold calculateSlotEfficiency.
  fold add_stack.
  destruct (decide (outputYields = [])) as [->|Hne].
  { right. exists 1.0%Q. split_and!; [done|done|by left]. }
  assert (Hlen : (length outputYields =? 0)%nat = false)
    by (by destruct outputYields).
  rewrite Hlen.
  assert (Hs : 0 < default DEFAULT_STACK_SIZE (Item.stack_size item)).
  { destruct (Item.stack_size item) as [s|] eqn:Es; simpl; [|done].
    by apply Hitem. }
  set (s := default DEFAULT_STACK_SIZE (Item.stack_size item)) in *.
  set (T := sumZ (map_values outputYields)).
  set (W := foldl add_stack 0 outputYields).
  destruct (decide (T = 0)) as [HT|HT].
  - left. pose proof (sumZ_zero_all outputYields Hq HT) as Hall.
    assert (HW : W = 0) by (by apply weighted_stack_sum_zero).
    rewrite HT, HW. split_and!; done.
  - right.
    assert (0 <= T).
    { apply sumZ_not_negative. intros x Hx.
      apply list_elem_of_fmap in Hx as ([m' q'] & -> & Hx). by apply (Hq m'). }
    pose proof (weighted_stack_sum_ge outputYields 0 Hq) as HW. fold T W in HW.
    rewrite div_ofZ by done. unfold ofZ, div.
    rewrite inject_Z_eq_bool_zero.
    replace (s =? 0) with false by (symmetry; apply Z.eqb_neq; lia).
    eexists. split_and!; [done| |].
    + assert (0 < inject_Z W)%Q by (rewrite <- (Zlt_Qlt 0); lia).
      assert (0 < inject_Z T)%Q by (rewrite <- (Zlt_Qlt 0); lia).
      assert (0 < inject_Z s)%Q by (rewrite <- (Zlt_Qlt 0); lia).
      apply Qlt_shift_div_l; [done|]. rewrite Qmult_0_l.
      apply Qlt_shift_div_l; [done|]. by rewrite Qmult_0_l.
    + right. destruct (decide (Forall (λ e : string * Z, e.2 = 0) outputYields))
        as [Hall|Hnall].
      * destruct HT. subst T. clear -Hall.
        induction Hall as [|[m q] l Hq _ IH]; [done|].
        unfold map_values. csimpl. rewrite sumZ_cons. simpl in Hq.
        fold (map_values l). lia.
      * apply not_Forall_Exists in Hnall; [|apply _].
        apply Exists_exists in Hnall as ([m q] & Hin & Hq0).
        by exists m, q.
Qed.

End SlotEfficiency.

(** X25.  Over yields without negative quantities and a store whose
    stack sizes are positive, the slot efficiency is NaN exactly when there
    are yields and all their quantities are 0 (the averages of a group all
    rounded to 0); in every other case it is a positive number. *)
Theorem calculateSlotEfficiency_nan_iff (item : Item)
    (outputYields : list (string * Z)) (db : Database) :
  (∀ materialId quantity,
     (materialId, quantity) ∈ outputYields → 0 <= quantity) →
  (∀ i stackSize,
     i ∈ Database.items db → Item.stack_size i = Some stackSize →
     0 < stackSize) →
  (∀ stackSize, Item.stack_size item = Some stackSize → 0 < stackSize) →
  let slotEfficiency := calculateSlotEfficiency item outputYields db in
  (slotEfficiency = NaN
   ↔ outputYields ≠ []
     ∧ ∀ materialId quantity,
         (materialId, quantity) ∈ outputYields → quantity = 0)
  ∧ (slotEfficiency ≠ NaN → ∃ r, slotEfficiency = Fin r ∧ (0 < r)%Q).
Proof.
  intros Hq Hstacks Hitem. cbv zeta.
  destruct (calculateSlotEfficiency_cases db Hstacks item outputYields Hq Hitem)
    as [(-> & Hne & Hall)|(r & -> & Hr & Hcase)].
  - split; [done|]. by intros [].
  - split; [|by exists r]. split; [done|]. intros [Hne Hall].
    destruct Hcase as [->|(m & q & Hin & Hq0)]; [done|].
    destruct Hq0. by apply (Hall m).
Qed.

(** ** What a source yields *)

Lemma collect_sources_rows kind db excludedIds materialIds gs :
  collect_sources kind db excludedIds materialIds gs
  = foldl add_row gs (query_rows kind db excludedIds materialIds).
Proof.
  unfold collect_sources, query_rows. revert gs.
  induction materialIds as [|m ms IH]; intros gs; [done|].
  cbn [foldl]. rewrite IH. csimpl. rewrite foldl_app. f_equal.
  generalize (query_sources kind db m excludedIds). intros sources. revert gs.
  induction sources as [|[item q] sources IHs]; intros gs; [done|].
  csimpl. by rewrite IHs.
Qed.

Lemma get_or_zero_bump (k k' : string) (q : Z) (m : list (string * Z)) :
  get_or_zero k' (map_set k (get_or_zero k m + q) m)
  = get_or_zero k' m + if decide (k' = k) then q else 0.
Proof.
  rewrite get_or_zero_set_add. destruct (decide (k' = k)) as [->|]; lia.
Qed.

Section AddRow.
Context (gs : list (string * SourceGroup))
        (row : YieldKind * string * Item * Z).

Let kind := row.1.1.1.
Let materialId := row.1.1.2.
Let item := row.1.2.
Let quantity := row.2.

Lemma add_row_other baseName :
  baseName ≠ row_base row →
  group_of (add_row gs row) baseName = group_of gs baseName.
Proof.
  intros Hne. unfold group_of. destruct row as [[[k m] i] q].
  unfold add_row, add_source, row_base in *. simpl in *.
  by rewrite map_get_set_ne.
Qed.

Lemma add_row_yields kind' :
  group_yields kind' (group_of (add_row gs row) (row_base row))
  = if decide (kind = kind')
    then map_set materialId
           (get_or_zero materialId
              (group_yields kind' (group_of gs (row_base row))) + quantity)
           (group_yields kind' (group_of gs (row_base row)))
    else group_yields kind' (group_of gs (row_base row)).
Proof.
  subst kind materialId item quantity. destruct row as [[[k m] i] q].
  unfold group_of at 1. unfold add_row, add_source, row_base. simpl.
  rewrite map_get_set_eq. simpl. fold (group_of gs (getBaseName (Item.name i))).
  by destruct k, kind'.
Qed.

Lemma add_row_items :
  SourceGroup.items (group_of (add_row gs row) (row_base row))
  = if bool_decide (Exists (λ i, Item.id i = Item.id item)
                           (SourceGroup.items (group_of gs (row_base row))))
    then SourceGroup.items (group_of gs (row_base row))
    else SourceGroup.items (group_of gs (row_base row)) ++ [item].
Proof.
  subst kind materialId item quantity. destruct row as [[[k m] i] q].
  unfold group_of at 1. unfold add_row, add_source, row_base. simpl.
  rewrite map_get_set_eq. simpl. fold (group_of gs (getBaseName (Item.name i))).
  by destruct k.
Qed.

End AddRow.

Lemma add_rows_spec (rows : list (YieldKind * string * Item * Z))
    (gs : list (string * SourceGroup)) (baseName : string) :
  let before := group_of gs baseName in
  let after := group_of (foldl add_row gs rows) baseName in
  (∀ kind materialId,
     get_or_zero materialId (group_yields kind after)
     = get_or_zero materialId (group_yields kind before)
       + sumZ (row_yield kind baseName materialId <$> rows))
  ∧ (∀ kind materialId,
       materialId ∈ map_keys (group_yields kind after)
       ↔ materialId ∈ map_keys (group_yields kind before)
         ∨ ∃ row, row ∈ rows ∧ row.1.1.1 = kind ∧ row_base row = baseName
                  ∧ row.1.1.2 = materialId)
  ∧ (∀ kind, NoDup (map_keys (group_yields kind before)) →
             NoDup (map_keys (group_yields kind after)))
  ∧ (∀ id, id ∈ Item.id <$> SourceGroup.items after
           ↔ id ∈ Item.id <$> SourceGroup.items before
             ∨ ∃ row, row ∈ rows ∧ row_base row = baseName
                      ∧ Item.id row.1.2 = id)
  ∧ (NoDup (Item.id <$> SourceGroup.items before) →
     NoDup (Item.id <$> SourceGroup.items after)).
Proof.
  cbv zeta. revert gs. induction rows as [|row rows IH]; intros gs.
  - cbn [foldl]. split_and!; try done.
    + intros. unfold sumZ. simpl. lia.
    + intros kind m. split; [by left|]. intros [?|(? & H & _)]; [done|].
      by apply elem_of_nil in H.
    + intros id. split; [by left|]. intros [?|(? & H & _)]; [done|].
      by apply elem_of_nil in H.
  - cbn [foldl]. destruct (IH (add_row gs row)) as (I1 & I2 & I3 & I4 & I5).
    clear IH.
    destruct (decide (baseName = row_base row)) as [->|Hne].
    + pose proof (add_row_yields gs row) as Hy.
      pose proof (add_row_items gs row) as Hi.
      set (before := group_of gs (row_base row)) in *.
      set (mid := group_of (add_row gs row) (row_base row)) in *.
      split_and!.
      * intros kind m. rewrite I1, Hy. csimpl. rewrite sumZ_cons.
        unfold row_yield at 2.
        destruct (decide (row.1.1.1 = kind)) as [Hk|Hk].
        -- rewrite get_or_zero_bump.
           destruct (decide (m = row.1.1.2)) as [->|Hm].
           ++ rewrite decide_True by done. lia.
           ++ rewrite decide_False by (intros (_ & _ & ?); congruence). lia.
        -- rewrite decide_False by (intros (? & _ & _); congruence). lia.
      * intros kind m. rewrite I2, Hy.
        destruct (decide (row.1.1.1 = kind)) as [Hk|Hk].
        -- rewrite map_keys_set_elem. split.
           ++ intros [[->|?]|(r & ? & ? & ? & ?)].
              ** right. exists row. split_and!; [left|done|done|done].
              ** by left.
              ** right. exists r. split_and!; [by right|done|done|done].
           ++ intros [?|(r & Hr & ? & ? & ?)]; [by left; right|].
              apply elem_of_cons in Hr as [->|Hr]; [by left; left|].
              right. by exists r.
        -- split.
           ++ intros [?|(r & ? & ? & ? & ?)]; [by left|].
              right. exists r. split_and!; [by right|done|done|done].
           ++ intros [?|(r & Hr & ? & ? & ?)]; [by left|].
              apply elem_of_cons in Hr as [->|Hr]; [congruence|].
              right. by exists r.
      * intros kind Hnd. apply I3. rewrite Hy.
        destruct (decide (row.1.1.1 = kind)); [|done].
        by apply map_keys_set_NoDup.
      * intros id. rewrite I4, Hi. case_bool_decide as Hex.
        -- split.
           ++ intros [?|(r & ? & ? & ?)]; [by left|].
              right. exists r. split_and!; [by right|done|done].
           ++ intros [?|(r & Hr & ? & ?)]; [by left|].
              apply elem_of_cons in Hr as [->|Hr]; [|by right; exists r].
              left. apply Exists_exists in Hex as (i & Hin & Hid).
              apply list_elem_of_fmap. exists i. split; [congruence|done].
        -- rewrite fmap_app, elem_of_app. csimpl.
           rewrite list_elem_of_singleton. split.
           ++ intros [[?| ->]|(r & ? & ? & ?)].
              ** by left.
              ** right. exists row. split_and!; [left|done|done].
              ** right. exists r. split_and!; [by right|done|done].
           ++ intros [?|(r & Hr & ? & ?)]; [by left; left|].
              apply elem_of_cons in Hr as [->|Hr]; [by left; right|].
              right. by exists r.
      * intros Hnd. apply I5. rewrite Hi. case_bool_decide as Hex; [done|].
        rewrite fmap_app. apply NoDup_app. split_and!; [done| |].
        -- intros id Hid Hid'. csimpl in Hid'.
           apply list_elem_of_singleton in Hid' as ->.
           apply Hex. apply list_elem_of_fmap in Hid as (i & Hid & Hin).
           apply Exists_exists. by exists i.
        -- csimpl. apply NoDup_singleton.
    + rewrite (add_row_other gs row baseName Hne) in *.
      split_and!.
      * intros kind m. rewrite I1. csimpl. rewrite sumZ_cons.
        unfold row_yield at 2.
        rewrite decide_False by (intros (_ & ? & _); congruence). lia.
      * intros kind m. rewrite I2. split.
        -- intros [?|(r & ? & ? & ? & ?)]; [by left|].
           right. exists r. split_and!; [by right|done|done|done].
        -- intros [?|(r & Hr & ? & ? & ?)]; [by left|].
           apply elem_of_cons in Hr as [->|Hr]; [congruence|].
           right. by exists r.
      * done.
      * intros id. rewrite I4. split.
        -- intros [?|(r & ? & ? & ?)]; [by left|].
           right. exists r. split_and!; [by right|done|done].
        -- intros [?|(r & Hr & ? & ?)]; [by left|].
           apply elem_of_cons in Hr as [->|Hr]; [congruence|].
           right. by exists r.
      * done.
Qed.

(** *** From the rows of the queries to the rows of the tables *)

Lemma sumZ_bind {A B : Type} (f : B → Z) (g : A → list B) (l : list A) :
  sumZ (f <$> (l ≫= g)) = sumZ ((λ x, sumZ (f <$> g x)) <$> l).
Proof.
  induction l as [|x l IH]; [done|].
  csimpl. by rewrite fmap_app, sumZ_app, sumZ_cons, IH.
Qed.

Lemma sumZ_zero {A : Type} (f : A → Z) (l : list A) :
  (∀ x, x ∈ l → f x = 0) → sumZ (f <$> l) = 0.
Proof.
  induction l as [|x l IH]; intros Hl; [done|].
  csimpl. rewrite sumZ_cons, (Hl x) by left.
  rewrite IH; [done|]. intros y Hy. apply Hl. by right.
Qed.

Lemma sumZ_ext {A : Type} (f g : A → Z) (l : list A) :
  (∀ x, x ∈ l → f x = g x) → sumZ (f <$> l) = sumZ (g <$> l).
Proof.
  induction l as [|x l IH]; intros Hl; [done|].
  csimpl. rewrite !sumZ_cons, (Hl x) by left.
  rewrite IH; [done|]. intros y Hy. apply Hl. by right.
Qed.

(** One block of a sum over a list without repetition. *)
Lemma sumZ_single (k : string) (c : Z) (l : list string) :
  NoDup l →
  sumZ ((λ x, if decide (x = k) then c else 0) <$> l)
  = if decide (k ∈ l) then c else 0.
Proof.
  induction 1 as [|x l Hx Hnd IH]; [done|].
  csimpl. rewrite sumZ_cons, IH.
  destruct (decide (x = k)) as [->|Hne].
  - destruct (decide (k ∈ l)); [done|].
    destruct (decide (k ∈ k :: l)) as [|Hn]; [lia|]. destruct Hn. left.
  - destruct (decide (k ∈ l)) as [Hin|Hnin].
    + destruct (decide (k ∈ x :: l)) as [|Hn]; [lia|]. destruct Hn. by right.
    + destruct (decide (k ∈ x :: l)) as [Hn|]; [|lia].
      apply elem_of_cons in Hn as [->|?]; done.
Qed.

(** The statement of a kind, over the rows of its table. *)
Lemma query_sources_output_rows (kind : YieldKind) (db : Database)
    (materialId : string) (excludedIds : gset string) :
  query_sources kind db materialId excludedIds
  = row ← filter (λ row, row.1.2 = materialId ∧ row.1.1 ∉ excludedIds)
                 (output_rows kind db);
    (λ i, (i, row.2)) <$> join_items db row.1.1.
Proof.
  destruct kind; simpl; unfold query_salvage_sources, query_recycle_sources.
  - induction (Database.salvaging_outputs db) as [|so l IH]; [done|].
    rewrite fmap_cons, !filter_cons. simpl.
    destruct (decide (_ ∧ _)); csimpl; by rewrite IH.
  - induction (Database.recycling_outputs db) as [|ro l IH]; [done|].
    rewrite fmap_cons, !filter_cons. simpl.
    destruct (decide (_ ∧ _)); csimpl; by rewrite IH.
Qed.

Section KeyedItems.
Context (db : Database).
Hypothesis Hkey : NoDup (Item.id <$> Database.items db).

(** With [items.id] a key, the join of an output row has the one item row
    of its id, if any. *)
Lemma join_items_key (itemId : string) :
  join_items db itemId = option_list (query_item db itemId).
Proof using Hkey.
  unfold query_item, join_items. revert Hkey.
  induction (Database.items db) as [|i l IH]; [done|].
  rewrite fmap_cons, NoDup_cons. intros [Hi Hnd]. rewrite filter_cons.
  destruct (decide (Item.id i = itemId)) as [<-|Hne]; [|by apply IH].
  simpl. f_equal. destruct (filter _ l) as [|j l'] eqn:E; [done|].
  assert (Hj : j ∈ filter (λ i0, Item.id i0 = Item.id i) l)
    by (rewrite E; left).
  apply list_elem_of_filter in Hj as [Hid Hj].
  destruct Hi. rewrite <- Hid. by apply list_elem_of_fmap_2.
Qed.

Lemma query_item_key (item : Item) :
  item ∈ Database.items db → query_item db (Item.id item) = Some item.
Proof using Hkey.
  intros Hin.
  assert (H : item ∈ join_items db (Item.id item)) by (by apply join_items_spec).
  rewrite join_items_key in H.
  destruct (query_item db (Item.id item)); simpl in H.
  - by apply list_elem_of_singleton in H as ->.
  - by apply elem_of_nil in H.
Qed.

Context (excludedIds : gset string) (materialIds : list string)
        (Hids : NoDup materialIds).

(** The yield that the rows of the queries of a kind add up to. *)
Lemma query_rows_yield kind kind' baseName materialId :
  sumZ (row_yield kind baseName materialId
          <$> query_rows kind' db excludedIds materialIds)
  = if decide (kind' = kind ∧ materialId ∈ materialIds)
    then sumZ ((λ row, row.2)
                 <$> family_rows kind db excludedIds baseName materialId)
    else 0.
Proof using Hkey Hids.
  unfold query_rows. rewrite sumZ_bind.
  destruct (decide (kind' = kind)) as [->|Hk]; cycle 1.
  { rewrite decide_False by (by intros [? _]).
    apply sumZ_zero. intros m _. apply sumZ_zero. intros row Hrow.
    apply list_elem_of_fmap in Hrow as (src & -> & _).
    unfold row_yield. simpl. by rewrite decide_False by (by intros [? _]). }
  set (c := sumZ ((λ row : string * string * Z, row.2)
                    <$> family_rows kind db excludedIds baseName materialId)).
  rewrite (sumZ_ext _ (λ m, if decide (m = materialId) then c else 0)).
  { rewrite sumZ_single by done.
    destruct (decide (materialId ∈ materialIds)).
    - by rewrite decide_True.
    - by rewrite decide_False by (by intros [_ ?]). }
  intros m _. destruct (decide (m = materialId)) as [->|Hm]; cycle 1.
  { apply sumZ_zero. intros row Hrow.
    apply list_elem_of_fmap in Hrow as (src & -> & _).
    unfold row_yield. simpl.
    by rewrite decide_False by (intros (_ & _ & ?); congruence). }
  subst c. rewrite <- list_fmap_compose.
  rewrite query_sources_output_rows, sumZ_bind. unfold family_rows.
  rewrite (sumZ_ext _ (λ row, if decide (base_name_of db row.1.1 = Some baseName)
                              then row.2 else 0)).
  - rewrite sumZ_fmap_if, list_filter_filter. f_equal. f_equal.
    apply list_filter_iff. intros row. tauto.
  - intros row _. rewrite join_items_key. unfold base_name_of.
    destruct (query_item db row.1.1) as [i|]; simpl.
    + unfold row_yield, row_base, sumZ. simpl.
      destruct (decide (getBaseName (Item.name i) = baseName)) as [Hb|Hb].
      * destruct (decide (_ ∧ _)) as [_|Hn]; [|by destruct Hn].
        destruct (decide (Some _ = Some _)) as [_|Hn]; [lia|].
        destruct Hn. by rewrite Hb.
      * destruct (decide (_ ∧ _)) as [(_ & ? & _)|_]; [done|].
        destruct (decide (Some _ = Some _)) as [[= ?]|_]; done.
    + by destruct (decide (None = Some baseName)).
Qed.

(** The rows of the queries of a kind for one group and one material. *)
Lemma query_rows_family kind baseName materialId :
  (∃ row, row ∈ query_rows kind db excludedIds materialIds
          ∧ row.1.1.1 = kind ∧ row_base row = baseName
          ∧ row.1.1.2 = materialId)
  ↔ materialId ∈ materialIds
    ∧ family_rows kind db excludedIds baseName materialId ≠ [].
Proof using Hkey.
  unfold query_rows. split.
  - intros (row & Hrow & _ & Hb & Hm).
    apply list_elem_of_bind in Hrow as (m & Hrow & Hin).
    apply list_elem_of_fmap in Hrow as ([i q] & -> & Hsrc).
    simpl in *. subst m. split; [done|].
    rewrite query_sources_output_rows in Hsrc.
    apply list_elem_of_bind in Hsrc as (trow & Hi & Htrow).
    apply list_elem_of_fmap in Hi as (i' & Heq & Hi).
    injection Heq as -> ->. rewrite join_items_key in Hi.
    apply list_elem_of_filter in Htrow as [[Hm Hex] Htrow].
    intros Hnil.
    assert (Hf : trow ∈ family_rows kind db excludedIds baseName materialId).
    { apply list_elem_of_filter. split; [|done]. split_and!; [done|done|].
      unfold base_name_of. destruct (query_item db trow.1.1); simpl in *.
      - apply list_elem_of_singleton in Hi as ->. unfold row_base in Hb.
        simpl in Hb. by rewrite Hb.
      - by apply elem_of_nil in Hi. }
    rewrite Hnil in Hf. by apply elem_of_nil in Hf.
  - intros [Hin Hne].
    destruct (family_rows kind db excludedIds baseName materialId)
      as [|trow l] eqn:E; [done|].
    assert (Hf : trow ∈ family_rows kind db excludedIds baseName materialId)
      by (rewrite E; left).
    apply list_elem_of_filter in Hf as [(Hm & Hex & Hb) Htrow].
    unfold base_name_of in Hb.
    destruct (query_item db trow.1.1) as [i|] eqn:Ei; [|done].
    injection Hb as Hb.
    exists (kind, materialId, i, trow.2). split_and!; try done.
    apply list_elem_of_bind. exists materialId. split; [|done].
    apply list_elem_of_fmap. exists (i, trow.2). split; [done|].
    rewrite query_sources_output_rows. apply list_elem_of_bind.
    exists trow. split.
    + apply list_elem_of_fmap. exists i. split; [done|].
      rewrite join_items_key, Ei. simpl. left.
    + apply list_elem_of_filter. done.
Qed.

(** The items of the rows of the queries for one group. *)
Lemma query_rows_members baseName id :
  (∃ row, row ∈ query_rows Salvage db excludedIds materialIds
                ++ query_rows Recycle db excludedIds materialIds
          ∧ row_base row = baseName ∧ Item.id row.1.2 = id)
  ↔ id ∈ Item.id <$> family_members db excludedIds materialIds baseName.
Proof using Hkey.
  assert (Hrows : ∀ kind row,
            row ∈ query_rows kind db excludedIds materialIds
            ↔ row.1.1.1 = kind
              ∧ row.1.1.2 ∈ materialIds
              ∧ row.1.2 ∈ Database.items db
              ∧ ∃ trow, trow ∈ output_rows kind db
                        ∧ trow.1.2 = row.1.1.2
                        ∧ (trow.1.1 ∉ excludedIds)
                        ∧ trow.1.1 = Item.id row.1.2 ∧ trow.2 = row.2).
  { intros kind [[[k m] i] q]. unfold query_rows. simpl.
    rewrite list_elem_of_bind. split.
    - intros (m' & Hrow & Hin).
      apply list_elem_of_fmap in Hrow as ([i' q'] & [= -> -> -> ->] & Hsrc).
      rewrite query_sources_output_rows in Hsrc.
      apply list_elem_of_bind in Hsrc as (trow & Hi & Htrow).
      apply list_elem_of_fmap in Hi as (i'' & Heq & Hi).
      injection Heq as -> ->. apply join_items_spec in Hi as [Hid Hi].
      apply list_elem_of_filter in Htrow as [[Hm Hex] Htrow].
      split_and!; try done. by exists trow.
    - intros (-> & Hin & Hi & trow & Htrow & Hm & Hex & Hid & Hq).
      exists m. split; [|done].
      apply list_elem_of_fmap. exists (i, q). split; [done|].
      rewrite query_sources_output_rows. apply list_elem_of_bind.
      exists trow. split.
      + apply list_elem_of_fmap. exists i. split; [by rewrite Hq|].
        by apply join_items_spec.
      + by apply list_elem_of_filter. }
  unfold family_members, yields_material. split.
  - intros (row & Hrow & Hb & Hid). apply list_elem_of_fmap.
    exists row.1.2. split; [done|]. apply list_elem_of_filter.
    apply elem_of_app in Hrow as [Hrow|Hrow];
      apply Hrows in Hrow as (_ & Hm & Hi & trow & Htrow & Hom & Hex & Htid & _).
    + split; [|done]. split_and!; [done|by rewrite <- Htid|].
      apply Exists_exists. exists trow. split; [apply elem_of_app; by left|].
      split; [done | by rewrite Hom].
    + split; [|done]. split_and!; [done|by rewrite <- Htid|].
      apply Exists_exists. exists trow. split; [apply elem_of_app; by right|].
      split; [done | by rewrite Hom].
  - intros Hid. apply list_elem_of_fmap in Hid as (i & -> & Hi).
    apply list_elem_of_filter in Hi as [(Hb & Hex & Hy) Hi].
    apply Exists_exists in Hy as (trow & Htrow & Htid & Hm).
    apply elem_of_app in Htrow as [Htrow|Htrow].
    + exists (Salvage, trow.1.2, i, trow.2). split_and!; [|done|done].
      apply elem_of_app. left. apply Hrows. simpl.
      split_and!; try done. exists trow. split_and!; try done.
      by rewrite Htid.
    + exists (Recycle, trow.1.2, i, trow.2). split_and!; [|done|done].
      apply elem_of_app. right. apply Hrows. simpl.
      split_and!; try done. exists trow. split_and!; try done.
      by rewrite Htid.
Qed.

Lemma family_members_NoDup baseName :
  NoDup (Item.id <$> family_members db excludedIds materialIds baseName).
Proof using Hkey.
  unfold family_members. revert Hkey.
  induction (Database.items db) as [|i l IH]; [constructor|].
  rewrite fmap_cons, NoDup_cons. intros [Hi Hnd]. rewrite filter_cons.
  destruct (decide _); [|by apply IH].
  rewrite fmap_cons. apply NoDup_cons. split; [|by apply IH].
  intros Hin. apply Hi. apply list_elem_of_fmap in Hin as (j & -> & Hj).
  apply list_elem_of_filter in Hj as [_ Hj]. by apply list_elem_of_fmap_2.
Qed.

End KeyedItems.

(** *** The averaged yields *)

Lemma average_yields_from (qmap : list (string * Z)) (memberCount : nat)
    (yieldsMap acc : list (string * Z)) (m : string) :
  NoDup (map_keys yieldsMap) →
  let avg (totalYield : Z) :=
    Math_round (inject_Z totalYield / inject_Z (Z.of_nat memberCount))%Q in
  map_get m
    (foldl (λ avgYields '(materialId, totalYield),
              if map_has materialId qmap
              then map_set materialId (avg totalYield) avgYields
              else avgYields) acc yieldsMap)
  = match (if map_has m qmap then map_get m yieldsMap else None) with
    | Some totalYield => Some (avg totalYield)
    | None => map_get m acc
    end.
Proof.
  cbv zeta. revert acc. induction yieldsMap as [|[k t] l IH]; intros acc Hnd.
  - simpl. by destruct (map_has m qmap).
  - unfold map_keys in Hnd. csimpl in Hnd. apply NoDup_cons in Hnd as [Hk Hnd].
    cbn [foldl]. rewrite IH by done. cbn [map_get].
    destruct (decide (m = k)) as [->|Hne].
    + assert (Hl : map_get k l = None) by (by apply map_get_None_keys).
      rewrite Hl. destruct (map_has k qmap); [|done].
      by rewrite map_get_set_eq.
    + destruct (map_has m qmap), (map_get m l); try done;
        destruct (map_has k qmap); try done; by rewrite map_get_set_ne.
Qed.

Lemma average_yields_NoDup (qmap : list (string * Z)) (memberCount : nat)
    (yieldsMap : list (string * Z)) :
  NoDup (map_keys (average_yields qmap memberCount yieldsMap)).
Proof.
  unfold average_yields.
  assert (H : NoDup (map_keys ([] : list (string * Z)))) by constructor.
  revert H. generalize ([] : list (string * Z)).
  induction yieldsMap as [|[k t] l IH]; intros acc Hacc; [done|].
  cbn [foldl]. apply IH. destruct (map_has k qmap); [|done].
  by apply map_keys_set_NoDup.
Qed.

(** An averaged yield is the rounded quotient of the total of a demanded
    material by the number of members. *)
Lemma average_yields_elem (qmap : list (string * Z)) (memberCount : nat)
    (yieldsMap : list (string * Z)) (m : string) (y : Z) :
  NoDup (map_keys yieldsMap) →
  (m, y) ∈ average_yields qmap memberCount yieldsMap
  ↔ m ∈ map_keys qmap
    ∧ m ∈ map_keys yieldsMap
    ∧ y = Math_round (inject_Z (get_or_zero m yieldsMap)
                      / inject_Z (Z.of_nat memberCount))%Q.
Proof.
  intros Hnd.
  assert (Hget : (m, y) ∈ average_yields qmap memberCount yieldsMap
                 ↔ map_get m (average_yields qmap memberCount yieldsMap)
                   = Some y).
  { split; [|apply map_get_Some_elem].
    apply elem_of_map_get, average_yields_NoDup. }
  rewrite Hget. unfold average_yields.
  rewrite (average_yields_from qmap memberCount yieldsMap [] m Hnd). simpl.
  unfold get_or_zero. destruct (map_has m qmap) eqn:Eh.
  - apply map_has_true in Eh.
    destruct (map_get m yieldsMap) as [t|] eqn:Et.
    + assert (m ∈ map_keys yieldsMap).
      { destruct (decide (m ∈ map_keys yieldsMap)) as [|Hn]; [done|].
        apply map_get_None_keys in Hn. congruence. }
      replace (if t =? 0 then 0 else t) with t
        by (destruct (t =? 0) eqn:E; [by apply Z.eqb_eq in E|done]).
      split; [by intros [= <-]|]. by intros (_ & _ & ->).
    + apply map_get_None_keys in Et. split; [done|]. by intros (_ & ? & _).
  - apply map_has_false in Eh. split; [done|]. by intros (? & _).
Qed.

Lemma NoDup_same_length {A : Type} (l k : list A) :
  NoDup l → NoDup k → (∀ x, x ∈ l ↔ x ∈ k) → length l = length k.
Proof.
  intros Hl Hk Hlk. apply Permutation_length. by apply NoDup_Permutation.
Qed.

(** The group that a source of the output was scored from. *)
Lemma all_sources_group bookmarkedIds db scoringMethod filterOptions
    allSources source :
  all_sources bookmarkedIds db scoringMethod filterOptions = Some allSources →
  source ∈ allSources →
  let demand := collect_demand db filterOptions bookmarkedIds in
  let materialIds := map_keys (Demand.materialQuantityMap demand) in
  let excludedIds := excluded_ids bookmarkedIds materialIds filterOptions in
  let group :=
    group_of (foldl add_row []
                (query_rows Salvage db excludedIds materialIds
                 ++ query_rows Recycle db excludedIds materialIds))
             (SalvagingSource.baseName source) in
  ∀ kind,
    source_yields kind source
    = average_yields (Demand.materialQuantityMap demand)
                     (length (SourceGroup.items group))
                     (group_yields kind group).
Proof.
  unfold all_sources. intros Hall Hs. cbv zeta.
  set (demand := collect_demand db filterOptions bookmarkedIds) in *.
  set (materialIds := map_keys (Demand.materialQuantityMap demand)) in *.
  set (excludedIds := excluded_ids bookmarkedIds materialIds filterOptions) in *.
  rewrite foldl_app, <- !collect_sources_rows.
  set (gs := collect_sources Recycle _ _ _ _) in *.
  assert (Hgs : groups_inv db excludedIds gs).
  { apply collect_sources_inv, collect_sources_inv, groups_inv_nil. }
  destruct (build_sources_elem _ _ _ _ _ _ _ Hall Hs) as (group & Hg & Hsc).
  apply list_elem_of_fmap in Hg as ([key g] & -> & Hg). simpl in Hsc.
  destruct Hgs as [Hnd Hfa].
  pose proof (elem_of_map_get _ _ _ Hnd Hg) as Hget.
  rewrite Forall_forall in Hfa. pose proof (grp_name _ _ _ _ (Hfa _ Hg)) as Hname.
  simpl in Hname.
  pose proof (score_group_Some _ _ _ _ _ _ Hsc) as [_ Hbase].
  apply score_group_yields in Hsc as [Hsal Hrec].
  unfold group_of. rewrite Hbase, Hname, Hget. simpl.
  intros []; done.
Qed.

Lemma excluded_ids_ext (bookmarkedIds ids1 ids2 : list string)
    (filterOptions : MaterialFilterOptions) :
  (∀ x, x ∈ ids1 ↔ x ∈ ids2) →
  excluded_ids bookmarkedIds ids1 filterOptions
  = excluded_ids bookmarkedIds ids2 filterOptions.
Proof.
  intros H. unfold excluded_ids. f_equal. f_equal.
  apply set_eq. intros x. by rewrite !elem_of_list_to_set.
Qed.

Lemma family_members_ext (db : Database) (excludedIds : gset string)
    (ids1 ids2 : list string) (baseName : string) :
  (∀ x, x ∈ ids1 ↔ x ∈ ids2) →
  family_members db excludedIds ids1 baseName
  = family_members db excludedIds ids2 baseName.
Proof.
  intros H. unfold family_members. apply list_filter_iff. intros item.
  unfold yields_material. rewrite !Exists_exists.
  split; intros (? & ? & row & ? & ? & ?); split_and!; try done;
    exists row; split_and!; try done; by apply H.
Qed.

Lemma query_rows_kind kind db excludedIds materialIds row :
  row ∈ query_rows kind db excludedIds materialIds → row.1.1.1 = kind.
Proof.
  unfold query_rows. rewrite list_elem_of_bind. intros (m & Hrow & _).
  by apply list_elem_of_fmap in Hrow as (src & -> & _).
Qed.

(** X26.  What a source yields.  Over a store whose [items.id] is a
    key, take a source of the output and the members of its group: the item
    rows of its base name that are not excluded (not bookmarked, not a
    demanded material, not hidden) and that a salvaging or recycling row
    names as the origin of a demanded material.  The yields of the source
    of a kind ([salvageYields] from the salvaging rows, [recycleYields]
    from the recycling rows) have an entry for a material exactly when the
    material is demanded and a row of that kind yields it from a member,
    and the quantity of the entry is the total of those rows divided by the
    number of members, rounded. *)
Theorem aggregateMaterials_source_yields (bookmarkedIds : list string)
    (db : Database) (scoringMethod : ScoringMethod)
    (filterOptions : MaterialFilterOptions) :
  NoDup (Item.id <$> Database.items db) →
  ∃ result,
    aggregateMaterials bookmarkedIds db scoringMethod filterOptions = Some result
    ∧ let materialIds :=
        (Item.id ∘ MaterialRequirement.item)
          <$> AggregatedMaterialsData.materials result in
      let excludedIds := excluded_ids bookmarkedIds materialIds filterOptions in
      ∀ source,
        source ∈ AggregatedMaterialsData.salvageSources result
                 ++ AggregatedMaterialsData.recycleSources result →
        let baseName := SalvagingSource.baseName source in
        let memberCount :=
          length (family_members db excludedIds materialIds baseName) in
        ∀ kind materialId quantity,
          (materialId, quantity) ∈ source_yields kind source
          ↔ materialId ∈ materialIds
            ∧ family_rows kind db excludedIds baseName materialId ≠ []
            ∧ quantity
              = Math_round
                  (inject_Z (sumZ ((λ row, row.2)
                                     <$> family_rows kind db excludedIds
                                                     baseName materialId))
                   / inject_Z (Z.of_nat memberCount))%Q.
Proof.
  intros Hkey.
  destruct (aggregateMaterials_total bookmarkedIds db scoringMethod filterOptions)
    as [result Hres].
  exists result. split; [done|]. cbv zeta. intros source Hs kind m y.
  pose proof Hres as Hres'.
  apply aggregateMaterials_sources
    in Hres' as (allSources & Hall & _ & _ & Hin).
  apply Hin in Hs. clear Hin.
  apply aggregateMaterials_unfold in Hres as (? & _ & ->). simpl.
  pose proof (collect_demand_inv db filterOptions bookmarkedIds) as Hinv.
  set (demand := collect_demand db filterOptions bookmarkedIds) in *.
  set (qmap := Demand.materialQuantityMap demand).
  assert (Hids : ∀ k,
            k ∈ (Item.id ∘ MaterialRequirement.item) <$> build_materials demand
            ↔ k ∈ map_keys qmap).
  { intros k. by apply (build_materials_ids db). }
  rewrite (excluded_ids_ext _ _ _ _ Hids), (family_members_ext _ _ _ _ _ Hids).
  rewrite Hids.
  set (materialIds := map_keys qmap).
  set (excludedIds := excluded_ids bookmarkedIds materialIds filterOptions).
  set (baseName := SalvagingSource.baseName source).
  assert (Hnd : NoDup materialIds) by apply (inv_keys _ _ Hinv).
  rewrite (all_sources_group _ _ _ _ _ _ Hall Hs kind).
  fold demand qmap materialIds excludedIds baseName.
  set (rows := query_rows Salvage db excludedIds materialIds
               ++ query_rows Recycle db excludedIds materialIds).
  destruct (add_rows_spec rows [] baseName) as (I1 & I2 & I3 & I4 & I5).
  set (group := group_of (foldl add_row [] rows) baseName) in *.
  assert (Hempty : ∀ k, group_yields k (group_of [] baseName) = [])
    by (by intros []).
  rewrite average_yields_elem by (apply I3; rewrite Hempty; constructor).
  (* the members *)
  assert (Hcount : length (SourceGroup.items group)
                   = length (family_members db excludedIds materialIds
                                            baseName)).
  { rewrite <- (length_fmap Item.id (SourceGroup.items group)).
    rewrite <- (length_fmap Item.id (family_members _ _ _ _)).
    apply NoDup_same_length.
    - apply I5. constructor.
    - by apply family_members_NoDup.
    - intros id. rewrite I4, <- (query_rows_members db Hkey). split.
      + intros [H|H]; [by apply elem_of_nil in H | done].
      + intros H. by right. }
  rewrite Hcount.
  (* the keys *)
  assert (Hkeys : m ∈ map_keys (group_yields kind group)
                  ↔ m ∈ materialIds
                    ∧ family_rows kind db excludedIds baseName m ≠ []).
  { rewrite I2, Hempty, <- (query_rows_family db Hkey). split.
    - intros [H|(row & Hrow & Hk & Hb & Hm)]; [by apply elem_of_nil in H|].
      exists row. split_and!; try done.
      apply elem_of_app in Hrow as [Hrow|Hrow];
        pose proof (query_rows_kind _ _ _ _ _ Hrow) as Hk';
        by rewrite <- Hk, Hk'.
    - intros (row & Hrow & Hk & Hb & Hm). right. exists row.
      split_and!; try done. subst rows. apply elem_of_app.
      destruct kind; [by left | by right]. }
  (* the totals *)
  assert (Htotal : m ∈ materialIds →
            get_or_zero m (group_yields kind group)
            = sumZ ((λ row, row.2)
                      <$> family_rows kind db excludedIds baseName m)).
  { intros Hm. rewrite I1, Hempty. subst rows.
    rewrite fmap_app, sumZ_app, !(query_rows_yield db Hkey) by done.
    unfold get_or_zero. simpl.
    destruct kind.
    - rewrite decide_True by done.
      rewrite decide_False by (by intros [? _]). lia.
    - rewrite decide_False by (by intros [? _]).
      rewrite decide_True by done. lia. }
  rewrite Hkeys. split.
  - intros (Hm & [_ Hrows] & ->). split_and!; [done|done|].
    by rewrite Htotal.
  - intros (Hm & Hrows & ->). split_and!; [done|done|done|].
    by rewrite Htotal.
Qed.

(** ** The factors of the recycle score *)

(** X27.  The three factors that only the recycle score has: for a
    source with at least one yield, a weight and a value that are not
    negative, the multi-material bonus is at least 1, the carry weight
    penalty is between 0.3 and 1, and the value bonus is between 1 and its
    cap of 1.3. *)
Theorem recycle_factors_bounded (numMaterials : Z) (weight value : Q) :
  1 <= numMaterials →
  (0 <= weight)%Q →
  (0 <= value)%Q →
  (∃ bonus, multiMaterialBonus numMaterials = Fin bonus ∧ (1 <= bonus)%Q)
  ∧ (∃ penalty,
       carryWeightPenalty (Fin weight) = Fin penalty
       ∧ (0.3 <= penalty)%Q ∧ (penalty <= 1)%Q)
  ∧ (∃ bonus,
       valueBonus (Fin value) = Fin bonus
       ∧ (1 <= bonus)%Q ∧ (bonus <= 1.3)%Q).
Proof.
  intros Hn Hw Hv. split_and!.
  - unfold multiMaterialBonus, pow.
    destruct (numMaterials - 1 =? 0)%Z; [exists 1%Q; split; [done|lra]|].
    change (Qeq_bool 1.15 0) with false. cbv iota.
    eexists. split; [done|]. apply Qpower_1_le; [lra|lia].
  - unfold carryWeightPenalty, JsNumber.max, one, sub, add, neg, div.
    change (Qeq_bool 10 0) with false. cbv iota. unfold ltb.
    assert (Hd : (weight / 10 == weight * (1 # 10))%Q) by reflexivity.
    destruct (Qltb 0.3 (1 + - (weight / 10))) eqn:E.
    + apply Qltb_lt in E. eexists. split; [done|]. rewrite Hd in *. lra.
    + eexists. split; [done|]. lra.
  - unfold valueBonus, JsNumber.min, one, add, mul, div.
    change (Qeq_bool 5000 0) with false. cbv iota. unfold ltb.
    assert (Hd : (value / 5000 == value * (1 # 5000))%Q) by reflexivity.
    destruct (Qltb (1 + value / 5000 * 0.1) 1.3) eqn:E.
    + apply Qltb_lt in E. eexists. split; [done|]. rewrite Hd in *. lra.
    + eexists. split; [done|]. lra.
Qed.

(** ** From a change of the settings to the grid *)

(** No source of the data of the grid is bookmarked or hidden. *)
Lemma aggregatedData_no_source status db settings itemId :
  itemId ∈ BookmarksSettings.bookmarkedItems (SettingsState.bookmarks settings)
  ∨ itemId ∈ SourceFilterSettings.hiddenSourceItems
               (SettingsState.sourceFilters settings) →
  no_source (MaterialsGrid.aggregatedData status db settings) itemId.
Proof.
  intros Hid. unfold no_source, MaterialsGrid.aggregatedData.
  destruct status; try done.
  destruct (length _ =? 0)%nat; [done|].
  destruct (aggregateMaterials_total (SettingsStore.bookmarkedItems settings) db
              (SettingsStore.scoringMethod settings)
              (MaterialsGrid.filterOptions settings)) as [result Hres].
  rewrite Hres. simpl.
  apply aggregateMaterials_sources
    in Hres as (allSources & Hall & _ & _ & Hin).
  apply all_sources_spec in Hall as [_ Hall].
  intros Hsrc. apply list_elem_of_fmap in Hsrc as (source & -> & Hs).
  destruct (Hall source (Hin _ Hs)) as (_ & _ & Hex).
  apply not_elem_of_excluded_ids in Hex as (Hb & _ & Hh).
  destruct Hid as [Hid|Hid].
  - apply Hb. unfold SettingsStore.bookmarkedItems. by apply elem_of_new_Set.
  - apply (Hh _ eq_refl). apply elem_of_list_to_set.
    unfold SettingsStore.hiddenSourceItems. by apply elem_of_new_Set.
Qed.

(** X28.  Hiding a source, or bookmarking an item, removes it from the
    sources of the grid: after [toggleSourceHidden(itemId)] on an item that
    was not hidden, and after [toggle(itemId)] on an item that was not
    bookmarked, the derivation of the data of the grid does not throw and
    no source of its two lists has that id. *)
Theorem hide_or_bookmark_removes_source (status : DatabaseStatus)
    (db : Database) (settings : SettingsState) (itemId : string) :
  (SettingsStore.isSourceHidden settings itemId = false →
   no_source (MaterialsGrid.aggregatedData
                status db (SettingsStore.toggleSourceHidden itemId settings))
             itemId)
  ∧ (SettingsStore.isBookmarked settings itemId = false →
     no_source (MaterialsGrid.aggregatedData
                  status db (SettingsStore.toggle itemId settings))
               itemId).
Proof.
  split; intros E; apply aggregatedData_no_source.
  - right. unfold SettingsStore.toggleSourceHidden. rewrite E. simpl.
    apply elem_of_app. right. left.
  - left. unfold SettingsStore.toggle. rewrite E. simpl.
    apply elem_of_app. right. left.
Qed.

Lemma new_Set_from_filter (P : string → Prop) `{!∀ x, Decision (P x)}
    (arr acc : list string) :
  foldl (λ s x, set_add x s) (filter P acc) (filter P arr)
  = filter P (foldl (λ s x, set_add x s) acc arr).
Proof.
  revert acc. induction arr as [|x arr IH]; intros acc; [done|].
  rewrite filter_cons. cbn [foldl]. rewrite <- IH.
  destruct (decide (P x)) as [HP|HP]; cbn [foldl]; f_equal.
  - unfold set_add. destruct (decide (x ∈ acc)) as [Hin|Hnin].
    + rewrite decide_True; [done|]. by apply list_elem_of_filter.
    + rewrite decide_False by (by intros [_ ?]%list_elem_of_filter).
      by rewrite filter_app, filter_cons_True.
  - unfold set_add. destruct (decide (x ∈ acc)); [done|].
    by rewrite filter_app, filter_cons_False, filter_nil, app_nil_r.
Qed.

(** A [Set] of a filtered array is the filtered [Set] of the array. *)
Lemma new_Set_filter (P : string → Prop) `{!∀ x, Decision (P x)}
    (arr : list string) :
  new_Set (filter P arr) = filter P (new_Set arr).
Proof. apply (new_Set_from_filter P arr []). Qed.

(** The demand reads the settings through the bookmarks that are not
    paused and the two material filters. *)
Lemma collect_demand_active (db : Database) (f1 f2 : MaterialFilterOptions)
    (b1 b2 : list string) :
  MaterialFilterOptions.hideScrappyCollected f1
  = MaterialFilterOptions.hideScrappyCollected f2 →
  MaterialFilterOptions.rarityFilters f1 = MaterialFilterOptions.rarityFilters f2 →
  filter (λ id, is_paused f1 id = false) b1
  = filter (λ id, is_paused f2 id = false) b2 →
  collect_demand db f1 b1 = collect_demand db f2 b2.
Proof.
  intros Hs Hr Hb. rewrite (collect_demand_paused db f1 b1).
  rewrite (collect_demand_paused db f2 b2). cbv zeta. rewrite Hb.
  unfold collect_demand. apply foldl_ext_eq. intros st itemId.
  unfold demand_item. simpl. apply foldl_ext_eq. intros st' recipe.
  unfold demand_recipe, shouldIncludeMaterial. simpl. by rewrite Hs, Hr.
Qed.

Lemma grid_materials_spec status db settings :
  grid_materials status db settings
  = Some (match status with
          | status_ready =>
              build_materials
                (collect_demand db (MaterialsGrid.filterOptions settings)
                                (SettingsStore.bookmarkedItems settings))
          | _ => []
          end).
Proof.
  unfold grid_materials, MaterialsGrid.aggregatedData.
  destruct status; try done.
  destruct (length _ =? 0)%nat eqn:E.
  - apply Nat.eqb_eq, length_zero_iff_nil in E. by rewrite E.
  - destruct (aggregateMaterials_total (SettingsStore.bookmarkedItems settings)
                db (SettingsStore.scoringMethod settings)
                (MaterialsGrid.filterOptions settings)) as [result Hres].
    rewrite Hres. simpl.
    by apply aggregateMaterials_unfold in Hres as (? & _ & ->).
Qed.

(** X29.  Pausing a bookmark shows the materials that removing the
    bookmark shows: for an item that is bookmarked and not paused, the
    materials of the grid after [togglePause(itemId)] are its materials
    after [toggle(itemId)]. *)
Theorem pause_shows_materials_of_removal (status : DatabaseStatus)
    (db : Database) (settings : SettingsState) (itemId : string) :
  SettingsStore.isBookmarked settings itemId = true →
  SettingsStore.isPaused settings itemId = false →
  ∃ materials,
    grid_materials status db (SettingsStore.togglePause itemId settings)
    = Some materials
    ∧ grid_materials status db (SettingsStore.toggle itemId settings)
      = Some materials.
Proof.
  intros Hb Hp. rewrite !grid_materials_spec. eexists. split; [done|].
  f_equal. destruct status; try done. f_equal.
  unfold SettingsStore.togglePause, SettingsStore.toggle. rewrite Hb, Hp.
  simpl. apply includes_true in Hb.
  set (bookmarked := BookmarksSettings.bookmarkedItems
                       (SettingsState.bookmarks settings)) in *.
  set (paused := BookmarksSettings.pausedItems
                   (SettingsState.bookmarks settings)) in *.
  symmetry. apply collect_demand_active; [done|done|].
  unfold is_paused, MaterialsGrid.filterOptions,
    SettingsStore.bookmarkedItems, SettingsStore.pausedItems. simpl.
  fold bookmarked paused. unfold without.
  rewrite (new_Set_filter (λ id, id ≠ itemId) bookmarked).
  rewrite list_filter_filter. apply list_filter_iff. intros id.
  assert (H1 : id ∈ (list_to_set
                       (new_Set (filter (λ id0, id0 ∈ new_Set bookmarked)
                                        (paused ++ [itemId]))) : gset string)
               ↔ id ∈ bookmarked ∧ (id ∈ paused ∨ id = itemId)).
  { rewrite elem_of_list_to_set, elem_of_new_Set, list_elem_of_filter,
      elem_of_new_Set, elem_of_app, list_elem_of_singleton. tauto. }
  assert (H2 : id ∈ (list_to_set
                       (new_Set
                          (filter (λ id0, id0 ∈ filter (λ id1, id1 ≠ itemId)
                                                       (new_Set bookmarked))
                                  (filter (λ id0, id0 ≠ itemId) paused)))
                     : gset string)
               ↔ id ≠ itemId ∧ id ∈ bookmarked ∧ id ∈ paused).
  { rewrite elem_of_list_to_set, elem_of_new_Set, !list_elem_of_filter,
      elem_of_new_Set. tauto. }
  rewrite !bool_decide_eq_false, H1, H2.
  destruct (decide (id = itemId)) as [->|Hne]; tauto.
Qed.

(** ** What is recommended for recycling yields something *)

Lemma signed_inf_zero (q : Q) (pos neg : number) :
  (q == 0)%Q → signed_inf q pos neg = NaN.
Proof.
  intros Hq. unfold signed_inf.
  destruct (Qltb 0 q) eqn:E1.
  { apply Qltb_lt in E1. rewrite Hq in E1. by apply Qlt_irrefl in E1. }
  destruct (Qltb q 0) eqn:E2; [|done].
  apply Qltb_lt in E2. rewrite Hq in E2. by apply Qlt_irrefl in E2.
Qed.

Lemma mul_null_score (x y : number) :
  null_score x → null_score (x * y)%js.
Proof.
  intros [->|(q & -> & Hq)]; [by left|].
  destruct y as [b| | |]; simpl.
  - right. exists (q * b)%Q. split; [done|]. rewrite Hq. ring.
  - left. by apply signed_inf_zero.
  - left. by apply signed_inf_zero.
  - by left.
Qed.

Lemma div_null_score (x y : number) :
  null_score x → null_score (x / y)%js.
Proof.
  intros [->|(q & -> & Hq)]; [by left|].
  destruct y as [b| | |]; simpl.
  - destruct (Qeq_bool b 0) eqn:E.
    + left. by apply signed_inf_zero.
    + right. exists (q / b)%Q. split; [done|]. rewrite Hq.
      unfold Qdiv. ring.
  - right. by exists 0%Q.
  - right. by exists 0%Q.
  - by left.
Qed.

Lemma recycle_score_null db scoringMethod representativeItem avgRecycleYields :
  null_score (recycle_score db scoringMethod representativeItem zero
                            avgRecycleYields).
Proof.
  assert (H0 : null_score zero) by (right; by exists 0%Q).
  unfold recycle_score. destruct scoringMethod;
    repeat apply mul_null_score; by apply div_null_score.
Qed.

Lemma bucket_of_null_recycle (source : SalvagingSource) :
  null_score (SalvagingSource.recycleScore source) →
  bucket_of source ≠ Some RecycleBucket.
Proof.
  unfold bucket_of.
  destruct (SalvagingSource.recycleScore source) as [r| | |];
    intros [Hn|(q & Hq & Hz)]; try done.
  - injection Hq as ->.
    assert (Hgt : gtb (Fin q) zero = false).
    { simpl. apply Qltb_ge. rewrite Hz. apply Qle_refl. }
    assert (Heq : eqb (Fin q) zero = true).
    { simpl. by apply Qeq_bool_iff. }
    rewrite Hgt, Heq, !andb_false_r, !andb_true_r.
    destruct (eqb (SalvagingSource.salvageScore source) zero) eqn:Es;
      [congruence|].
    cbn [andb].
    destruct (gtb (SalvagingSource.salvageScore source) zero); [congruence|].
    assert (Hd : null_score (Fin q / SalvagingSource.salvageScore source)%js).
    { apply div_null_score. right. by exists q. }
    destruct Hd as [->|(d & -> & Hd)]; [simpl; congruence|].
    replace (gtb (Fin d) RECYCLING_THRESHOLD) with false; [congruence|].
    symmetry. simpl. apply Qltb_ge. rewrite Hd. by compute.
  - replace (gtb NaN zero) with false by done.
    replace (eqb NaN zero) with false by done.
    rewrite !andb_false_r. simpl.
    destruct (eqb (SalvagingSource.salvageScore source) zero); simpl;
      congruence.
Qed.

Lemma score_group_recycle db scoringMethod qmap totalDemand group source :
  score_group db scoringMethod qmap totalDemand group = Some source →
  SalvagingSource.recycleScore source
  = recycle_score db scoringMethod (SalvagingSource.item source)
      (base_score qmap totalDemand (SalvagingSource.recycleYields source))
      (SalvagingSource.recycleYields source).
Proof.
  unfold score_group. destruct (head (SourceGroup.items group)); [|done].
  by intros [= <-].
Qed.

(** X30.  Nothing is recommended for recycling that yields nothing when
    recycled: every source of [recycleSources] has recycle yields, and
    their averaged quantities have a positive total. *)
Theorem aggregateMaterials_recycle_sources_yield (bookmarkedIds : list string)
    (db : Database) (scoringMethod : ScoringMethod)
    (filterOptions : MaterialFilterOptions) :
  ∃ result,
    aggregateMaterials bookmarkedIds db scoringMethod filterOptions = Some result
    ∧ ∀ source,
        source ∈ AggregatedMaterialsData.recycleSources result →
        SalvagingSource.recycleYields source ≠ []
        ∧ 0 < sumZ (map_values (SalvagingSource.recycleYields source)).
Proof.
  destruct (aggregateMaterials_total bookmarkedIds db scoringMethod filterOptions)
    as [result Hres].
  exists result. split; [done|]. intros source Hs.
  destruct (aggregateMaterials_lists bookmarkedIds db scoringMethod
              filterOptions result source Hres)
    as (allSources & Hall & _ & Hrec).
  apply (proj1 Hrec) in Hs. destruct Hs as [Hbucket Hin].
  unfold all_sources in Hall.
  destruct (build_sources_elem _ _ _ _ _ _ _ Hall Hin) as (group & _ & Hsc).
  apply score_group_recycle in Hsc.
  assert (Hpos : 0 < sumZ (map_values (SalvagingSource.recycleYields source))).
  { destruct (decide (0 < sumZ (map_values
                                  (SalvagingSource.recycleYields source))))
      as [|Hn]; [done|].
    destruct (bucket_of_null_recycle source); [|done].
    rewrite Hsc. unfold base_score.
    replace (0 <? sumZ (map_values (SalvagingSource.recycleYields source)))
      with false by (symmetry; apply Z.ltb_ge; lia).
    rewrite andb_false_r. apply recycle_score_null. }
  split; [|done]. intros E. rewrite E in Hpos. done.
Qed.
(** ** The theorems at concrete inputs *)

Lemma aggregateMaterials_total_quantity_witness :
  NoDup ["bandage"]
  ∧ ∃ result,
      aggregateMaterials ["bandage"] zero_yield_store max_yield
                         default_filterOptions = Some result
      ∧ sumZ (MaterialRequirement.totalQuantity
                <$> AggregatedMaterialsData.materials result)
        = sumZ (CraftingRecipe.quantity
                  <$> filter (counted_edge zero_yield_store
                                default_filterOptions ["bandage"])
                             (Database.crafting_recipes zero_yield_store)).
Proof.
  assert (H : NoDup ["bandage"]) by apply NoDup_singleton.
  split; [exact H|].
  exact (aggregateMaterials_total_quantity
           ["bandage"] zero_yield_store max_yield default_filterOptions H).
Defined.

Lemma aggregateMaterials_index_consistent_witness :
  NoDup (Item.id <$> Database.items zero_yield_store)
  ∧ ∃ result,
      aggregateMaterials ["bandage"] zero_yield_store max_yield
                         default_filterOptions = Some result
      ∧ (∀ m s,
           s ∈ map_list m (AggregatedMaterialsData.materialToSources result)
           ↔ ∃ ms,
               map_get s (AggregatedMaterialsData.sourceToMaterials result)
               = Some ms
               ∧ m ∈ ms)
      ∧ (∀ m, NoDup (map_list m
                       (AggregatedMaterialsData.materialToSources result)))
      ∧ (∀ s ms,
           map_get s (AggregatedMaterialsData.sourceToMaterials result)
           = Some ms →
           NoDup ms).
Proof.
  assert (H : NoDup (Item.id <$> Database.items zero_yield_store)).
  { apply (bool_decide_unpack _). vm_compute. exact I. }
  split; [exact H|].
  exact (aggregateMaterials_index_consistent
           ["bandage"] zero_yield_store max_yield default_filterOptions H).
Defined.

Lemma aggregateMaterials_skips_missing_item_witness :
  query_item
    (Database.mk (Database.items tier_store)
                 (Database.crafting_recipes tier_store ++ ghost_edge :: [])
                 (Database.salvaging_outputs tier_store)
                 (Database.recycling_outputs tier_store))
    (CraftingRecipe.ingredient_id ghost_edge) = None
  ∧ ∃ result,
      aggregateMaterials
        ["bandage"]
        (Database.mk (Database.items tier_store)
                     (Database.crafting_recipes tier_store ++ ghost_edge :: [])
                     (Database.salvaging_outputs tier_store)
                     (Database.recycling_outputs tier_store))
        max_yield default_filterOptions = Some result
      ∧ aggregateMaterials
          ["bandage"]
          (Database.mk (Database.items tier_store)
                       (Database.crafting_recipes tier_store ++ [])
                       (Database.salvaging_outputs tier_store)
                       (Database.recycling_outputs tier_store))
          max_yield default_filterOptions = Some result.
Proof.
  split; [reflexivity|].
  apply (aggregateMaterials_skips_missing_item
           (Database.items tier_store) (Database.salvaging_outputs tier_store)
           (Database.recycling_outputs tier_store)
           (Database.crafting_recipes tier_store) [] ghost_edge).
  reflexivity.
Defined.

Lemma score_group_weight_conscious_lower_witness :
  ∃ byYield byWeight,
    score_group light_yield_store max_yield [("wire", 3)] 3 toolbox_group
    = Some byYield
    ∧ score_group light_yield_store weight_conscious [("wire", 3)] 3
                  toolbox_group = Some byWeight
    ∧ eqb (effective_weight light_yield_store (SalvagingSource.item byYield)
                            (SalvagingSource.salvageYields byYield)) (Fin 2)
      = true
    ∧ gtb (base_score [("wire", 3)] 3 (SalvagingSource.salvageYields byYield))
          zero = true
    ∧ Item.stack_size (SalvagingSource.item byYield) ≠ Some 0
    ∧ (Item.rarity (SalvagingSource.item byYield) ∉ OBJECT_PROTOTYPE_KEYS)
    ∧ ltb (SalvagingSource.salvageScore byWeight)
          (SalvagingSource.salvageScore byYield) = true.
Proof.
  assert (Hkey : "Common" ∉ OBJECT_PROTOTYPE_KEYS).
  { apply (bool_decide_unpack _). vm_compute. exact I. }
  eexists _, _.
  split; [reflexivity|]. split; [reflexivity|].
  split; [vm_compute; reflexivity|]. split; [vm_compute; reflexivity|].
  split; [discriminate|]. split; [exact Hkey|].
  apply (score_group_weight_conscious_lower
           light_yield_store [("wire", 3)] 3 toolbox_group);
    [reflexivity | reflexivity | vm_compute; reflexivity
     | vm_compute; reflexivity | discriminate | exact Hkey].
Defined.

Lemma aggregateMaterials_material_entries_witness :
  NoDup ["bandage"]
  ∧ ∃ result,
      aggregateMaterials ["bandage"] zero_yield_store max_yield
                         default_filterOptions = Some result
      ∧ NoDup ((Item.id ∘ MaterialRequirement.item)
                 <$> AggregatedMaterialsData.materials result).
Proof.
  assert (H : NoDup ["bandage"]) by apply NoDup_singleton.
  split; [exact H|].
  destruct (aggregateMaterials_material_entries
              ["bandage"] zero_yield_store max_yield default_filterOptions H)
    as (result & Hres & Hnd & _).
  exists result. split; [exact Hres | exact Hnd].
Defined.

Lemma slot_bonus_at_least_one_witness :
  is_nan (Fin 50) = false ∧ geb (slot_bonus (Fin 50)) one = true.
Proof.
  split; [reflexivity|]. apply (slot_bonus_at_least_one (Fin 50)). reflexivity.
Defined.

Lemma bonus_keeps_score_witness :
  (0 <= 2)%Q ∧ (1 <= 1.5)%Q ∧ geb (Fin 2 * Fin 1.5)%js (Fin 2) = true.
Proof.
  assert (H0 : (0 <= 2)%Q) by (by compute).
  assert (H1 : (1 <= 1.5)%Q) by (by compute).
  split; [exact H0|]. split; [exact H1|].
  exact (bonus_keeps_score 2 1.5 H0 H1).
Defined.

Lemma aggregateMaterials_all_paused_witness :
  (∀ itemId, itemId ∈ ["bandage"] →
             is_paused paused_filterOptions itemId = true)
  ∧ aggregateMaterials ["bandage"] tier_store max_yield paused_filterOptions
    = Some (AggregatedMaterialsData.mk [] [] [] [] []).
Proof.
  assert (H : ∀ itemId, itemId ∈ ["bandage"] →
                        is_paused paused_filterOptions itemId = true).
  { intros itemId Hin. apply list_elem_of_singleton in Hin. subst itemId.
    vm_compute. reflexivity. }
  split; [exact H|].
  exact (aggregateMaterials_all_paused
           ["bandage"] tier_store max_yield paused_filterOptions H).
Defined.

Lemma Math_round_below_half_witness :
  0 <= 1 ∧ 2 * 1 < Z.of_nat 3
  ∧ Math_round (inject_Z 1 / inject_Z (Z.of_nat 3)) = 0.
Proof.
  assert (H0 : 0 <= 1) by lia.
  assert (H1 : 2 * 1 < Z.of_nat 3) by (simpl; lia).
  split; [exact H0|]. split; [exact H1|].
  exact (Math_round_below_half 1 3 H0 H1).
Defined.

Lemma aggregateMaterials_scores_not_negative_witness :
  store_not_negative tier_store
  ∧ ∃ result,
      aggregateMaterials ["bandage"] tier_store max_yield default_filterOptions
      = Some result
      ∧ ∀ source,
          source ∈ AggregatedMaterialsData.salvageSources result
                   ++ AggregatedMaterialsData.recycleSources result →
          not_negative (SalvagingSource.salvageScore source)
          ∧ not_negative (SalvagingSource.recycleScore source).
Proof.
  assert (H : store_not_negative tier_store).
  { split; intros x Hx; revert x Hx; apply Forall_forall;
      repeat constructor; by compute. }
  split; [exact H|].
  exact (aggregateMaterials_scores_not_negative
           ["bandage"] tier_store max_yield default_filterOptions H).
Defined.

Lemma aggregateMaterials_groups_not_empty_witness :
  ("Anvil", anvil_group)
  ∈ collect_sources Recycle tier_store
      (excluded_ids ["bandage"] ["fabric"] default_filterOptions) ["fabric"]
      (collect_sources Salvage tier_store
         (excluded_ids ["bandage"] ["fabric"] default_filterOptions)
         ["fabric"] [])
  ∧ ∃ representativeItem source,
      head (SourceGroup.items anvil_group) = Some representativeItem
      ∧ score_group tier_store max_yield [("fabric", 5)] 5 anvil_group
        = Some source
      ∧ SalvagingSource.item source = representativeItem
      ∧ SalvagingSource.baseName source = "Anvil".
Proof.
  assert (H : ("Anvil", anvil_group)
              ∈ collect_sources Recycle tier_store
                  (excluded_ids ["bandage"] ["fabric"] default_filterOptions)
                  ["fabric"]
                  (collect_sources Salvage tier_store
                     (excluded_ids ["bandage"] ["fabric"] default_filterOptions)
                     ["fabric"] [])).
  { vm_compute. left. }
  split; [exact H|].
  exact (aggregateMaterials_groups_not_empty
           ["bandage"] tier_store max_yield default_filterOptions
           "Anvil" anvil_group H).
Defined.

Lemma getBaseName_strips_tier_witness :
  "II" ∈ ["I"; "II"; "III"; "IV"]
  ∧ two_spaces ≠ ""
  ∧ all_spaces two_spaces
  ∧ ¬ ends_in_space "Anvil"
  ∧ getBaseName ("Anvil" +:+ two_spaces +:+ "II") = "Anvil".
Proof.
  assert (H1 : "II" ∈ ["I"; "II"; "III"; "IV"]).
  { apply (bool_decide_unpack _). vm_compute. exact I. }
  assert (H2 : two_spaces ≠ "") by discriminate.
  assert (H3 : all_spaces two_spaces) by (repeat constructor).
  assert (H4 : ¬ ends_in_space "Anvil").
  { intros (c & Hlast & Hsp). injection Hlast as <-. discriminate. }
  split_and!; [exact H1|exact H2|exact H3|exact H4|].
  exact (getBaseName_strips_tier "Anvil" two_spaces "II" H1 H2 H3 H4).
Defined.

Lemma stripTierSuffix_appended_witness :
  "iii" ∈ TIER_SUFFIXES
  ∧ "anvil" ≠ ""
  ∧ one_line "anvil"
  ∧ stripTierSuffix ("anvil" +:+ "_" +:+ "iii") = "anvil".
Proof.
  assert (H1 : "iii" ∈ TIER_SUFFIXES).
  { apply (bool_decide_unpack _). vm_compute. exact I. }
  assert (H2 : "anvil" ≠ "") by discriminate.
  assert (H3 : one_line "anvil") by (repeat constructor).
  split_and!; [exact H1|exact H2|exact H3|].
  exact (stripTierSuffix_appended "anvil" "iii" H1 H2 H3).
Defined.

Lemma toggleInArray_flips_witness :
  (∀ a b, strict_equal a b = true ↔ a = b)
  ∧ NoDup ["Common"; "Rare"]
  ∧ NoDup (toggleInArray ["Common"; "Rare"] "Rare" strict_equal)
  ∧ includesItem (toggleInArray ["Common"; "Rare"] "Rare" strict_equal)
                 "Rare" strict_equal
    = negb (includesItem ["Common"; "Rare"] "Rare" strict_equal).
Proof.
  assert (H1 : ∀ a b, strict_equal a b = true ↔ a = b).
  { intros a b. unfold strict_equal. apply bool_decide_eq_true. }
  assert (H2 : NoDup ["Common"; "Rare"]).
  { apply (bool_decide_unpack _). vm_compute. exact I. }
  split; [exact H1|]. split; [exact H2|].
  destruct (toggleInArray_flips strict_equal ["Common"; "Rare"] "Rare" H1 H2)
    as (Hnd & Hflip & _).
  split; [exact Hnd | exact Hflip].
Defined.

Lemma toggleInArray_twice_witness :
  (∀ a b, strict_equal a b = true ↔ a = b)
  ∧ ("Epic" ∉ ["Common"; "Rare"] →
     toggleInArray (toggleInArray ["Common"; "Rare"] "Epic" strict_equal)
                   "Epic" strict_equal
     = ["Common"; "Rare"]).
Proof.
  assert (H1 : ∀ a b, strict_equal a b = true ↔ a = b).
  { intros a b. unfold strict_equal. apply bool_decide_eq_true. }
  split; [exact H1|].
  exact (proj1 (toggleInArray_twice strict_equal ["Common"; "Rare"] "Epic" H1)).
Defined.

Lemma filteredSources_shown_witness :
  cache_sound (CategoryTables.mk [] []) []
  ∧ ∃ cacheAfter,
      MaterialsGrid.filteredSalvageSources
        uncommon_settings (CategoryTables.mk [] []) []
        (Some (AggregatedMaterialsData.mk [] [anvil_source] [] [] []))
      = Some (filter (source_shown uncommon_settings (CategoryTables.mk [] []))
                     [anvil_source],
              cacheAfter)
      ∧ cache_sound (CategoryTables.mk [] []) cacheAfter.
Proof.
  assert (H : cache_sound (CategoryTables.mk [] []) []).
  { intros itemId categories Hget. simpl in Hget. discriminate. }
  split; [exact H|].
  exact (filteredSources_shown
           AggregatedMaterialsData.salvageSources uncommon_settings
           (CategoryTables.mk [] []) []
           (Some (AggregatedMaterialsData.mk [] [anvil_source] [] [] [])) H).
Defined.

Lemma hover_source_material_agree_witness :
  "fabric" ≠ ""
  ∧ ∃ result,
      aggregateMaterials ["bandage"] tier_store max_yield default_filterOptions
      = Some result
      ∧ ("fabric"
         ∈ HoverStore.highlightedMaterials
             (HoverStore.setHoveredSource (Some "anvil_i") hover_salvage
                                          HoverStore.initial)
             status_ready tier_store (Some result) →
         "anvil_i"
         ∈ HoverStore.highlightedSources
             (HoverStore.setHoveredMaterial (Some "fabric") HoverStore.initial)
             status_ready tier_store (Some result)).
Proof.
  assert (H : "fabric" ≠ "") by discriminate.
  split; [exact H|].
  exact (hover_source_material_agree
           ["bandage"] tier_store max_yield default_filterOptions status_ready
           HoverStore.initial "anvil_i" "fabric" hover_salvage H).
Defined.

Lemma hover_material_bookmarks_witness :
  "fabric" ≠ ""
  ∧ ∃ result,
      aggregateMaterials ["bandage"] tier_store max_yield default_filterOptions
      = Some result
      ∧ ∀ bookmarkId,
          bookmarkId
          ∈ HoverStore.highlightedBookmarks
              (HoverStore.setHoveredMaterial (Some "fabric") HoverStore.initial)
              (Some result)
          ↔ ∃ r, r ∈ Database.crafting_recipes tier_store
                 ∧ counted_edge tier_store default_filterOptions ["bandage"] r
                 ∧ CraftingRecipe.ingredient_id r = "fabric"
                 ∧ CraftingRecipe.item_id r = bookmarkId.
Proof.
  assert (H : "fabric" ≠ "") by discriminate.
  split; [exact H|].
  exact (hover_material_bookmarks
           ["bandage"] tier_store max_yield default_filterOptions
           HoverStore.initial "fabric" H).
Defined.

Lemma calculateSlotEfficiency_nan_iff_witness :
  (∀ materialId quantity,
     (materialId, quantity) ∈ [("fabric", 0)] → 0 <= quantity)
  ∧ (∀ i stackSize,
       i ∈ Database.items tier_store → Item.stack_size i = Some stackSize →
       0 < stackSize)
  ∧ (∀ stackSize,
       Item.stack_size (example_item "anvil_i" "Anvil I" "Uncommon" 1000 2 None)
       = Some stackSize →
       0 < stackSize)
  ∧ calculateSlotEfficiency
      (example_item "anvil_i" "Anvil I" "Uncommon" 1000 2 None)
      [("fabric", 0)] tier_store
    = NaN.
Proof.
  assert (H1 : ∀ materialId quantity,
            (materialId, quantity) ∈ [("fabric", 0)] → 0 <= quantity).
  { intros materialId quantity Hin. apply list_elem_of_singleton in Hin.
    injection Hin as -> ->. lia. }
  assert (H2 : ∀ i stackSize,
            i ∈ Database.items tier_store →
            Item.stack_size i = Some stackSize → 0 < stackSize).
  { intros i stackSize Hin. revert stackSize. revert i Hin.
    apply (proj1 (Forall_forall
                    (λ i, ∀ s, Item.stack_size i = Some s → 0 < s) _)).
    unfold tier_store. simpl.
    repeat (apply Forall_cons; split;
            [intros s Hs; simpl in Hs; try discriminate;
             injection Hs as <-; lia|]).
    apply Forall_nil. exact I. }
  assert (H3 : ∀ stackSize,
            Item.stack_size
              (example_item "anvil_i" "Anvil I" "Uncommon" 1000 2 None)
            = Some stackSize →
            0 < stackSize).
  { intros stackSize Hs. simpl in Hs. discriminate. }
  split_and!; [exact H1|exact H2|exact H3|].
  apply (calculateSlotEfficiency_nan_iff
           (example_item "anvil_i" "Anvil I" "Uncommon" 1000 2 None)
           [("fabric", 0)] tier_store H1 H2 H3).
  split; [discriminate|].
  intros materialId quantity Hin. apply list_elem_of_singleton in Hin.
  injection Hin as -> ->. reflexivity.
Defined.

Lemma aggregateMaterials_source_yields_witness :
  NoDup (Item.id <$> Database.items tier_store)
  ∧ ∃ result,
      aggregateMaterials ["bandage"] tier_store max_yield default_filterOptions
      = Some result.
Proof.
  assert (H : NoDup (Item.id <$> Database.items tier_store)).
  { apply (bool_decide_unpack _). vm_compute. exact I. }
  split; [exact H|].
  destruct (aggregateMaterials_source_yields
              ["bandage"] tier_store max_yield default_filterOptions H)
    as (result & Hres & _).
  exists result. exact Hres.
Defined.

Lemma recycle_factors_bounded_witness :
  1 <= 2
  ∧ (0 <= 2)%Q
  ∧ (0 <= 1000)%Q
  ∧ ∃ bonus, multiMaterialBonus 2 = Fin bonus ∧ (1 <= bonus)%Q.
Proof.
  assert (H1 : 1 <= 2) by lia.
  assert (H2 : (0 <= 2)%Q) by (by compute).
  assert (H3 : (0 <= 1000)%Q) by (by compute).
  split_and!; [exact H1|exact H2|exact H3|].
  exact (proj1 (recycle_factors_bounded 2 2 1000 H1 H2 H3)).
Defined.

Lemma pause_shows_materials_of_removal_witness :
  SettingsStore.isBookmarked uncommon_settings "bandage" = true
  ∧ SettingsStore.isPaused uncommon_settings "bandage" = false
  ∧ ∃ materials,
      grid_materials status_ready tier_store
                     (SettingsStore.togglePause "bandage" uncommon_settings)
      = Some materials
      ∧ grid_materials status_ready tier_store
                       (SettingsStore.toggle "bandage" uncommon_settings)
        = Some materials.
Proof.
  assert (H1 : SettingsStore.isBookmarked uncommon_settings "bandage" = true)
    by (vm_compute; reflexivity).
  assert (H2 : SettingsStore.isPaused uncommon_settings "bandage" = false)
    by (vm_compute; reflexivity).
  split; [exact H1|]. split; [exact H2|].
  exact (pause_shows_materials_of_removal
           status_ready tier_store uncommon_settings "bandage" H1 H2).
Defined.
